(** * F1 racing dashboard: the data preparation pipeline of [new_app.py]

    The development embeds the pandas code of [new_app.py] that builds the
    base table ([load_csv]), the filtered view ([dff]) and the summary
    tables ([by_driver], [by_team], [driver_points]), and proves the
    properties its design document states about them.

    Modelling conventions.
    - A DataFrame is its row count together with a finite map from column
      names to columns; a column is a list of cells.
    - A cell is a missing value (NaN), a number, a string or a boolean.
      Numbers are exact rationals. pandas computes with int64 and float64:
      the theorems that depend on the value of a sum or of a difference
      carry the hypothesis that the numbers are whole and small enough for
      both to be exact ([exact_column], [small_whole]), and [Float64] holds
      the float64 operations for the inputs on which rounding shows.
    - A column that [pd.read_csv] reads as booleans stays boolean under
      [pd.to_numeric]; the model turns every boolean into 0 or 1, as
      pandas does in a column that also has missing values. The theorems
      that depend on the difference ask for a file without boolean cells
      ([no_booleans]).
    - The text-to-number parser of [pd.to_numeric] and the number-to-text
      printer of [astype(str)] are library code: they are parameters
      ([parse_numeric], [repr_num]) of the definitions that need them.
    - [astype(str)] turns a missing value into the text [nan] up to
      pandas 2 and leaves it missing from pandas 3 on. [load_csv] is the
      function on pandas 2; [load_csv_on] takes the version.
    - Strings are held in UTF-8. [str.strip] removes the white space of
      Unicode; [str.lower] is modelled on ASCII, which is all that the
      patterns of the program can tell. *)

From Stdlib Require Import QArith Qcanon Ascii String SpecFloat.
From stdpp Require Import gmap strings list sorting pretty.

Local Open Scope Qc_scope.

(** ** Exceptions *)

Inductive exn :=
  | KeyError (key : string)
  | AttributeError (what : string).

Inductive result (A : Type) :=
  | Ok (a : A)
  | Raise (e : exn).
Arguments Ok {A} a.
Arguments Raise {A} e.

Definition bind {A B} (r : result A) (k : A → result B) : result B :=
  match r with
  | Ok a => k a
  | Raise e => Raise e
  end.

Notation "x ←! r ; k" := (bind r (λ x, k))
  (at level 20, r at level 100, k at level 200, right associativity,
   format "x  ←!  r ;  '/' k").

(** Lookups through insertions and alterations at other, literal names. *)
Ltac lookup_other :=
  repeat first
    [ rewrite lookup_insert_ne by done
    | rewrite lookup_alter_ne by done
    | rewrite lookup_insert_eq
    | rewrite lookup_alter_eq ].

(** ** The pandas and NumPy operations the program calls *)

Module Pandas.

(** A cell of a column. [pd.read_csv] gives numbers, strings and NaN;
    booleans are the cells of the [IsDNF] column that [load_csv] adds. *)
Inductive cell :=
  | NA
  | Num (q : Qc)
  | Str (s : string)
  | Bool (b : bool).

Global Instance cell_eq_dec : EqDecision cell.
Proof. solve_decision. Defined.

Global Instance cell_inhabited : Inhabited cell := populate NA.

Abbreviation Series := (list cell).

(** [Series.isna()] and [Series.notna()], one cell at a time. *)
Definition isna (c : cell) : bool :=
  match c with NA => true | _ => false end.
Definition notna (c : cell) : bool := negb (isna c).

(** The result of a call that returns a Series for a Series and a scalar
    for a scalar ([pd.to_numeric]). *)
Inductive value :=
  | VSeries (s : Series)
  | VScalar (c : cell).

(** The versions of pandas that differ for this program. *)
Inductive version := Pandas2 | Pandas3.

Section Coercions.
(** [parse_numeric s] is the number pandas reads in the text [s], if
    it reads one; [repr_num q] is the text Python prints for [q]. *)
Variable parse_numeric : string → option Qc.
Variable repr_num : Qc → string.

(** [pd.to_numeric(_, errors="coerce")] on one cell: text that is not a
    number becomes NaN, a boolean counts as 0 or 1. *)
Definition to_numeric_cell (c : cell) : cell :=
  match c with
  | NA => NA
  | Num q => Num q
  | Str s => match parse_numeric s with Some q => Num q | None => NA end
  | Bool b => Num (if b then 1 else 0)
  end.

(** [pd.to_numeric(arg, errors="coerce")]; [arg] is [None] when it comes
    from [df.get] on an absent column, and [None] is a scalar that
    coerces to the scalar NaN. *)
Definition to_numeric (arg : option Series) : value :=
  match arg with
  | Some s => VSeries (to_numeric_cell <$> s)
  | None => VScalar NA
  end.

(** [Series.astype(str)] on one cell. *)
Definition astype_str_cell (c : cell) : string :=
  match c with
  | NA => "nan"
  | Num q => repr_num q
  | Str s => s
  | Bool b => if b then "True" else "False"
  end.
End Coercions.

(** [.fillna(0)]: a method of Series; the scalar NaN that [to_numeric]
    returns for [None] is a NumPy float and has no such attribute. *)
Definition fillna0_cell (c : cell) : cell :=
  match c with NA => Num 0 | _ => c end.
Definition fillna0 (v : value) : result Series :=
  match v with
  | VSeries s => Ok (fillna0_cell <$> s)
  | VScalar _ => Raise (AttributeError "fillna")
  end.

(** [np.where(cond, a, b)] on columns of one length. *)
Definition np_where (cond : list bool) (a b : Series) : Series :=
  zip_with (λ (c : bool) (ab : cell * cell), if c then ab.1 else ab.2)
           cond (zip a b).

(** [a - b] on float columns: NaN propagates. The operands in this
    program are always results of [to_numeric]. *)
Definition cell_sub (a b : cell) : cell :=
  match a, b with
  | Num x, Num y => Num (x - y)
  | _, _ => NA
  end.
Definition series_sub (a b : Series) : Series := zip_with cell_sub a b.

(** [a | b] on boolean columns. *)
Definition series_or (a b : list bool) : list bool := zip_with orb a b.

(** *** String methods *)

Definition ascii_lower (c : ascii) : ascii :=
  let n := Ascii.N_of_ascii c in
  if ((65 <=? n) && (n <=? 90))%N then Ascii.ascii_of_N (n + 32) else c.

(** [str.lower()] *)
Fixpoint str_lower (s : string) : string :=
  match s with
  | EmptyString => EmptyString
  | String c s' => String (ascii_lower c) (str_lower s')
  end.

(** The ASCII characters for which Python's [str.isspace] holds. *)
Definition py_isspace (c : ascii) : bool :=
  let n := Ascii.N_of_ascii c in
  (((9 <=? n) && (n <=? 13)) || ((28 <=? n) && (n <=? 32)))%N.

(** The other characters for which it holds, by the bytes of their UTF-8
    encoding: U+0085 and U+00A0 in two bytes; U+1680, U+2000 to U+200A,
    U+2028, U+2029, U+202F, U+205F and U+3000 in three. *)
Definition py_isspace2 (a b : ascii) : bool :=
  let (x, y) := (Ascii.N_of_ascii a, Ascii.N_of_ascii b) in
  ((x =? 194) && ((y =? 133) || (y =? 160)))%N.

Definition py_isspace3 (a b c : ascii) : bool :=
  let x := Ascii.N_of_ascii a in
  let y := Ascii.N_of_ascii b in
  let z := Ascii.N_of_ascii c in
  (((x =? 225) && (y =? 154) && (z =? 128))
   || ((x =? 226) && (y =? 128)
       && (((128 <=? z) && (z <=? 138)) || (z =? 168) || (z =? 169)
           || (z =? 175)))
   || ((x =? 226) && (y =? 129) && (z =? 159))
   || ((x =? 227) && (y =? 128) && (z =? 128)))%N.

(** The string without the white-space characters it starts with; [two] and
    [three] tell the characters of two and of three bytes. *)
Fixpoint strip_front (two : ascii → ascii → bool)
    (three : ascii → ascii → ascii → bool) (s : string) : string :=
  match s with
  | EmptyString => EmptyString
  | String a s1 =>
      if py_isspace a then strip_front two three s1
      else
        match s1 with
        | EmptyString => s
        | String b s2 =>
            if two a b then strip_front two three s2
            else
              match s2 with
              | EmptyString => s
              | String c s3 =>
                  if three a b c then strip_front two three s3 else s
              end
        end
  end.

(** [str.lstrip()] with no argument. *)
Definition str_lstrip (s : string) : string :=
  strip_front py_isspace2 py_isspace3 s.

(** [str.strip()] with no argument. The end of the string is stripped on
    its reverse, where the bytes of a character come in reverse order. *)
Definition str_strip (s : string) : string :=
  String.rev
    (strip_front (λ b a, py_isspace2 a b) (λ c b a, py_isspace3 a b c)
       (String.rev (str_lstrip s))).

(** [str.contains(pat, regex=True)] is [re.search(pat, s)]. The patterns
    of this program are alternations of literal words, [w1|w2|...]. *)
Fixpoint re_split_alt (cur : string) (pat : string) : list string :=
  match pat with
  | EmptyString => [String.rev cur]
  | String c pat' =>
      if Ascii.eqb c "|" then String.rev cur :: re_split_alt EmptyString pat'
      else re_split_alt (String c cur) pat'
  end.
Definition re_alternatives (pat : string) : list string :=
  re_split_alt EmptyString pat.

Fixpoint re_search_alt (alts : list string) (s : string) : bool :=
  existsb (λ a, String.prefix a s) alts
  || match s with
     | EmptyString => false
     | String _ s' => re_search_alt alts s'
     end.
Definition str_contains (pat : string) (s : string) : bool :=
  re_search_alt (re_alternatives pat) s.

(** *** DataFrames *)

Record DataFrame := mkDataFrame {
  nrows : nat;
  columns : gmap string Series
}.

(** ["c" in df.columns] *)
Definition has_column (df : DataFrame) (c : string) : bool :=
  bool_decide (is_Some (columns df !! c)).

(** [df.get(c)] *)
Definition get (df : DataFrame) (c : string) : option Series :=
  columns df !! c.

(** [df[c]] *)
Definition getitem (df : DataFrame) (c : string) : result Series :=
  match columns df !! c with
  | Some s => Ok s
  | None => Raise (KeyError c)
  end.

(** [df[c] = s] *)
Definition setitem (df : DataFrame) (c : string) (s : Series) : DataFrame :=
  mkDataFrame (nrows df) (<[c := s]> (columns df)).

(** [df[c] = v] where [v] may be a scalar, which is broadcast. *)
Definition setitem_value (df : DataFrame) (c : string) (v : value)
  : DataFrame :=
  match v with
  | VSeries s => setitem df c s
  | VScalar x => setitem df c (replicate (nrows df) x)
  end.

(** Every column has as many cells as the frame has rows. *)
Definition wf (df : DataFrame) : Prop :=
  map_Forall (λ _ (s : Series), length s = nrows df) (columns df).

(** [df[mask]]: boolean indexing keeps the rows whose mask is [True]. *)
Fixpoint bool_index {A} (mask : list bool) (s : list A) : list A :=
  match mask, s with
  | b :: mask', x :: s' =>
      if b then x :: bool_index mask' s' else bool_index mask' s'
  | _, _ => []
  end.

Definition mask_rows (df : DataFrame) (mask : list bool) : DataFrame :=
  mkDataFrame (length (bool_index mask (replicate (nrows df) ())))
              (bool_index mask <$> columns df).

(** [Series.isin(values)] *)
Definition isin (s : Series) (values : list cell) : list bool :=
  (λ c, bool_decide (c ∈ values)) <$> s.

(** [~s] on the boolean column of this program. *)
Definition cell_not (c : cell) : bool :=
  match c with Bool b => negb b | _ => false end.

(** [s > 0] on a float column; a comparison with NaN is [False]. *)
Definition Qc_leb (x y : Qc) : bool := Qle_bool x y.
Definition Qc_ltb (x y : Qc) : bool := negb (Qle_bool y x).
Global Arguments Qc_leb : simpl never.
Global Arguments Qc_ltb : simpl never.
Definition cell_gt0 (c : cell) : bool :=
  match c with
  | Num q => Qc_ltb 0 q
  | Bool b => b
  | _ => false
  end.

(** *** Sorting *)

(** The order of group keys and of [sort_values] on one column: numbers by
    value, strings by code point, NaN last. A column read from a CSV file
    holds numbers or strings, not both; across kinds the order is booleans,
    numbers, strings. *)
Definition cell_rank (c : cell) : nat :=
  match c with Bool _ => 0 | Num _ => 1 | Str _ => 2 | NA => 3 end.

Definition cell_leb (a b : cell) : bool :=
  match a, b with
  | Num x, Num y => Qc_leb x y
  | Str s, Str t => String.leb s t
  | Bool x, Bool y => implb x y
  | _, _ => (cell_rank a <=? cell_rank b)%nat
  end.

(** A group key is one cell per grouping column; keys are ordered
    lexicographically. *)
Abbreviation key := (list cell).

Fixpoint key_leb (k1 k2 : key) : bool :=
  match k1, k2 with
  | [], _ => true
  | _ :: _, [] => false
  | a :: k1', b :: k2' =>
      if decide (a = b) then key_leb k1' k2' else cell_leb a b
  end.

(** A stable sort (insertion sort): elements that compare equal keep their
    order. *)
Fixpoint insert_by {A} (leb : A → A → bool) (x : A) (l : list A) : list A :=
  match l with
  | [] => [x]
  | y :: l' => if leb x y then x :: l else y :: insert_by leb x l'
  end.

Definition stable_sort {A} (leb : A → A → bool) (l : list A) : list A :=
  foldr (insert_by leb) [] l.

(** [sort_values(by, ascending=False)] on a column of numbers: pandas
    reverses the rows, sorts them in ascending order and reverses the
    result. The default [kind="quicksort"] promises no order among equal
    values; the model sorts stably, as NumPy's introsort does on the arrays
    of at most 16 elements that it sorts by insertion. The theorems on
    rankings use only that the result is a sorted permutation. *)
Definition sort_values_desc {A} (by_ : A → Qc) (l : list A) : list A :=
  reverse (stable_sort (λ a b, Qc_leb (by_ a) (by_ b)) (reverse l)).

(** *** Group-by *)

Definition key_has_na (k : key) : bool := existsb isna k.

(** [groupby] drops the rows whose key has a NaN ([dropna=True]). *)
Definition dropna_keys {V} (rows : list (key * V)) : list (key * V) :=
  filter (λ r, key_has_na r.1 = false) rows.

(** The groups, in ascending key order ([sort=True]). *)
Definition group_keys {V} (rows : list (key * V)) : list key :=
  stable_sort key_leb (remove_dups ((dropna_keys rows).*1)).

Definition sumQc (l : list Qc) : Qc := foldr Qcplus 0 l.
Global Arguments sumQc : simpl never.

(** The number a cell adds to [sum()]: NaN is skipped. *)
Definition cell_val (c : cell) : Qc :=
  match c with
  | Num q => q
  | Bool b => if b then 1 else 0
  | _ => 0
  end.

(** [Series.sum()] *)
Definition series_sum (s : Series) : Qc := sumQc (cell_val <$> s).
Global Arguments series_sum : simpl never.

Definition group_rows {V} (rows : list (key * V)) (k : key) : list V :=
  (filter (λ r, r.1 = k) rows).*2.

(** [groupby(keys, as_index=False)[col].sum()]: one row per group, the key
    and the sum of the group's values. *)
Definition groupby_sum (rows : list (key * cell)) : list (key * Qc) :=
  (λ k, (k, series_sum (group_rows rows k))) <$> group_keys rows.

(** [groupby(keys)[col].cumsum()]: for every row the running sum of its
    group, in row order; NaN for a row whose key has a NaN. [seen] holds the
    rows already passed. *)
Fixpoint groupby_cumsum_go (seen rows : list (key * Qc)) : Series :=
  match rows with
  | [] => []
  | (k, v) :: rest =>
      if key_has_na k then NA :: groupby_cumsum_go seen rest
      else Num (sumQc (group_rows seen k) + v)
             :: groupby_cumsum_go ((k, v) :: seen) rest
  end.
Definition groupby_cumsum (rows : list (key * Qc)) : Series :=
  groupby_cumsum_go [] rows.

End Pandas.

(** ** The program: [new_app.py] *)

Module App.
Import Pandas.

Section Program.
Variable parse_numeric : string → option Qc.
Variable repr_num : Qc → string.

Definition DNF_PATTERN : string := "ret|dnf|dsq|dns|dnc".

(** [pos_col] of [load_csv] (line 91): the name of the finishing-position
    column. *)
Definition pos_col (df : DataFrame) : option string :=
  if has_column df "Position" then Some "Position"
  else if has_column df "Pos." then Some "Pos."
  else None.

(** "Resolve duplicated DriverNumber columns" (lines 93-104). *)
Definition resolve_driver_number (df : DataFrame) : result DataFrame :=
  if has_column df "DriverNumber" && has_column df "DriverNumber.1" then
    a ←! getitem df "DriverNumber";
    b ←! getitem df "DriverNumber.1";
    Ok (setitem df "DriverNumber_clean" (np_where (notna <$> a) a b))
  else if has_column df "DriverNumber" then
    a ←! getitem df "DriverNumber";
    Ok (setitem df "DriverNumber_clean" a)
  else if has_column df "DriverNumber.1" then
    b ←! getitem df "DriverNumber.1";
    Ok (setitem df "DriverNumber_clean" b)
  else
    Ok (setitem_value df "DriverNumber_clean" (VScalar NA)).

(** "Numeric conversions" (lines 106-118). *)
Definition numeric_conversions (df : DataFrame) : result DataFrame :=
  df ←! match pos_col df with
        | Some c =>
            s ←! getitem df c;
            Ok (setitem_value df "Pos_num" (to_numeric parse_numeric (Some s)))
        | None => Ok (setitem_value df "Pos_num" (VScalar NA))
        end;
  let df :=
    setitem_value df "Grid_num" (to_numeric parse_numeric (get df "Grid")) in
  pts ←! fillna0 (to_numeric parse_numeric (get df "Points"));
  let df := setitem df "Points" pts in
  df ←! (if has_column df "NPitstops" then
           s ←! getitem df "NPitstops";
           Ok (setitem_value df "NPitstops"
                 (to_numeric parse_numeric (Some s)))
         else Ok df);
  if has_column df "MedianPitStopDuration" then
    s ←! getitem df "MedianPitStopDuration";
    Ok (setitem_value df "MedianPitStopDuration"
          (to_numeric parse_numeric (Some s)))
  else Ok df.

(** "DNF heuristic" (lines 120-125). *)
Definition dnf_heuristic (df : DataFrame) : result DataFrame :=
  if has_column df "Time/Retired" then
    s ←! getitem df "Time/Retired";
    let t := (λ c, str_lower (astype_str_cell repr_num c)) <$> s in
    p ←! getitem df "Pos_num";
    Ok (setitem df "IsDNF"
          (Bool <$> series_or (isna <$> p) (str_contains DNF_PATTERN <$> t)))
  else
    p ←! getitem df "Pos_num";
    Ok (setitem df "IsDNF" (Bool <$> (isna <$> p))).

(** [df["PosGain"] = df["Grid_num"] - df["Pos_num"]] (line 127) *)
Definition pos_gain (df : DataFrame) : result DataFrame :=
  g ←! getitem df "Grid_num";
  p ←! getitem df "Pos_num";
  Ok (setitem df "PosGain" (series_sub g p)).

(** The body of [for c in ["Driver", "Constructor"]] (lines 129-131). *)
Definition strip_column (df : DataFrame) (c : string) : result DataFrame :=
  if has_column df c then
    s ←! getitem df c;
    Ok (setitem df c
          ((λ x, Str (str_strip (astype_str_cell repr_num x))) <$> s))
  else Ok df.

(** [load_csv] (lines 87-133), applied to the frame that [pd.read_csv]
    returns. *)
Definition load_csv (df : DataFrame) : result DataFrame :=
  df ←! resolve_driver_number df;
  df ←! numeric_conversions df;
  df ←! dnf_heuristic df;
  df ←! pos_gain df;
  df ←! strip_column df "Driver";
  strip_column df "Constructor".

(** [df[c].astype(str).str.strip()] on one cell. From pandas 3 on
    [astype(str)] gives the string dtype, in which a missing value stays
    missing. *)
Definition strip_cell_on (ver : version) (x : cell) : cell :=
  match ver, x with
  | Pandas3, NA => NA
  | _, _ => Str (str_strip (astype_str_cell repr_num x))
  end.

Definition strip_column_on (ver : version) (df : DataFrame) (c : string)
    : result DataFrame :=
  if has_column df c then
    s ←! getitem df c;
    Ok (setitem df c (strip_cell_on ver <$> s))
  else Ok df.

(** [load_csv] on a given version of pandas. In the status text of the
    DNF heuristic a missing value is the text [nan] or stays missing; it
    matches no pattern either way. *)
Definition load_csv_on (ver : version) (df : DataFrame) : result DataFrame :=
  df ←! resolve_driver_number df;
  df ←! numeric_conversions df;
  df ←! dnf_heuristic df;
  df ←! pos_gain df;
  df ←! strip_column_on ver df "Driver";
  strip_column_on ver df "Constructor".

(** *** Filters *)

(** The values of the sidebar widgets. *)
Record selection := mkSelection {
  sel_seasons : list cell;
  sel_races : list cell;
  sel_teams : list cell;
  sel_drivers : list cell;
  include_dnfs : bool;
  only_points : bool
}.

(** Python's truth value of a list. *)
Definition nonempty {A} (l : list A) : bool :=
  match l with [] => false | _ => true end.

(** The six filter statements, named by what they test. *)
Inductive predicate :=
  | BySeason | ByRace | ByTeam | ByDriver | ByDnf | ByPoints.

Definition all_predicates : list predicate :=
  [BySeason; ByRace; ByTeam; ByDriver; ByDnf; ByPoints].

(** One filter statement, [if guard: dff = dff[mask]] (lines 172-177). *)
Definition apply_predicate (sel : selection) (p : predicate)
    (dff : DataFrame) : result DataFrame :=
  match p with
  | BySeason =>
      if nonempty (sel_seasons sel) then
        s ←! getitem dff "Season";
        Ok (mask_rows dff (isin s (sel_seasons sel)))
      else Ok dff
  | ByRace =>
      if nonempty (sel_races sel) then
        s ←! getitem dff "RaceNumber";
        Ok (mask_rows dff (isin s (sel_races sel)))
      else Ok dff
  | ByTeam =>
      if nonempty (sel_teams sel) && has_column dff "Constructor" then
        s ←! getitem dff "Constructor";
        Ok (mask_rows dff (isin s (sel_teams sel)))
      else Ok dff
  | ByDriver =>
      if nonempty (sel_drivers sel) && has_column dff "Driver" then
        s ←! getitem dff "Driver";
        Ok (mask_rows dff (isin s (sel_drivers sel)))
      else Ok dff
  | ByDnf =>
      if negb (include_dnfs sel) then
        s ←! getitem dff "IsDNF";
        Ok (mask_rows dff (cell_not <$> s))
      else Ok dff
  | ByPoints =>
      if only_points sel then
        s ←! getitem dff "Points";
        Ok (mask_rows dff (cell_gt0 <$> s))
      else Ok dff
  end.

(** The filter statements applied one after the other in a given order. *)
Fixpoint apply_in_order (sel : selection) (order : list predicate)
    (dff : DataFrame) : result DataFrame :=
  match order with
  | [] => Ok dff
  | p :: order' =>
      dff ←! apply_predicate sel p dff;
      apply_in_order sel order' dff
  end.

(** [dff] (lines 171-177): the filtered view, in the order of the
    program. *)
Definition dff (df : DataFrame) (sel : selection) : result DataFrame :=
  dff ←! apply_predicate sel BySeason df;
  dff ←! apply_predicate sel ByRace dff;
  dff ←! apply_predicate sel ByTeam dff;
  dff ←! apply_predicate sel ByDriver dff;
  dff ←! apply_predicate sel ByDnf dff;
  apply_predicate sel ByPoints dff.

(** *** Aggregates *)

(** [kpi_points = dff["Points"].sum()] (line 184) *)
Definition kpi_points (dff : DataFrame) : result Qc :=
  s ←! getitem dff "Points";
  Ok (series_sum s).

(** [dff.groupby(c, as_index=False)["Points"].sum()] *)
Definition points_by (c : string) (dff : DataFrame)
    : result (list (key * Qc)) :=
  k ←! getitem dff c;
  v ←! getitem dff "Points";
  Ok (groupby_sum (zip ((λ x, [x]) <$> k) v)).

(** [points_by(c).sort_values("Points", ascending=False)] *)
Definition ranking (c : string) (dff : DataFrame)
    : result (list (key * Qc)) :=
  g ←! points_by c dff;
  Ok (sort_values_desc snd g).

(** [by_driver] (lines 202-207): the ranking by driver, [.head(20)]. *)
Definition by_driver (dff : DataFrame) : result (list (key * Qc)) :=
  r ←! ranking "Driver" dff;
  Ok (take 20 r).

(** [by_team] (lines 252-257): the ranking by team, [.head(12)]. *)
Definition by_team (dff : DataFrame) : result (list (key * Qc)) :=
  r ←! ranking "Constructor" dff;
  Ok (take 12 r).

(** A row of [driver_points]. *)
Record standing := mkStanding {
  st_Season : cell;
  st_RaceKey : cell;
  st_Driver : cell;
  st_Points : Qc;
  st_CumPoints : cell
}.

Definition zip3 (a b c : Series) : list key :=
  zip_with (λ x (yz : cell * cell), [x; yz.1; yz.2]) a (zip b c).

(** The key of the second group-by, [(Season, Driver)], of a row keyed by
    [(Season, RaceKey, Driver)]. *)
Definition season_driver (k : key) : key :=
  match k with
  | [s; _; d] => [s; d]
  | _ => k
  end.

Definition to_standing (r : key * Qc) (cum : cell) : standing :=
  match r.1 with
  | [s; k; d] => mkStanding s k d r.2 cum
  | _ => mkStanding NA NA NA r.2 cum
  end.

(** [driver_points] with its [CumPoints] column (lines 267-274). The rows
    of the table are records. *)
Definition driver_points (dff : DataFrame) : result (list standing) :=
  race ←! getitem dff "RaceNumber";
  let d :=
    setitem_value dff "RaceKey" (to_numeric parse_numeric (Some race)) in
  season ←! getitem d "Season";
  race_key ←! getitem d "RaceKey";
  driver ←! getitem d "Driver";
  points ←! getitem d "Points";
  let grouped := groupby_sum (zip (zip3 season race_key driver) points) in
  let sorted :=
    stable_sort (λ a b : key * Qc, key_leb (take 2 a.1) (take 2 b.1))
                grouped in
  let cum :=
    groupby_cumsum ((λ r : key * Qc, (season_driver r.1, r.2)) <$> sorted) in
  Ok (zip_with to_standing sorted cum).

(** The script from the CSV frame to the filtered view. Before it filters,
    it reads [df["Season"]] and [df["RaceNumber"]] to fill the widgets. *)
Definition filtered (raw : DataFrame) (sel : selection) : result DataFrame :=
  df ←! load_csv raw;
  _ ←! getitem df "Season";
  _ ←! getitem df "RaceNumber";
  dff df sel.

Definition filtered_on (ver : version) (raw : DataFrame) (sel : selection)
    : result DataFrame :=
  df ←! load_csv_on ver raw;
  _ ←! getitem df "Season";
  _ ←! getitem df "RaceNumber";
  dff df sel.

End Program.
End App.

(** ** The columns of the base table, as functions of the CSV frame *)

Module Loaded.
Import Pandas App.

Section Columns.
Variable parse_numeric : string → option Qc.
Variable repr_num : Qc → string.

Definition DriverNumber_clean (raw : DataFrame) : Series :=
  match columns raw !! "DriverNumber", columns raw !! "DriverNumber.1" with
  | Some a, Some b => np_where (notna <$> a) a b
  | Some a, None => a
  | None, Some b => b
  | None, None => replicate (nrows raw) NA
  end.

(** A float column made from an optional source column. *)
Definition numeric_or_nan (raw : DataFrame) (src : option Series) : Series :=
  match src with
  | Some s => to_numeric_cell parse_numeric <$> s
  | None => replicate (nrows raw) NA
  end.

Definition position_source (raw : DataFrame) : option Series :=
  match columns raw !! "Position" with
  | Some s => Some s
  | None => columns raw !! "Pos."
  end.

Definition Pos_num (raw : DataFrame) : Series :=
  numeric_or_nan raw (position_source raw).

Definition Grid_num (raw : DataFrame) : Series :=
  numeric_or_nan raw (columns raw !! "Grid").

Definition Points (pts : Series) : Series :=
  (λ c, fillna0_cell (to_numeric_cell parse_numeric c)) <$> pts.

Definition status_text (c : cell) : string :=
  str_lower (astype_str_cell repr_num c).

Definition IsDNF (raw : DataFrame) : Series :=
  match columns raw !! "Time/Retired" with
  | Some s =>
      Bool <$> series_or
                 (isna <$> Pos_num raw)
                 ((λ c, str_contains DNF_PATTERN (status_text c)) <$> s)
  | None => Bool <$> (isna <$> Pos_num raw)
  end.

Definition PosGain (raw : DataFrame) : Series :=
  series_sub (Grid_num raw) (Pos_num raw).

Definition stripped (c : cell) : cell :=
  Str (str_strip (astype_str_cell repr_num c)).

(** All the columns of the base table. *)
Definition base_columns (raw : DataFrame) (pts : Series)
    : gmap string Series :=
  alter (fmap stripped) "Constructor"
  (alter (fmap stripped) "Driver"
  (<["PosGain" := PosGain raw]>
  (<["IsDNF" := IsDNF raw]>
  (alter (fmap (to_numeric_cell parse_numeric)) "MedianPitStopDuration"
  (alter (fmap (to_numeric_cell parse_numeric)) "NPitstops"
  (<["Points" := Points pts]>
  (<["Grid_num" := Grid_num raw]>
  (<["Pos_num" := Pos_num raw]>
  (<["DriverNumber_clean" := DriverNumber_clean raw]> (columns raw)))))))))).

Definition base_table (raw : DataFrame) (pts : Series) : DataFrame :=
  mkDataFrame (nrows raw) (base_columns raw pts).

(** The base table on a version of pandas: the name columns depend on
    it. *)
Definition base_table_on (ver : version) (raw : DataFrame) (pts : Series)
    : DataFrame :=
  mkDataFrame (nrows raw)
    (alter (fmap (strip_cell_on repr_num ver)) "Constructor"
    (alter (fmap (strip_cell_on repr_num ver)) "Driver"
    (<["PosGain" := PosGain raw]>
    (<["IsDNF" := IsDNF raw]>
    (alter (fmap (to_numeric_cell parse_numeric)) "MedianPitStopDuration"
    (alter (fmap (to_numeric_cell parse_numeric)) "NPitstops"
    (<["Points" := Points pts]>
    (<["Grid_num" := Grid_num raw]>
    (<["Pos_num" := Pos_num raw]>
    (<["DriverNumber_clean" := DriverNumber_clean raw]>
       (columns raw))))))))))).

(** The steps of [driver_points] on columns. *)
Definition standings_of (season race driver points : Series) : list standing :=
  let race_key := to_numeric_cell parse_numeric <$> race in
  let grouped := groupby_sum (zip (zip3 season race_key driver) points) in
  let cum :=
    groupby_cumsum ((λ r : key * Qc, (season_driver r.1, r.2)) <$> grouped) in
  zip_with to_standing grouped cum.

(** The cells of column [c] are all present. *)
Definition name_cells_present (c : string) (d : DataFrame) : Prop :=
  ∀ col, columns d !! c = Some col → Forall (λ x, isna x = false) col.

End Columns.
End Loaded.

(** ** The properties the design document states *)

Module Design.
Import Pandas App.

Section Properties.
Variable parse_numeric : string → option Qc.
Variable repr_num : Qc → string.

(** The retirement words of the [IsDNF] rule. *)
Definition DNF_TOKENS : list string := ["ret"; "dnf"; "dsq"; "dns"; "dnc"].

(** [tok] occurs in [s]. *)
Definition occurs_in (tok s : string) : Prop :=
  ∃ pre suf, s = pre +:+ tok +:+ suf.

(** The text of a cell: a string is its own text, a number is printed, a
    missing value reads [nan]. *)
Definition cell_text (c : cell) : string :=
  match c with
  | NA => "nan"
  | Num q => repr_num q
  | Str s => s
  | Bool true => "True"
  | Bool false => "False"
  end.

(** A capital letter in lower case; any other character is left as it
    is. *)
Definition lower_letter (c : ascii) : ascii :=
  match c with
  | "A" => "a" | "B" => "b" | "C" => "c" | "D" => "d" | "E" => "e"
  | "F" => "f" | "G" => "g" | "H" => "h" | "I" => "i" | "J" => "j"
  | "K" => "k" | "L" => "l" | "M" => "m" | "N" => "n" | "O" => "o"
  | "P" => "p" | "Q" => "q" | "R" => "r" | "S" => "s" | "T" => "t"
  | "U" => "u" | "V" => "v" | "W" => "w" | "X" => "x" | "Y" => "y"
  | "Z" => "z"
  | _ => c
  end%char.

Fixpoint lowercased (s : string) : string :=
  match s with
  | EmptyString => EmptyString
  | String c s' => String (lower_letter c) (lowercased s')
  end.

(** The status text of a row, lowercased, names a retirement. *)
Definition retired_text (status : cell) : Prop :=
  ∃ tok, tok ∈ DNF_TOKENS ∧ occurs_in tok (lowercased (cell_text status)).

(** [IsDNF] row by row: with a status column in the file, the position is
    missing or the status names a retirement; without one, the position is
    missing. *)
Definition IsDNF_rule (raw df : DataFrame) : Prop :=
  ∃ pos dnf,
    columns df !! "Pos_num" = Some pos
    ∧ columns df !! "IsDNF" = Some dnf
    ∧ length pos = nrows df ∧ length dnf = nrows df
    ∧ (∀ status, columns raw !! "Time/Retired" = Some status →
         ∀ i p t, pos !! i = Some p → status !! i = Some t →
           ∃ b, dnf !! i = Some (Bool b)
                ∧ (b = true ↔ p = NA ∨ retired_text t))
    ∧ (columns raw !! "Time/Retired" = None →
         ∀ i p, pos !! i = Some p →
           ∃ b, dnf !! i = Some (Bool b) ∧ (b = true ↔ p = NA))
    ∧ (∀ i, pos !! i = Some NA → dnf !! i = Some (Bool true)).




(** [DriverNumber_clean] has a value in every row as soon as the file has
    one of the two columns, and is missing when it has neither. *)
Definition DriverNumber_always_populated (raw df : DataFrame) : Prop :=
  ∃ clean,
    columns df !! "DriverNumber_clean" = Some clean
    ∧ (is_Some (columns raw !! "DriverNumber")
       ∨ is_Some (columns raw !! "DriverNumber.1") →
       ∀ i c, clean !! i = Some c → notna c = true)
    ∧ (columns raw !! "DriverNumber" = None →
       columns raw !! "DriverNumber.1" = None →
       ∀ i c, clean !! i = Some c → c = NA).

(** [DriverNumber_clean] has a value in a row exactly when one of the two
    columns of the file has a value in that row, and is missing when the
    file has neither column. *)
Definition DriverNumber_populated_where_known (raw df : DataFrame) : Prop :=
  ∃ clean,
    columns df !! "DriverNumber_clean" = Some clean
    ∧ (∀ i c, clean !! i = Some c →
         notna c = true ↔
         (∃ a x, columns raw !! "DriverNumber" = Some a
                 ∧ a !! i = Some x ∧ notna x = true)
         ∨ (∃ b y, columns raw !! "DriverNumber.1" = Some b
                   ∧ b !! i = Some y ∧ notna y = true))
    ∧ (columns raw !! "DriverNumber" = None →
       columns raw !! "DriverNumber.1" = None →
       ∀ i c, clean !! i = Some c → c = NA).

(** [Points] is a number in every row: the number of the file, or zero
    where the file has no value or a text that is not a number. *)
Definition Points_never_missing (raw df : DataFrame) : Prop :=
  ∃ src pts,
    columns raw !! "Points" = Some src
    ∧ columns df !! "Points" = Some pts
    ∧ length pts = length src
    ∧ ∀ i c, src !! i = Some c →
        ∃ q, pts !! i = Some (Num q)
          ∧ (c = NA → q = 0)
          ∧ (∀ s, c = Str s → parse_numeric s = None → q = 0)
          ∧ (∀ s x, c = Str s → parse_numeric s = Some x → q = x)
          ∧ (∀ x, c = Num x → q = x).

(** The white space of Unicode, by code point: the characters that
    Python's [str.isspace] accepts. *)
Definition WHITE_SPACE : list N :=
  [9; 10; 11; 12; 13; 28; 29; 30; 31; 32; 133; 160; 5760;
   8192; 8193; 8194; 8195; 8196; 8197; 8198; 8199; 8200; 8201; 8202;
   8232; 8233; 8239; 8287; 12288]%N.

(** The UTF-8 encoding of a code point below U+10000. *)
Definition utf8 (n : N) : string :=
  if (n <? 128)%N then String (ascii_of_N n) EmptyString
  else if (n <? 2048)%N then
    String (ascii_of_N (192 + n / 64))
      (String (ascii_of_N (128 + n mod 64)) EmptyString)
  else
    String (ascii_of_N (224 + n / 4096))
      (String (ascii_of_N (128 + (n / 64) mod 64))
         (String (ascii_of_N (128 + n mod 64)) EmptyString)).

(** A white-space character. *)
Definition white (w : string) : Prop := ∃ n, n ∈ WHITE_SPACE ∧ w = utf8 n.

(** A string of white space only. *)
Inductive blank : string → Prop :=
  | blank_nil : blank EmptyString
  | blank_cons w s : white w → blank s → blank (w +:+ s).

(** A string with no white space at either end. *)
Definition trimmed (s : string) : Prop :=
  ∀ w, white w → (∀ t, s ≠ w +:+ t) ∧ (∀ t, s ≠ t +:+ w).

(** [s] is [text] without the white space around it. *)
Definition trimmed_text_of (text s : string) : Prop :=
  trimmed s ∧ ∃ l r, blank l ∧ blank r ∧ text = l +:+ s +:+ r.

(** The name column [c] has no missing value: every cell is the trimmed
    text of the cell of the file, [nan] for a missing one. *)
Definition name_never_missing (c : string) (raw df : DataFrame) : Prop :=
  ∀ col, columns df !! c = Some col →
    ∃ src,
      columns raw !! c = Some src
      ∧ length col = length src
      ∧ (∀ i x, src !! i = Some x →
           ∃ s, col !! i = Some (Str s) ∧ trimmed_text_of (cell_text x) s)
      ∧ (∀ i, src !! i = Some NA → col !! i = Some (Str "nan"))
      ∧ Forall (λ x, isna x = false) col.

(** The name column [c] on a version of pandas: every cell that has a value
    in the file is its trimmed text; a missing cell is the text [nan] on
    pandas 2 and stays missing on pandas 3. *)
Definition name_converted (ver : version) (c : string) (raw df : DataFrame)
    : Prop :=
  ∀ col, columns df !! c = Some col →
    ∃ src,
      columns raw !! c = Some src
      ∧ length col = length src
      ∧ (∀ i x, src !! i = Some x → x ≠ NA →
           ∃ s, col !! i = Some (Str s) ∧ trimmed_text_of (cell_text x) s)
      ∧ (∀ i, src !! i = Some NA →
           col !! i = Some (match ver with
                            | Pandas2 => Str "nan"
                            | Pandas3 => NA
                            end)).

(** No row of the file lacks a driver or a team. *)
Definition names_present (raw : DataFrame) : Prop :=
  ∀ c col, c = "Driver" ∨ c = "Constructor" →
    columns raw !! c = Some col → Forall (λ x, isna x = false) col.

(** The group-by on the name column [c] of a filtered table drops no
    row. *)
Definition groupby_keeps_rows (c : string) (dff : DataFrame) : Prop :=
  ∀ k v, columns dff !! c = Some k → columns dff !! "Points" = Some v →
    dropna_keys (zip ((λ x, [x]) <$> k) v) = zip ((λ x, [x]) <$> k) v.

(** The mask a filter statement computes from a column, all rows when the
    column is absent. *)
Definition all_rows (df : DataFrame) : list bool := replicate (nrows df) true.

Definition column_mask (df : DataFrame) (c : string) (f : cell → bool)
    : list bool :=
  match columns df !! c with
  | Some s => f <$> s
  | None => all_rows df
  end.

(** The row predicate of each filter, as a mask over the base table. *)
Definition predicate_mask (sel : selection) (df : DataFrame) (p : predicate)
    : list bool :=
  match p with
  | BySeason =>
      if nonempty (sel_seasons sel)
      then column_mask df "Season" (λ c, bool_decide (c ∈ sel_seasons sel))
      else all_rows df
  | ByRace =>
      if nonempty (sel_races sel)
      then column_mask df "RaceNumber" (λ c, bool_decide (c ∈ sel_races sel))
      else all_rows df
  | ByTeam =>
      if nonempty (sel_teams sel)
      then column_mask df "Constructor"
             (λ c, bool_decide (c ∈ sel_teams sel))
      else all_rows df
  | ByDriver =>
      if nonempty (sel_drivers sel)
      then column_mask df "Driver" (λ c, bool_decide (c ∈ sel_drivers sel))
      else all_rows df
  | ByDnf =>
      if include_dnfs sel then all_rows df
      else column_mask df "IsDNF" cell_not
  | ByPoints =>
      if only_points sel then column_mask df "Points" cell_gt0
      else all_rows df
  end.

(** The conjunction of the six row predicates. *)
Definition conjunction_mask (sel : selection) (df : DataFrame) : list bool :=
  foldr (zip_with andb) (all_rows df)
        (predicate_mask sel df <$> all_predicates).

(** The filters give the same table in every order, and the table of the
    program is the base table restricted to the conjunction of the
    predicates. *)
Definition filters_commute (sel : selection) (df : DataFrame) : Prop :=
  (∀ order1 order2, order1 ≡ₚ order2 →
     apply_in_order sel order1 df = apply_in_order sel order2 df)
  ∧ (∀ order, order ≡ₚ all_predicates →
       apply_in_order sel order df = dff df sel)
  ∧ dff df sel = Ok (mask_rows df (conjunction_mask sel df)).


(** [out] is the top [n] of a ranking of [rows]: one entry per key without
    NaN, each with the sum of the values of its rows, in descending order
    of the sums. *)
Definition top_ranking (n : nat) (rows : list (key * cell))
    (out : list (key * Qc)) : Prop :=
  ∃ full,
    out = take n full
    ∧ Sorted (λ a b : key * Qc, b.2 ≤ a.2) full
    ∧ NoDup full.*1
    ∧ (∀ k, k ∈ full.*1 ↔ k ∈ rows.*1 ∧ key_has_na k = false)
    ∧ (∀ k t, (k, t) ∈ full → t = series_sum (group_rows rows k)).

(** [by_driver] is the top 20 of the ranking of the drivers by points. *)
Definition by_driver_ranks (dff : DataFrame) : Prop :=
  ∃ drivers points out,
    columns dff !! "Driver" = Some drivers
    ∧ columns dff !! "Points" = Some points
    ∧ by_driver dff = Ok out
    ∧ top_ranking 20 (zip ((λ x, [x]) <$> drivers) points) out.

(** The first row of a column that holds [x]. *)
Definition first_row (x : cell) (col : Series) : option nat :=
  fst <$> list_find (λ y, y = x) col.

(** Drivers with equal sums appear in the ranking in the order of their
    first rows in the table. *)
Definition ties_in_encounter_order (drivers : Series)
    (out : list (key * Qc)) : Prop :=
  ∀ i j a b t ra rb,
    (i < j)%nat → out !! i = Some ([a], t) → out !! j = Some ([b], t) →
    first_row a drivers = Some ra → first_row b drivers = Some rb →
    (ra < rb)%nat.

(** [by_driver] as the design document has it: the ranking, with ties in
    encounter order. *)
Definition by_driver_ranks_stably (dff : DataFrame) : Prop :=
  ∃ drivers points out,
    columns dff !! "Driver" = Some drivers
    ∧ columns dff !! "Points" = Some points
    ∧ by_driver dff = Ok out
    ∧ top_ranking 20 (zip ((λ x, [x]) <$> drivers) points) out
    ∧ ties_in_encounter_order drivers out.



(** The whole number a cell holds. *)
Definition whole_number (c : cell) : option Z :=
  match c with
  | Num q => if decide (Qden q = 1%positive) then Some (Qnum q) else None
  | _ => None
  end.

(** A column of whole numbers whose absolute values add up to at most
    [2^53]. Its sums are exact in int64 and in float64, whatever rows are
    added and in whatever order. *)
Definition exact_column (s : Series) : Prop :=
  ∃ zs : list Z,
    mapM whole_number s = Some zs
    ∧ (foldr (λ z acc, Z.abs z + acc) 0 zs ≤ 2 ^ 53)%Z.


(** No cell of the file is a boolean. *)
Definition is_boolean (c : cell) : bool :=
  match c with Bool _ => true | _ => false end.

Definition no_booleans (raw : DataFrame) : Prop :=
  map_Forall (λ _ (s : Series), Forall (λ c, is_boolean c = false) s)
             (columns raw).

End Properties.
End Design.

(** ** Sample data *)

Module Samples.
Import Pandas App.

(** A reader and a printer of unsigned decimal integers, to run the program
    on the samples. *)
Fixpoint digits_value (acc : Z) (s : string) : option Z :=
  match s with
  | EmptyString => Some acc
  | String c s' =>
      match Ascii.is_nat c with
      | Some d => digits_value (10 * acc + Z.of_nat d) s'
      | None => None
      end
  end.

Definition parse_digits (s : string) : option Qc :=
  match s with
  | EmptyString => None
  | _ => Qc_of_Z <$> digits_value 0 s
  end.

Definition show_int (q : Qc) : string := pretty (Qnum q).

Definition int (z : Z) : cell := Num (Qc_of_Z z).

(** Four results of the first two races of 2021. *)
Definition race_csv : DataFrame :=
  mkDataFrame 4 (list_to_map [
    ("Season", [int 2021; int 2021; int 2021; int 2021]);
    ("RaceNumber", [int 1; int 1; int 2; int 2]);
    ("Driver",
       [Str "Hamilton "; Str "Verstappen"; Str "Hamilton"; Str "Verstappen"]);
    ("Constructor",
       [Str "Mercedes"; Str "Red Bull"; Str "Mercedes"; Str "Red Bull"]);
    ("DriverNumber", [NA; int 33; int 44; int 33]);
    ("DriverNumber.1", [int 44; int 33; NA; int 33]);
    ("Position", [Str "1"; Str "2"; Str "NC"; Str "1"]);
    ("Grid", [int 2; int 1; int 1; int 3]);
    ("Points", [Str "25"; Str "18"; NA; Str "25+1"]);
    ("Time/Retired",
       [Str "1:32:03.897"; Str "+0.745"; Str "Retired"; Str "1:30:00.000"]) ]).

Definition no_filter : selection := mkSelection [] [] [] [] true false.

(** A file with one of the two driver-number columns, empty in its row. *)
Definition one_number_csv : DataFrame :=
  mkDataFrame 1 (list_to_map [
    ("Driver", [Str "Hamilton"]);
    ("DriverNumber", [NA]);
    ("Points", [int 25]) ]).

(** A selection that uses every filter. *)
Definition mercedes_2021 : selection :=
  mkSelection [int 2021] [int 1; int 2] [Str "Mercedes"] [Str "Hamilton"]
              false true.

(** Two drivers with the same points, the second in alphabetical order
    first in the file. *)
Definition tie_csv : DataFrame :=
  mkDataFrame 2 (list_to_map [
    ("Season", [int 2021; int 2021]);
    ("RaceNumber", [int 1; int 1]);
    ("Driver", [Str "Verstappen"; Str "Hamilton"]);
    ("Points", [int 25; int 25]) ]).


(** Two results of one race, the second without the name of the driver. *)
Definition unnamed_csv : DataFrame :=
  mkDataFrame 2 (list_to_map [
    ("Season", [int 2021; int 2021]);
    ("RaceNumber", [int 1; int 1]);
    ("Driver", [Str " Hamilton"; NA]);
    ("Constructor", [Str "Mercedes"; Str "Red Bull"]);
    ("Points", [int 25; int 18]) ]).

(** A driver who scores 18 points and then none. *)
Definition two_races_csv : DataFrame :=
  mkDataFrame 2 (list_to_map [
    ("Season", [int 2021; int 2021]);
    ("RaceNumber", [int 1; int 2]);
    ("Driver", [Str "A"; Str "A"]);
    ("Points", [int 18; int 0]) ]).

(** A file without a [Points] column. *)
Definition no_points_csv : DataFrame :=
  mkDataFrame 1 (list_to_map [
    ("Season", [int 2021]);
    ("RaceNumber", [int 1]);
    ("Driver", [Str "A"]) ]).

Definition finishers_only : selection := mkSelection [] [] [] [] false false.

(** One column of the base table of a file. *)
Definition loaded_column (raw : DataFrame) (c : string) : result Series :=
  df ←! load_csv parse_digits show_int raw;
  getitem df c.

(** One column of the filtered view of a file. *)
Definition filtered_column (raw : DataFrame) (sel : selection) (c : string)
    : result Series :=
  d ←! filtered parse_digits show_int raw sel;
  getitem d c.

End Samples.

(** ** The rest of the script: widgets, indicators and chart tables *)

From Stdlib Require Import DecimalString.
From Stdlib Require DecimalZ.

Module Dashboard.
Import Pandas App.

(** *** More pandas and Python operations *)

(** [Series.dropna()] *)
Definition dropna (s : Series) : Series := filter (λ c, isna c = false) s.

(** [Series.unique()] and [DataFrame.drop_duplicates()]: the values in the
    order of their first appearance. NaN is a value like another. *)
Fixpoint unique {A} `{EqDecision A} (l : list A) : list A :=
  match l with
  | [] => []
  | x :: l' => x :: filter (λ y, y ≠ x) (unique l')
  end.

(** [Series.nunique()]: NaN is not counted. *)
Definition nunique (s : Series) : nat := length (unique (dropna s)).

(** Python orders numbers with numbers and strings with strings; a
    comparison across the two raises [TypeError]. *)
Definition same_kind (a b : cell) : bool :=
  match a, b with
  | Num _, Num _ | Str _, Str _ | Bool _, Bool _ => true
  | _, _ => false
  end.

Definition one_kind (l : list cell) : bool :=
  match l with
  | [] => true
  | x :: l' => forallb (same_kind x) l'
  end.

(** What the script can raise beside the exceptions of [load_csv]. *)
Inductive failure :=
  | Raised (e : exn)
  | TypeError.

Inductive outcome (A : Type) :=
  | Done (a : A)
  | Failed (f : failure).
Arguments Done {A} a.
Arguments Failed {A} f.

Definition lift {A} (r : result A) : outcome A :=
  match r with
  | Ok a => Done a
  | Raise e => Failed (Raised e)
  end.

Definition obind {A B} (r : outcome A) (k : A → outcome B) : outcome B :=
  match r with
  | Done a => k a
  | Failed f => Failed f
  end.

Notation "x ←? r ; k" := (obind r (λ x, k))
  (at level 20, r at level 100, k at level 200, right associativity,
   format "x  ←?  r ;  '/' k").

(** [sorted(l)] on a list without NaN. *)
Definition py_sorted (l : list cell) : outcome (list cell) :=
  if one_kind l then Done (stable_sort cell_leb l) else Failed TypeError.

(** [max(l)] on a list of one kind: the first of the largest elements;
    the script calls it on a list that is not empty. *)
Definition cell_ltb (a b : cell) : bool := negb (cell_leb b a).

Definition py_max (l : list cell) : option cell :=
  match l with
  | [] => None
  | x :: l' => Some (foldl (λ m y, if cell_ltb m y then y else m) x l')
  end.

(** [int(x)] on a number: truncation towards zero. *)
Definition py_int (q : Qc) : Z := Z.quot (Qnum q) (Z.pos (Qden q)).

(** [df[subset]] for a list of names. *)
Fixpoint getitems (d : DataFrame) (subset : list string)
    : result (list Series) :=
  match subset with
  | [] => Ok []
  | c :: subset' =>
      s ←! getitem d c;
      rest ←! getitems d subset';
      Ok (s :: rest)
  end.

(** The rows in which every one of the columns has a value. *)
Definition notna_mask (n : nat) (cols : list Series) : list bool :=
  foldr (λ s m, zip_with andb (notna <$> s) m) (replicate n true) cols.

(** [d.dropna(subset=[...])] *)
Definition dropna_subset (d : DataFrame) (subset : list string)
    : result DataFrame :=
  cols ←! getitems d subset;
  Ok (mask_rows d (notna_mask (nrows d) cols)).

(** The names of the columns [load_csv] computes. *)
Definition DERIVED : gset string :=
  {[ "DriverNumber_clean"; "Pos_num"; "Grid_num"; "Points"; "IsDNF";
     "PosGain" ]}.

(** A cell of a float column. *)
Definition float_cell (c : cell) : Prop := c = NA ∨ ∃ q, c = Num q.

(** *** The widgets (lines 158-169) *)

(** [sorted(df[c].dropna().unique().tolist())] *)
Definition column_options (s : Series) : outcome (list cell) :=
  py_sorted (unique (dropna s)).

Record options := mkOptions {
  opt_seasons : list cell;
  opt_races : list cell;
  opt_teams : list cell;
  opt_drivers : list cell
}.

(** [seasons], [races], [teams] and [drivers] (lines 158-161). *)
Definition sidebar_options (df : DataFrame) : outcome options :=
  s ←? lift (getitem df "Season");
  seasons ←? column_options s;
  r ←? lift (getitem df "RaceNumber");
  races ←? column_options r;
  teams ←? (if has_column df "Constructor" then
              c ←? lift (getitem df "Constructor");
              column_options c
            else Done []);
  drivers ←? (if has_column df "Driver" then
                c ←? lift (getitem df "Driver");
                column_options c
              else Done []);
  Done (mkOptions seasons races teams drivers).

(** The values the widgets start with (lines 164-169). *)
Definition default_selection (o : options) : selection :=
  mkSelection
    (if nonempty (opt_seasons o) then
       match py_max (opt_seasons o) with
       | Some m => [m]
       | None => opt_seasons o
       end
     else opt_seasons o)
    (opt_races o)
    (opt_teams o)
    (if (10 <? length (opt_drivers o))%nat then take 10 (opt_drivers o)
     else opt_drivers o)
    true
    false.

(** *** The indicators (lines 181-185) *)

(** [kpi_events = dff[["Season", "RaceNumber"]].drop_duplicates().shape[0]] *)
Definition kpi_events (d : DataFrame) : result nat :=
  s ←! getitem d "Season";
  r ←! getitem d "RaceNumber";
  Ok (length (unique (zip s r))).

(** [dff[c].nunique() if c in dff.columns else np.nan]; [None] is NaN. *)
Definition kpi_nunique (c : string) (d : DataFrame) : option nat :=
  if has_column d c then nunique <$> columns d !! c else None.

Definition kpi_drivers : DataFrame → option nat := kpi_nunique "Driver".
Definition kpi_teams : DataFrame → option nat := kpi_nunique "Constructor".

(** [kpi_dnfs = int(dff["IsDNF"].sum())] *)
Definition kpi_dnfs (d : DataFrame) : result Z :=
  s ←! getitem d "IsDNF";
  Ok (py_int (series_sum s)).

(** *** The chart tables *)

(** [scat = dff.dropna(subset=["Grid_num", "Pos_num"])] (line 217) *)
Definition scat (d : DataFrame) : result DataFrame :=
  dropna_subset d ["Grid_num"; "Pos_num"].

(** [tmp = dff.dropna(subset=["PosGain"])] (line 240) *)
Definition posgain_rows (d : DataFrame) : result DataFrame :=
  dropna_subset d ["PosGain"].

(** The test of line 290, negated: the pit-stop charts are drawn. *)
Definition pitstops_shown (d : DataFrame) : bool :=
  has_column d "NPitstops" && has_column d "MedianPitStopDuration".

(** [tmp2 = dff.dropna(subset=["MedianPitStopDuration"])] (line 302) *)
Definition pitstop_durations (d : DataFrame) : result DataFrame :=
  dropna_subset d ["MedianPitStopDuration"].

(** [tmp3 = dff.dropna(subset=["NPitstops", "MedianPitStopDuration"])]
    (line 311) *)
Definition pitstop_pairs (d : DataFrame) : result DataFrame :=
  dropna_subset d ["NPitstops"; "MedianPitStopDuration"].

(** A row of [driver_points] as the second group-by reads it: its key
    [(Season, Driver)] and its points. *)
Definition season_driver_row (r : standing) : key * Qc :=
  ([st_Season r; st_Driver r], st_Points r).





(** The driver of a group of [groupby("Driver")]. *)
Definition key_cell (k : key) : cell :=
  match k with
  | [x] => x
  | _ => NA
  end.

(** [driver_points.groupby("Driver")["Points"].sum()] *)
Definition driver_totals (dp : list standing) : list (key * Qc) :=
  groupby_sum ((λ r, ([st_Driver r], Num (st_Points r))) <$> dp).

(** [top_drivers] (lines 276-278): the index of the eight largest sums. *)
Definition top_drivers (dp : list standing) : list cell :=
  key_cell <$> (take 8 (sort_values_desc snd (driver_totals dp))).*1.

(** [dp = driver_points[driver_points["Driver"].isin(top_drivers)]]
    (line 279) *)
Definition top_standings (dp : list standing) : list standing :=
  filter (λ r, st_Driver r ∈ top_drivers dp) dp.

(** *** The script in the order it runs *)

Section Script.
Variable parse_numeric : string → option Qc.
Variable repr_num : Qc → string.

(** From the CSV frame to the filtered view (lines 155-177): the base
    table, the options of the widgets with their calls of [sorted], and
    the filters. *)
Definition script_view (raw : DataFrame) (sel : selection)
    : outcome DataFrame :=
  df ←? lift (load_csv parse_numeric repr_num raw);
  _ ←? sidebar_options df;
  lift (dff df sel).

(** From the filtered view to the standings (lines 181-274): the
    indicators that can raise, the tables of the overview tab and
    [driver_points]. *)
Definition view_standings (d : DataFrame) : result (list standing) :=
  _ ←! kpi_events d;
  _ ←! kpi_points d;
  _ ←! kpi_dnfs d;
  _ ←! by_driver d;
  _ ←! scat d;
  _ ←! posgain_rows d;
  _ ←! by_team d;
  driver_points parse_numeric d.


End Script.

(** *** The texts of the indicators (lines 74-84) *)

(** [s.replace(a, b)] for two characters. *)
Fixpoint str_replace_char (a b : ascii) (s : string) : string :=
  match s with
  | EmptyString => EmptyString
  | String c s' =>
      String (if Ascii.eqb c a then b else c) (str_replace_char a b s')
  end.

(** [s.replace(a, "")] and [a in s] for a character. *)
Fixpoint str_remove_char (a : ascii) (s : string) : string :=
  match s with
  | EmptyString => EmptyString
  | String c s' =>
      if Ascii.eqb c a then str_remove_char a s'
      else String c (str_remove_char a s')
  end.

Fixpoint str_in (a : ascii) (s : string) : bool :=
  match s with
  | EmptyString => false
  | String c s' => Ascii.eqb c a || str_in a s'
  end.

(** [str(n)] of an integer. *)
Definition py_str_int (n : Z) : string :=
  NilZero.string_of_int (Z.to_int n).

(** The [,] option of the format language: a comma between the groups of
    three digits, counted from the right. [group_thousands] works on the
    digits in reverse. *)
Fixpoint group_thousands (s : string) : string :=
  match s with
  | String a (String b (String c (String d _ as rest))) =>
      String a (String b (String c (String "," (group_thousands rest))))
  | _ => s
  end.

Definition grouped (d : Decimal.uint) : string :=
  String.rev (group_thousands (String.rev (NilZero.string_of_uint d))).

(** [f"{n:,}"] for an integer. *)
Definition format_thousands (n : Z) : string :=
  match Z.to_int n with
  | Decimal.Pos d => grouped d
  | Decimal.Neg d => String "-" (grouped d)
  end.

(** [nice_int] (lines 74-77) on what the script passes to it: an integer,
    or NaN ([None]) for the indicator of an absent column. [int(x)] does
    not raise on an integer, so the [except] branch is not taken. *)
Definition nice_int (x : option Z) : string :=
  match x with
  | None => "—"
  | Some n => str_replace_char "," "." (format_thousands n)
  end.

(** Rounding of [num / den] to the nearest integer, a tie going to the
    even one, as the [f] format rounds. *)
Definition round_half_even (num : Z) (den : positive) : Z :=
  let f := (num / Z.pos den)%Z in
  let r := (num mod Z.pos den)%Z in
  match (2 * r ?= Z.pos den)%Z with
  | Lt => f
  | Gt => (f + 1)%Z
  | Eq => if Z.even f then f else (f + 1)%Z
  end.

Fixpoint zeros (n : nat) (s : string) : string :=
  match n with
  | O => s
  | S n' => String "0" (zeros n' s)
  end.

(** [f"{x:,.{digits}f}"] for a number: the sign, the grouped integer part
    and [digits] decimals. *)
Definition format_fixed (q : Qc) (digits : nat) : string :=
  let p := (10 ^ Z.of_nat digits)%Z in
  let m := Z.abs (round_half_even (Qnum q * p) (Qden q)) in
  let frac := NilZero.string_of_uint (N.to_uint (Z.to_N (m mod p))) in
  (if Qc_ltb q 0 then "-" else EmptyString)
  +:+ grouped (N.to_uint (Z.to_N (m / p)))
  +:+ match digits with
      | O => EmptyString
      | _ => String "." (zeros (digits - String.length frac) frac)
      end.

(** [nice_float] (lines 79-84) on a number or NaN ([None]); [float(x)]
    does not raise on a number. *)
Definition nice_float (x : option Qc) (digits : nat) : string :=
  match x with
  | None => "—"
  | Some q =>
      str_replace_char "X" "."
        (str_replace_char "." ","
           (str_replace_char "," "X" (format_fixed q digits)))
  end.

End Dashboard.

(** ** More sample data *)

Module DashboardSamples.
Import Pandas App Samples Dashboard.

(** Three results with pit-stop data, one row without a count and one
    without a duration. *)
Definition pit_csv : DataFrame :=
  mkDataFrame 3 (list_to_map [
    ("Season", [int 2022; int 2022; int 2022]);
    ("RaceNumber", [int 1; int 1; int 1]);
    ("Driver", [Str "Leclerc"; Str "Sainz"; Str "Perez"]);
    ("Constructor", [Str "Ferrari"; Str "Ferrari"; Str "Red Bull"]);
    ("Points", [int 26; int 18; int 12]);
    ("NPitstops", [int 3; NA; int 2]);
    ("MedianPitStopDuration", [int 24; int 25; NA]) ]).

(** The season filter alone. *)
Definition season_2021 : selection :=
  mkSelection [int 2021] [] [] [] true false.

(** A season that is not in the sample files. *)
Definition season_1999 : selection :=
  mkSelection [int 1999] [] [] [] true false.

(** A [Season] column with a missing value. *)
Definition season_column : Series := [int 2021; NA; int 2020; int 2021].

(** The widgets on the base table of a file. *)
Definition loaded_options (raw : DataFrame) : outcome options :=
  df ←? lift (load_csv parse_digits show_int raw);
  sidebar_options df.

End DashboardSamples.

(** ** The float64 arithmetic of pandas

    A column of numbers with a missing value or a decimal point is a
    float64 column. The operations below are the IEEE 754 operations of
    binary64, rounding to nearest with ties to even; they are here for the
    inputs on which the numbers of the program differ from the exact
    rationals of the model. *)

Module Float64.
Import Pandas.

Definition float64 : Type := spec_float.

Definition prec : Z := 53.
Definition emax : Z := 1024.

Definition zero : float64 := S754_zero false.
Definition inf : float64 := S754_infinity false.
Definition nan : float64 := S754_nan.


Definition add : float64 → float64 → float64 := SFadd prec emax.
Definition sub : float64 → float64 → float64 := SFsub prec emax.


(** [Series.isna()] on a float64 cell. *)
Definition isna (x : float64) : bool :=
  match x with S754_nan => true | _ => false end.


(** [a - b] on float64 columns (line 127). *)
Definition series_sub (a b : list float64) : list float64 :=
  zip_with sub a b.

(** [Series.sum()] on a float64 column without NaN is NumPy's pairwise
    sum: fewer than eight numbers are added one after the other; up to 128
    numbers in eight interleaved partial sums, then the numbers after the
    last full block of eight; a longer array by halves. The sum starts
    from zero. *)
Fixpoint add_blocks (fuel : nat) (r l : list float64)
    : list float64 * list float64 :=
  match fuel with
  | O => (r, l)
  | S fuel' =>
      if (8 <=? length l)%nat
      then add_blocks fuel' (zip_with add r (take 8 l)) (drop 8 l)
      else (r, l)
  end.

Definition sum_unrolled (l : list float64) : float64 :=
  let '(r, rest) := add_blocks (length l) (take 8 l) (drop 8 l) in
  match r with
  | [r0; r1; r2; r3; r4; r5; r6; r7] =>
      foldl add
        (add (add (add r0 r1) (add r2 r3)) (add (add r4 r5) (add r6 r7)))
        rest
  | _ => zero
  end.

Fixpoint pairwise_sum (fuel : nat) (l : list float64) : float64 :=
  let n := length l in
  if (n <? 8)%nat then foldl add zero l
  else if (n <=? 128)%nat then sum_unrolled l
  else
    match fuel with
    | O => zero
    | S fuel' =>
        let n2 := (n / 2 - (n / 2) mod 8)%nat in
        add (pairwise_sum fuel' (take n2 l)) (pairwise_sum fuel' (drop n2 l))
    end.

Definition np_sum (l : list float64) : float64 :=
  add zero (pairwise_sum (length l) l).

(** The sum of a group in [groupby(...).sum()]: pandas adds the values of
    the group in row order with Kahan's compensation, skipping NaN. *)
Definition kahan_step (st : float64 * float64) (val : float64)
    : float64 * float64 :=
  let y := sub val st.2 in
  let t := add st.1 y in
  let c := sub (sub t st.1) y in
  (t, if isna c then zero else c).

Definition group_sum (l : list float64) : float64 :=
  (foldl kahan_step (zero, zero)
     (filter (λ x, isna x = false) l)).1.

(** [dff.groupby(c, as_index=False)["Points"].sum()] on a float64
    [Points] column (lines 203-204). *)
Definition points_by (keys : Series) (points : list float64)
    : list (key * float64) :=
  let rows := zip ((λ x, [x]) <$> keys) points in
  (λ k, (k, group_sum (group_rows rows k))) <$> group_keys rows.

(** [kpi_points = dff["Points"].sum()] (line 184); [Points] has no NaN. *)
Definition kpi_points (points : list float64) : float64 := np_sum points.


End Float64.

(** ** The int64 arithmetic of pandas

    A column of whole numbers without a missing value is an int64 column;
    its sums wrap around. *)

Module Int64.

Definition wrap (z : Z) : Z := ((z + 2 ^ 63) mod 2 ^ 64 - 2 ^ 63)%Z.

Definition add (a b : Z) : Z := wrap (a + b).



End Int64.

(** ** Facts about the pandas operations *)

Module PandasFacts.
Import Pandas Design.

Lemma bind_Ok {A B} (r : result A) (k : A → result B) (b : B) :
  bind r k = Ok b ↔ ∃ a, r = Ok a ∧ k a = Ok b.
Proof.
  destruct r as [a|e]; simpl; split.
  - eauto.
  - by intros (a' & [= <-] & ?).
  - done.
  - by intros (a' & ? & ?).
Qed.

Lemma has_column_true df c s :
  columns df !! c = Some s → has_column df c = true.
Proof.
  intros H. unfold has_column. rewrite H. by apply bool_decide_eq_true.
Qed.

Lemma has_column_false df c :
  columns df !! c = None → has_column df c = false.
Proof.
  intros H. unfold has_column. rewrite H.
  apply bool_decide_eq_false. by intros [? ?].
Qed.

Lemma getitem_Some df c s : columns df !! c = Some s → getitem df c = Ok s.
Proof. intros H. unfold getitem. by rewrite H. Qed.

Lemma setitem_fmap df c (f : cell → cell) s :
  columns df !! c = Some s →
  setitem df c (f <$> s)
  = mkDataFrame (nrows df) (alter (fmap f) c (columns df)).
Proof.
  intros H. unfold setitem. f_equal. apply map_eq. intros j.
  destruct (decide (c = j)) as [<-|Hne].
  - by rewrite lookup_insert_eq, lookup_alter_eq, H.
  - by rewrite lookup_insert_ne, lookup_alter_ne.
Qed.

Lemma alter_absent (f : Series → Series) (m : gmap string Series) c :
  m !! c = None → alter f c m = m.
Proof.
  intros H. apply map_eq. intros j. destruct (decide (c = j)) as [<-|Hne].
  - by rewrite lookup_alter_eq, H.
  - by rewrite lookup_alter_ne.
Qed.

(** *** Strings *)

Lemma append_cons c s1 s2 : String c s1 +:+ s2 = String c (s1 +:+ s2).
Proof. reflexivity. Qed.

Lemma append_nil_l s : EmptyString +:+ s = s.
Proof. reflexivity. Qed.

Lemma append_nil_r s : s +:+ EmptyString = s.
Proof. induction s as [|c s IH]; [done|]. by rewrite append_cons, IH. Qed.

Lemma append_assoc s1 s2 s3 : (s1 +:+ s2) +:+ s3 = s1 +:+ (s2 +:+ s3).
Proof.
  induction s1 as [|c s1 IH]; [done|]. by rewrite !append_cons, IH.
Qed.

Lemma length_append s1 s2 :
  String.length (s1 +:+ s2) = (String.length s1 + String.length s2)%nat.
Proof.
  induction s1 as [|c s1 IH]; [done|].
  rewrite append_cons. simpl. by rewrite IH.
Qed.

Lemma prefix_spec a s : String.prefix a s = true ↔ ∃ suf, s = a +:+ suf.
Proof.
  revert s. induction a as [|c a IH]; intros s.
  - split; [|by destruct s]. intros _. by exists s.
  - destruct s as [|b s]; simpl.
    + split; [done|]. by intros [suf ?].
    + destruct (ascii_dec c b) as [->|Hne].
      * rewrite IH. split; intros [suf Hs]; exists suf.
        -- by rewrite append_cons, <-Hs.
        -- rewrite append_cons in Hs. congruence.
      * split; [done|]. intros [suf Hs]. rewrite append_cons in Hs. congruence.
Qed.

Lemma existsb_elem_of {A} (f : A → bool) l :
  existsb f l = true ↔ ∃ x, x ∈ l ∧ f x = true.
Proof.
  rewrite existsb_exists. by setoid_rewrite list_elem_of_In.
Qed.

Lemma re_search_alt_nil alts :
  re_search_alt alts EmptyString
  = existsb (λ a, String.prefix a EmptyString) alts || false.
Proof. reflexivity. Qed.

Lemma re_search_alt_cons alts c s :
  re_search_alt alts (String c s)
  = existsb (λ a, String.prefix a (String c s)) alts || re_search_alt alts s.
Proof. reflexivity. Qed.

(** [re.search] with an alternation of words finds a match exactly when one
    of the words occurs in the text. *)
Lemma re_search_alt_spec alts s :
  re_search_alt alts s = true ↔ ∃ a, a ∈ alts ∧ occurs_in a s.
Proof.
  split.
  - induction s as [|c s IH].
    + rewrite re_search_alt_nil, orb_true_iff.
      intros [(a & Ha & Hp)%existsb_elem_of|?]; [|done].
      exists a. split; [done|]. apply prefix_spec in Hp as [suf Hs].
      by exists EmptyString, suf.
    + rewrite re_search_alt_cons, orb_true_iff.
      intros [(a & Ha & Hp)%existsb_elem_of|Hs].
      * exists a. split; [done|]. apply prefix_spec in Hp as [suf Hs].
        by exists EmptyString, suf.
      * destruct (IH Hs) as (a & Ha & pre & suf & ->).
        exists a. split; [done|]. by exists (String c pre), suf.
  - intros (a & Ha & pre & suf & ->).
    induction pre as [|c pre IH].
    + rewrite append_nil_l.
      assert (existsb (λ a0, String.prefix a0 (a +:+ suf)) alts = true) as He.
      { apply existsb_elem_of. exists a. split; [done|].
        apply prefix_spec. by exists suf. }
      destruct (a +:+ suf).
      * by rewrite re_search_alt_nil, He.
      * by rewrite re_search_alt_cons, He.
    + rewrite append_cons, re_search_alt_cons, IH. apply orb_true_r.
Qed.

Lemma str_contains_dnf s :
  str_contains App.DNF_PATTERN s = true
  ↔ ∃ tok, tok ∈ DNF_TOKENS ∧ occurs_in tok s.
Proof. apply re_search_alt_spec. Qed.

Lemma rev_app_append s1 s2 :
  String.rev_app s1 s2 = String.rev s1 +:+ s2.
Proof.
  unfold String.rev. revert s2.
  induction s1 as [|c s1 IH]; intros s2; simpl; [done|].
  rewrite (IH (String c s2)), (IH (String c EmptyString)).
  by rewrite append_assoc.
Qed.

Lemma rev_cons c s :
  String.rev (String c s) = String.rev s +:+ String c EmptyString.
Proof. unfold String.rev at 1. simpl. apply rev_app_append. Qed.

Lemma rev_append s1 s2 :
  String.rev (s1 +:+ s2) = String.rev s2 +:+ String.rev s1.
Proof.
  induction s1 as [|c s1 IH].
  - by rewrite append_nil_l, append_nil_r.
  - by rewrite append_cons, !rev_cons, IH, append_assoc.
Qed.

Lemma rev_involutive s : String.rev (String.rev s) = s.
Proof.
  induction s as [|c s IH]; [done|].
  by rewrite rev_cons, rev_append, IH.
Qed.

(** [str.lower] puts the capital letters in lower case. *)
Lemma ascii_lower_letter c : ascii_lower c = lower_letter c.
Proof. destruct c as [[] [] [] [] [] [] [] []]; reflexivity. Qed.

Lemma str_lower_lowercased s : str_lower s = lowercased s.
Proof.
  induction s as [|c s IH]; [done|]. simpl.
  by rewrite ascii_lower_letter, IH.
Qed.

(** *** White space *)

Lemma ascii_of_N_eq a n : N_of_ascii a = n → a = ascii_of_N n.
Proof. intros <-. by rewrite ascii_N_embedding. Qed.

Lemma white_utf8 n :
  bool_decide (n ∈ WHITE_SPACE) = true → white (utf8 n).
Proof. intros H%bool_decide_eq_true. by exists n. Qed.

Lemma blank_white w : white w → blank w.
Proof.
  intros Hw. rewrite <-(append_nil_r w). by constructor; [|constructor].
Qed.

Lemma blank_append s1 s2 : blank s1 → blank s2 → blank (s1 +:+ s2).
Proof.
  induction 1 as [|w s Hw _ IH]; intros Hs2; [done|].
  rewrite append_assoc. constructor; [done|by apply IH].
Qed.

(** The strings that [strip_front] takes for white space, in the order of
    the bytes it is given: [sp w] holds of the white-space characters, or
    of their reverses. *)
Section StripFront.
Context (two : ascii → ascii → bool) (three : ascii → ascii → ascii → bool).
Context (sp : string → Prop).
Hypothesis sp_one :
  ∀ a, py_isspace a = true → sp (String a EmptyString).
Hypothesis sp_two :
  ∀ a b, two a b = true → sp (String a (String b EmptyString)).
Hypothesis sp_three :
  ∀ a b c, three a b c = true →
    sp (String a (String b (String c EmptyString))).
Hypothesis sp_stripped :
  ∀ w t, sp w → strip_front two three (w +:+ t) = strip_front two three t.

Inductive chain : string → Prop :=
  | chain_nil : chain EmptyString
  | chain_cons w s : sp w → chain s → chain (w +:+ s).

(** What [strip_front] does to a string, by the length of the string. *)
Lemma strip_front_cases n s :
  (String.length s ≤ n)%nat →
  (∃ l, chain l ∧ s = l +:+ strip_front two three s)
  ∧ strip_front two three (strip_front two three s) = strip_front two three s.
Proof.
  revert s. induction n as [|n IH]; intros s Hn.
  { destruct s; [|simpl in Hn; lia]. split; [|done].
    exists EmptyString. split; [constructor|done]. }
  destruct s as [|a s1]; [split; [exists EmptyString; split; [constructor|done]|done]|].
  simpl in Hn. simpl.
  destruct (py_isspace a) eqn:Ha.
  { destruct (IH s1 ltac:(lia)) as [(l & Hl & Heq) Hid]. split; [|done].
    exists (String a EmptyString +:+ l). split.
    - constructor; [by apply sp_one|done].
    - by rewrite Heq at 1. }
  destruct s1 as [|b s2].
  { split; [exists EmptyString; split; [constructor|done]|].
    simpl. by rewrite Ha. }
  simpl in Hn.
  destruct (two a b) eqn:Hab.
  { destruct (IH s2 ltac:(lia)) as [(l & Hl & Heq) Hid]. split; [|done].
    exists (String a (String b EmptyString) +:+ l). split.
    - constructor; [by apply sp_two|done].
    - by rewrite Heq at 1. }
  destruct s2 as [|c s3].
  { split; [exists EmptyString; split; [constructor|done]|].
    simpl. by rewrite Ha, Hab. }
  simpl in Hn.
  destruct (three a b c) eqn:Habc.
  { destruct (IH s3 ltac:(lia)) as [(l & Hl & Heq) Hid]. split; [|done].
    exists (String a (String b (String c EmptyString)) +:+ l). split.
    - constructor; [by apply sp_three|done].
    - by rewrite Heq at 1. }
  split; [exists EmptyString; split; [constructor|done]|].
  simpl. by rewrite Ha, Hab, Habc.
Qed.

Lemma strip_front_split s :
  ∃ l, chain l ∧ s = l +:+ strip_front two three s.
Proof. by apply (strip_front_cases (String.length s)). Qed.

Lemma strip_front_idem s :
  strip_front two three (strip_front two three s) = strip_front two three s.
Proof. by apply (strip_front_cases (String.length s)). Qed.

Lemma strip_front_length s :
  (String.length (strip_front two three s) ≤ String.length s)%nat.
Proof.
  destruct (strip_front_split s) as (l & _ & Heq).
  rewrite Heq at 2. rewrite length_append. lia.
Qed.

(** What is left starts with no white space. *)
Lemma strip_front_no_space s w t :
  sp w → w ≠ EmptyString → strip_front two three s ≠ w +:+ t.
Proof.
  intros Hw Hne Heq.
  assert (Hid := strip_front_idem s). rewrite Heq, (sp_stripped _ _ Hw) in Hid.
  assert (Hlen := strip_front_length t). rewrite Hid, length_append in Hlen.
  destruct w; [done|]. simpl in Hlen. lia.
Qed.

End StripFront.

(** The white-space characters, one by one. *)
Lemma white_cases w :
  white w →
  Exists (λ n, w = utf8 n) WHITE_SPACE.
Proof. intros (n & Hn & ->). apply Exists_exists. eauto. Qed.

Ltac each_white H :=
  apply white_cases in H; unfold WHITE_SPACE in H;
  repeat (apply Exists_cons in H as [->|H]);
  [..|by apply Exists_nil in H].

Lemma white_nonempty w : white w → w ≠ EmptyString.
Proof. intros H. each_white H; done. Qed.

Lemma white_one a :
  py_isspace a = true → white (String a EmptyString).
Proof.
  destruct a as [[] [] [] [] [] [] [] []]; try done; intros _;
    match goal with
    | |- white (String ?a _) =>
        exists (N_of_ascii a); split;
          [apply (bool_decide_unpack _); vm_compute; exact I|reflexivity]
    end.
Qed.

Lemma white_two a b :
  py_isspace2 a b = true → white (String a (String b EmptyString)).
Proof.
  unfold py_isspace2.
  intros [Ha%N.eqb_eq%ascii_of_N_eq Hb]%andb_true_iff. subst a.
  apply orb_true_iff in Hb as [Hb%N.eqb_eq%ascii_of_N_eq
                              |Hb%N.eqb_eq%ascii_of_N_eq]; subst b.
  - by apply (white_utf8 133).
  - by apply (white_utf8 160).
Qed.

Lemma white_three a b c :
  py_isspace3 a b c = true →
  white (String a (String b (String c EmptyString))).
Proof.
  unfold py_isspace3. intros H.
  assert (∃ n, bool_decide (n ∈ WHITE_SPACE) = true
               ∧ String a (String b (String c EmptyString)) = utf8 n)
    as (n & Hn & ->); [|by apply white_utf8].
  repeat (apply orb_true_iff in H as [H|H]);
    repeat (apply andb_true_iff in H as [H ?]);
    repeat match goal with
           | H : (N_of_ascii _ =? _)%N = true |- _ =>
               apply N.eqb_eq, ascii_of_N_eq in H
           end; subst.
  - by exists 5760%N.
  - destruct c as [[] [] [] [] [] [] [] []]; try done;
      match goal with
      | |- context [String ?c EmptyString] =>
          exists (8064 + N_of_ascii c)%N
      end; split; vm_compute; reflexivity.
  - by exists 8287%N.
  - by exists 12288%N.
Qed.

Lemma white_stripped w t :
  white w → str_lstrip (w +:+ t) = str_lstrip t.
Proof. intros H. each_white H; reflexivity. Qed.

Lemma white_rev_stripped w t :
  white (String.rev w) →
  strip_front (λ b a, py_isspace2 a b) (λ c b a, py_isspace3 a b c)
    (w +:+ t)
  = strip_front (λ b a, py_isspace2 a b) (λ c b a, py_isspace3 a b c) t.
Proof.
  intros H. rewrite <-(rev_involutive w). each_white H; reflexivity.
Qed.

Lemma chain_white_blank l : chain white l → blank l.
Proof. induction 1; by constructor. Qed.

Lemma chain_rev_blank l :
  chain (λ w, white (String.rev w)) l → blank (String.rev l).
Proof.
  induction 1 as [|w s Hw _ IH]; [constructor|].
  rewrite rev_append. apply blank_append; [done|by apply blank_white].
Qed.

(** [str.strip] takes the white space off both ends and nothing else. *)
Lemma str_strip_trimmed s : trimmed_text_of s (str_strip s).
Proof.
  unfold str_strip.
  set (rstrip := strip_front (λ b a, py_isspace2 a b)
                   (λ c b a, py_isspace3 a b c)).
  destruct (strip_front_split py_isspace2 py_isspace3 white
              white_one white_two white_three s) as (l & Hl & Hs).
  fold (str_lstrip s) in Hs.
  destruct (strip_front_split (λ b a, py_isspace2 a b)
              (λ c b a, py_isspace3 a b c) (λ w, white (String.rev w))
              white_one (λ a b, white_two b a) (λ a b c, white_three c b a)
              (String.rev (str_lstrip s))) as (l' & Hl' & Hr).
  fold rstrip in Hr.
  assert (str_lstrip s
          = String.rev (rstrip (String.rev (str_lstrip s)))
            +:+ String.rev l') as Hu.
  { rewrite <-rev_append, <-Hr. by rewrite rev_involutive. }
  split.
  - intros w Hw. split; intros t Ht.
    + eapply (strip_front_no_space py_isspace2 py_isspace3 white
                white_one white_two white_three white_stripped s w
                (t +:+ String.rev l') Hw (white_nonempty w Hw)).
      fold (str_lstrip s). by rewrite Hu, Ht, append_assoc.
    + eapply (strip_front_no_space (λ b a, py_isspace2 a b)
                (λ c b a, py_isspace3 a b c) (λ w, white (String.rev w))
                white_one (λ a b, white_two b a) (λ a b c, white_three c b a)
                white_rev_stripped
                (String.rev (str_lstrip s)) (String.rev w) (String.rev t)).
      * by rewrite rev_involutive.
      * intros Hnil. apply (white_nonempty w Hw).
        by rewrite <-(rev_involutive w), Hnil.
      * fold rstrip. rewrite <-rev_append, <-Ht. by rewrite rev_involutive.
  - exists l, (String.rev l'). split; [by apply chain_white_blank|].
    split; [by apply chain_rev_blank|]. by rewrite <-Hu.
Qed.

End PandasFacts.

Module LoadFacts.
Import Pandas App Loaded Design PandasFacts.

Section Load.
Variable parse_numeric : string → option Qc.
Variable repr_num : Qc → string.

Lemma resolve_driver_number_eq df :
  resolve_driver_number df
  = Ok (setitem df "DriverNumber_clean" (DriverNumber_clean df)).
Proof.
  unfold resolve_driver_number, DriverNumber_clean.
  destruct (columns df !! "DriverNumber") as [a|] eqn:Ha;
    destruct (columns df !! "DriverNumber.1") as [b|] eqn:Hb;
    repeat first
      [ rewrite (has_column_true _ _ _ Ha) | rewrite (has_column_true _ _ _ Hb)
      | rewrite (has_column_false _ _ Ha) | rewrite (has_column_false _ _ Hb)
      | rewrite (getitem_Some _ _ _ Ha) | rewrite (getitem_Some _ _ _ Hb) ];
    reflexivity.
Qed.

Lemma convert_if_present df c :
  (if has_column df c then
     s ←! getitem df c;
     Ok (setitem_value df c (to_numeric parse_numeric (Some s)))
   else Ok df)
  = Ok (mkDataFrame (nrows df)
          (alter (fmap (to_numeric_cell parse_numeric)) c (columns df))).
Proof.
  destruct (columns df !! c) as [s|] eqn:Hs.
  - rewrite (has_column_true _ _ _ Hs), (getitem_Some _ _ _ Hs). simpl.
    by rewrite (setitem_fmap _ _ _ _ Hs).
  - rewrite (has_column_false _ _ Hs), alter_absent by done. by destruct df.
Qed.

Lemma pos_num_eq df :
  match pos_col df with
  | Some c =>
      s ←! getitem df c;
      Ok (setitem_value df "Pos_num" (to_numeric parse_numeric (Some s)))
  | None => Ok (setitem_value df "Pos_num" (VScalar NA))
  end = Ok (setitem df "Pos_num" (Pos_num parse_numeric df)).
Proof.
  unfold pos_col, Pos_num, position_source.
  destruct (columns df !! "Position") as [a|] eqn:Ha.
  { by rewrite (has_column_true _ _ _ Ha), (getitem_Some _ _ _ Ha). }
  rewrite (has_column_false _ _ Ha).
  destruct (columns df !! "Pos.") as [b|] eqn:Hb.
  { by rewrite (has_column_true _ _ _ Hb), (getitem_Some _ _ _ Hb). }
  by rewrite (has_column_false _ _ Hb).
Qed.

Lemma numeric_conversions_eq df :
  numeric_conversions parse_numeric df
  = match columns df !! "Points" with
    | Some pts =>
        Ok (mkDataFrame (nrows df)
          (alter (fmap (to_numeric_cell parse_numeric)) "MedianPitStopDuration"
          (alter (fmap (to_numeric_cell parse_numeric)) "NPitstops"
          (<["Points" := Points parse_numeric pts]>
          (<["Grid_num" := Grid_num parse_numeric df]>
          (<["Pos_num" := Pos_num parse_numeric df]> (columns df)))))))
    | None => Raise (AttributeError "fillna")
    end.
Proof.
  unfold numeric_conversions. rewrite pos_num_eq. cbn [bind].
  unfold get. cbn [setitem setitem_value columns nrows].
  lookup_other.
  assert (setitem_value (setitem df "Pos_num" (Pos_num parse_numeric df))
            "Grid_num" (to_numeric parse_numeric (columns df !! "Grid"))
          = mkDataFrame (nrows df)
              (<["Grid_num" := Grid_num parse_numeric df]>
               (<["Pos_num" := Pos_num parse_numeric df]> (columns df)))) as ->.
  { unfold Grid_num, numeric_or_nan. by destruct (columns df !! "Grid"). }
  cbn [setitem setitem_value columns nrows]. lookup_other.
  destruct (columns df !! "Points") as [pts|]; [|done].
  cbn [to_numeric fillna0 bind].
  rewrite convert_if_present. cbn [bind].
  rewrite convert_if_present. cbn [columns nrows setitem].
  unfold Points. by rewrite <-list_fmap_compose.
Qed.

Lemma dnf_heuristic_eq df p :
  columns df !! "Pos_num" = Some p →
  dnf_heuristic repr_num df
  = Ok (setitem df "IsDNF"
      match columns df !! "Time/Retired" with
      | Some s =>
          Bool <$> series_or (isna <$> p)
            ((λ c, str_contains DNF_PATTERN (status_text repr_num c)) <$> s)
      | None => Bool <$> (isna <$> p)
      end).
Proof.
  intros Hp. unfold dnf_heuristic.
  destruct (columns df !! "Time/Retired") as [s|] eqn:Hs.
  - rewrite (has_column_true _ _ _ Hs), (getitem_Some _ _ _ Hs).
    cbn [bind]. rewrite (getitem_Some _ _ _ Hp). cbn [bind].
    by rewrite <-list_fmap_compose.
  - by rewrite (has_column_false _ _ Hs), (getitem_Some _ _ _ Hp).
Qed.

Lemma strip_column_eq df c :
  strip_column repr_num df c
  = Ok (mkDataFrame (nrows df)
          (alter (fmap (stripped repr_num)) c (columns df))).
Proof.
  unfold strip_column.
  destruct (columns df !! c) as [s|] eqn:Hs.
  - rewrite (has_column_true _ _ _ Hs), (getitem_Some _ _ _ Hs). simpl.
    by rewrite (setitem_fmap _ _ _ _ Hs).
  - rewrite (has_column_false _ _ Hs), alter_absent by done. by destruct df.
Qed.

(** [load_csv] raises exactly when the CSV file has no [Points] column, and
    otherwise returns the base table. *)
Lemma load_csv_eq raw :
  load_csv parse_numeric repr_num raw
  = match columns raw !! "Points" with
    | Some pts => Ok (base_table parse_numeric repr_num raw pts)
    | None => Raise (AttributeError "fillna")
    end.
Proof.
  unfold load_csv. rewrite resolve_driver_number_eq. cbn [bind].
  rewrite numeric_conversions_eq. cbn [setitem columns nrows].
  lookup_other.
  destruct (columns raw !! "Points") as [pts|]; [|done]. cbn [bind].
  erewrite dnf_heuristic_eq; [|cbn [columns]; by lookup_other].
  cbn [bind setitem columns nrows]. lookup_other.
  unfold pos_gain.
  erewrite getitem_Some; [|cbn [setitem columns]; by lookup_other]. cbn [bind].
  erewrite getitem_Some; [|cbn [setitem columns]; by lookup_other]. cbn [bind].
  rewrite strip_column_eq. cbn [bind]. rewrite strip_column_eq.
  unfold base_table, base_columns. cbn [setitem columns nrows].
  unfold IsDNF, PosGain, Pos_num, Grid_num, position_source, numeric_or_nan.
  cbn [setitem columns nrows]. lookup_other. done.
Qed.

Lemma strip_column_on_eq ver df c :
  strip_column_on repr_num ver df c
  = Ok (mkDataFrame (nrows df)
          (alter (fmap (strip_cell_on repr_num ver)) c (columns df))).
Proof.
  unfold strip_column_on.
  destruct (columns df !! c) as [s|] eqn:Hs.
  - rewrite (has_column_true _ _ _ Hs), (getitem_Some _ _ _ Hs). simpl.
    by rewrite (setitem_fmap _ _ _ _ Hs).
  - rewrite (has_column_false _ _ Hs), alter_absent by done. by destruct df.
Qed.

Lemma load_csv_on_eq ver raw :
  load_csv_on parse_numeric repr_num ver raw
  = match columns raw !! "Points" with
    | Some pts => Ok (base_table_on parse_numeric repr_num ver raw pts)
    | None => Raise (AttributeError "fillna")
    end.
Proof.
  unfold load_csv_on. rewrite resolve_driver_number_eq. cbn [bind].
  rewrite numeric_conversions_eq. cbn [setitem columns nrows].
  lookup_other.
  destruct (columns raw !! "Points") as [pts|]; [|done]. cbn [bind].
  erewrite dnf_heuristic_eq; [|cbn [columns]; by lookup_other].
  cbn [bind setitem columns nrows]. lookup_other.
  unfold pos_gain.
  erewrite getitem_Some; [|cbn [setitem columns]; by lookup_other]. cbn [bind].
  erewrite getitem_Some; [|cbn [setitem columns]; by lookup_other]. cbn [bind].
  rewrite strip_column_on_eq. cbn [bind]. rewrite strip_column_on_eq.
  unfold base_table_on. cbn [setitem columns nrows].
  unfold IsDNF, PosGain, Pos_num, Grid_num, position_source, numeric_or_nan.
  cbn [setitem columns nrows]. lookup_other. done.
Qed.

Lemma strip_cell_on_present ver x :
  isna x = false → strip_cell_on repr_num ver x = stripped repr_num x.
Proof. by destruct ver, x. Qed.

Lemma strip_cell_on_Pandas2 x :
  strip_cell_on repr_num Pandas2 x = stripped repr_num x.
Proof. by destruct x. Qed.

Lemma alter_fmap_ext (f g : cell → cell) c (m : gmap string Series) :
  (∀ col, m !! c = Some col → Forall (λ x, f x = g x) col) →
  alter (fmap f) c m = alter (fmap g) c m.
Proof.
  intros H. apply map_eq. intros j. destruct (decide (c = j)) as [<-|Hne].
  - rewrite !lookup_alter_eq. destruct (m !! c) as [col|] eqn:Hc; [|done].
    simpl. f_equal. apply list_fmap_ext.
    intros i x Hx. by apply (proj1 (Forall_lookup _ _) (H col eq_refl) i x).
  - by rewrite !lookup_alter_ne.
Qed.

(** pandas 2 is the version of [load_csv]. *)
Lemma load_csv_on_Pandas2 raw :
  load_csv_on parse_numeric repr_num Pandas2 raw
  = load_csv parse_numeric repr_num raw.
Proof.
  rewrite load_csv_on_eq, load_csv_eq.
  by destruct (columns raw !! "Points") as [pts|].
Qed.

(** On a file in which no row lacks a name the versions give the same
    table. *)
Lemma load_csv_on_present ver raw :
  names_present raw →
  load_csv_on parse_numeric repr_num ver raw
  = load_csv parse_numeric repr_num raw.
Proof.
  intros Hna. rewrite load_csv_on_eq, load_csv_eq.
  destruct (columns raw !! "Points") as [pts|]; [|done]. f_equal.
  unfold base_table_on, base_table, base_columns. f_equal.
  rewrite (alter_fmap_ext (strip_cell_on repr_num ver)
             (stripped repr_num) "Constructor").
  2:{ intros col. rewrite lookup_alter_ne by done. lookup_other.
      intros Hc. eapply Forall_impl; [apply (Hna _ _ (or_intror eq_refl) Hc)|].
      intros x. apply strip_cell_on_present. }
  f_equal. apply alter_fmap_ext.
  intros col. lookup_other.
  intros Hc. eapply Forall_impl; [apply (Hna _ _ (or_introl eq_refl) Hc)|].
  intros x. apply strip_cell_on_present.
Qed.

Lemma filtered_on_present ver raw sel :
  names_present raw →
  filtered_on parse_numeric repr_num ver raw sel
  = filtered parse_numeric repr_num raw sel.
Proof.
  intros Hna. unfold filtered_on, filtered. by rewrite load_csv_on_present.
Qed.

(** *** The base table is well formed *)

Lemma wf_insert n (m : gmap string Series) c s :
  map_Forall (λ _ (s : Series), length s = n) m → length s = n →
  map_Forall (λ _ (s : Series), length s = n) (<[c := s]> m).
Proof. intros Hm Hs. by apply map_Forall_insert_2. Qed.

Lemma wf_alter n (m : gmap string Series) c (f : Series → Series) :
  (∀ s, length (f s) = length s) →
  map_Forall (λ _ (s : Series), length s = n) m →
  map_Forall (λ _ (s : Series), length s = n) (alter f c m).
Proof.
  intros Hf Hm j s. destruct (decide (c = j)) as [<-|Hne].
  - rewrite lookup_alter_eq. destruct (m !! c) as [s0|] eqn:Hs0; [|done].
    intros [= <-]. rewrite Hf. by apply (Hm c).
  - rewrite lookup_alter_ne by done. apply Hm.
Qed.

Lemma wf_lookup df c s :
  wf df → columns df !! c = Some s → length s = nrows df.
Proof. intros Hwf Hs. by apply (Hwf c). Qed.

Lemma numeric_or_nan_length raw src :
  (∀ s, src = Some s → length s = nrows raw) →
  length (numeric_or_nan parse_numeric raw src) = nrows raw.
Proof.
  intros Hsrc. unfold numeric_or_nan. destruct src as [s|].
  - rewrite length_fmap. by apply Hsrc.
  - apply length_replicate.
Qed.

Lemma Pos_num_length raw :
  wf raw → length (Pos_num parse_numeric raw) = nrows raw.
Proof.
  intros Hwf. apply numeric_or_nan_length. intros s. unfold position_source.
  destruct (columns raw !! "Position") as [s0|] eqn:Hs0.
  - intros [= <-]. by eapply wf_lookup.
  - intros Hs. by eapply wf_lookup.
Qed.

Lemma Grid_num_length raw :
  wf raw → length (Grid_num parse_numeric raw) = nrows raw.
Proof.
  intros Hwf. apply numeric_or_nan_length. intros s Hs. by eapply wf_lookup.
Qed.

Lemma DriverNumber_clean_length raw :
  wf raw → length (DriverNumber_clean raw) = nrows raw.
Proof.
  intros Hwf. unfold DriverNumber_clean.
  destruct (columns raw !! "DriverNumber") as [a|] eqn:Ha;
    destruct (columns raw !! "DriverNumber.1") as [b|] eqn:Hb.
  - unfold np_where.
    rewrite length_zip_with, length_fmap, length_zip_with.
    rewrite (wf_lookup _ _ _ Hwf Ha), (wf_lookup _ _ _ Hwf Hb). lia.
  - by eapply wf_lookup.
  - by eapply wf_lookup.
  - apply length_replicate.
Qed.

Lemma IsDNF_length raw :
  wf raw → length (IsDNF parse_numeric repr_num raw) = nrows raw.
Proof.
  intros Hwf. unfold IsDNF.
  destruct (columns raw !! "Time/Retired") as [s|] eqn:Hs.
  - unfold series_or. rewrite length_fmap, length_zip_with, !length_fmap.
    rewrite Pos_num_length, (wf_lookup _ _ _ Hwf Hs) by done. lia.
  - rewrite !length_fmap. by apply Pos_num_length.
Qed.

Lemma PosGain_length raw :
  wf raw → length (PosGain parse_numeric raw) = nrows raw.
Proof.
  intros Hwf. unfold PosGain, series_sub.
  rewrite length_zip_with, Grid_num_length, Pos_num_length by done. lia.
Qed.

Lemma base_table_wf raw pts :
  wf raw → columns raw !! "Points" = Some pts →
  wf (base_table parse_numeric repr_num raw pts).
Proof.
  intros Hwf Hpts. unfold wf, base_table, base_columns. cbn [columns nrows].
  repeat first
    [ apply wf_alter; [intros ?; apply length_fmap|]
    | apply wf_insert ];
    first [ exact Hwf | by apply PosGain_length | by apply IsDNF_length
          | by apply Grid_num_length | by apply Pos_num_length
          | by apply DriverNumber_clean_length | idtac ].
  unfold Points. rewrite length_fmap. by eapply wf_lookup.
Qed.

Lemma base_table_on_wf ver raw pts :
  wf raw → columns raw !! "Points" = Some pts →
  wf (base_table_on parse_numeric repr_num ver raw pts).
Proof.
  intros Hwf Hpts. unfold wf, base_table_on. cbn [columns nrows].
  repeat first
    [ apply wf_alter; [intros ?; apply length_fmap|]
    | apply wf_insert ];
    first [ exact Hwf | by apply PosGain_length | by apply IsDNF_length
          | by apply Grid_num_length | by apply Pos_num_length
          | by apply DriverNumber_clean_length | idtac ].
  unfold Points. rewrite length_fmap. by eapply wf_lookup.
Qed.

End Load.
End LoadFacts.

(** ** Orders and sorting *)

Module SortFacts.
Import Pandas.

Lemma Qc_leb_le x y : Qc_leb x y = true ↔ x ≤ y.
Proof. unfold Qc_leb, Qcle. apply Qle_bool_iff. Qed.

Lemma Qc_leb_total x y : Qc_leb x y = true ∨ Qc_leb y x = true.
Proof. rewrite !Qc_leb_le. apply Qc_le_total. Qed.

Lemma Qc_ltb_lt x y : Qc_ltb x y = true ↔ x < y.
Proof.
  unfold Qc_ltb. change (Qle_bool y x) with (Qc_leb y x).
  rewrite negb_true_iff, <-not_true_iff_false, Qc_leb_le.
  symmetry. apply Qclt_nge.
Qed.

Lemma string_leb_trans s1 s2 s3 :
  String.leb s1 s2 = true → String.leb s2 s3 = true → String.leb s1 s3 = true.
Proof.
  intros H1%Is_true_true H2%Is_true_true. apply Is_true_true.
  exact (transitivity (R:=String.le) H1 H2).
Qed.

Lemma string_leb_refl s : String.leb s s = true.
Proof. apply Is_true_true. exact (reflexivity (R:=String.le) s). Qed.

(** [cell_leb] is a total order on cells. *)
Lemma cell_leb_refl a : cell_leb a a = true.
Proof.
  destruct a as [|q|s|[]]; simpl; try done.
  - by apply Qc_leb_le.
  - apply string_leb_refl.
Qed.

Lemma cell_leb_total a b : cell_leb a b = true ∨ cell_leb b a = true.
Proof.
  destruct a as [|x|s|[]], b as [|y|t|[]]; simpl; auto.
  - apply Qc_leb_total.
  - apply String.leb_total.
Qed.

Lemma cell_leb_antisym a b :
  cell_leb a b = true → cell_leb b a = true → a = b.
Proof.
  destruct a as [|x|s|[]], b as [|y|t|[]]; simpl; try done.
  - rewrite !Qc_leb_le. intros H1 H2. f_equal. by apply Qcle_antisym.
  - intros H1 H2. f_equal. by apply String.leb_antisym.
Qed.

Lemma cell_leb_trans a b c :
  cell_leb a b = true → cell_leb b c = true → cell_leb a c = true.
Proof.
  destruct a as [|x|s|[]], b as [|y|t|[]], c as [|z|u|[]]; simpl; try done.
  - rewrite !Qc_leb_le. apply Qcle_trans.
  - apply string_leb_trans.
Qed.

(** [key_leb] is a total order on keys. *)
Lemma key_leb_refl k : key_leb k k = true.
Proof. induction k as [|a k IH]; simpl; [done|]. by rewrite decide_True. Qed.

Lemma key_leb_total k1 k2 : key_leb k1 k2 = true ∨ key_leb k2 k1 = true.
Proof.
  revert k2. induction k1 as [|a k1 IH]; intros [|b k2]; simpl; auto.
  destruct (decide (a = b)) as [->|Hne].
  - rewrite decide_True by done. apply IH.
  - rewrite decide_False by done. apply cell_leb_total.
Qed.

Lemma key_leb_antisym k1 k2 :
  key_leb k1 k2 = true → key_leb k2 k1 = true → k1 = k2.
Proof.
  revert k2. induction k1 as [|a k1 IH]; intros [|b k2]; simpl; try done.
  destruct (decide (a = b)) as [->|Hne].
  - rewrite decide_True by done. intros H1 H2. f_equal. by apply IH.
  - rewrite decide_False by done. intros H1 H2.
    destruct Hne. by apply cell_leb_antisym.
Qed.

Lemma key_leb_trans k1 k2 k3 :
  key_leb k1 k2 = true → key_leb k2 k3 = true → key_leb k1 k3 = true.
Proof.
  revert k2 k3.
  induction k1 as [|a k1 IH]; intros [|b k2] [|c k3]; simpl; try done.
  destruct (decide (a = b)) as [->|Hab].
  - destruct (decide (b = c)) as [->|Hbc]; [apply IH|done].
  - destruct (decide (b = c)) as [->|Hbc].
    + by rewrite decide_False by done.
    + intros H1 H2. destruct (decide (a = c)) as [->|Hac].
      * destruct Hab. by apply cell_leb_antisym.
      * by eapply cell_leb_trans.
Qed.

(** A prefix of the keys is ordered as the keys are. *)
Lemma key_leb_take n k1 k2 :
  key_leb k1 k2 = true → key_leb (take n k1) (take n k2) = true.
Proof.
  revert k1 k2. induction n as [|n IH]; intros [|a k1] [|b k2]; simpl; try done.
  destruct (decide (a = b)); [apply IH|done].
Qed.

Section StableSort.
Context {A : Type} (leb : A → A → bool).

Local Abbreviation le := (λ x y : A, leb x y = true).

Lemma insert_by_Permutation x l : insert_by leb x l ≡ₚ x :: l.
Proof.
  induction l as [|y l IH]; simpl; [done|].
  destruct (leb x y); [done|]. by rewrite IH, Permutation_swap.
Qed.

Lemma stable_sort_Permutation l : stable_sort leb l ≡ₚ l.
Proof.
  induction l as [|x l IH]; simpl; [done|].
  by rewrite insert_by_Permutation, IH.
Qed.

Lemma length_stable_sort l : length (stable_sort leb l) = length l.
Proof. apply Permutation_length, stable_sort_Permutation. Qed.

Lemma HdRel_insert_by x y l :
  le y x → HdRel le y l → HdRel le y (insert_by leb x l).
Proof.
  intros Hyx [|z l' Hyz]; simpl; [by constructor|].
  destruct (leb x z); by constructor.
Qed.

Lemma Sorted_insert_by x l :
  (∀ a b, le a b ∨ le b a) →
  Sorted le l → Sorted le (insert_by leb x l).
Proof.
  intros Htotal. induction 1 as [|y l Hl IH Hhd]; simpl.
  { by repeat constructor. }
  destruct (leb x y) eqn:Hxy.
  - constructor; [by constructor|by constructor].
  - constructor; [done|]. apply HdRel_insert_by; [|done].
    destruct (Htotal x y) as [H|H]; [|done]. simpl in H. congruence.
Qed.

Lemma Sorted_stable_sort l :
  (∀ a b, le a b ∨ le b a) → Sorted le (stable_sort leb l).
Proof.
  intros Htotal. induction l as [|x l IH]; simpl; [constructor|].
  by apply Sorted_insert_by.
Qed.

(** A sorted list is left as it is. *)
Lemma stable_sort_sorted l : Sorted le l → stable_sort leb l = l.
Proof.
  induction 1 as [|x l Hl IH Hhd]; simpl; [done|]. rewrite IH.
  destruct Hhd as [|y l' Hxy]; simpl; [done|]. by rewrite Hxy.
Qed.

End StableSort.

(** *** Stability *)

Section Stable.
Context {A : Type} (by_ : A → Qc).

Local Abbreviation by_leb := (λ a b : A, Qc_leb (by_ a) (by_ b)).

Lemma insert_by_filter q x l :
  filter (λ y, by_ y = q) (insert_by by_leb x l)
  = filter (λ y, by_ y = q) (x :: l).
Proof.
  induction l as [|y l IH]; simpl; [done|].
  destruct (Qc_leb (by_ x) (by_ y)) eqn:Hxy; [done|].
  rewrite filter_cons, IH, !filter_cons.
  destruct (decide (by_ y = q)) as [Hy|Hy], (decide (by_ x = q)) as [Hx|Hx];
    try done.
  assert (Qc_leb (by_ x) (by_ y) = true); [|congruence].
  apply Qc_leb_le. rewrite Hx, Hy. apply Qcle_refl.
Qed.

(** Rows with equal values leave the sort in the order they entered it. *)
Lemma stable_sort_filter q l :
  filter (λ y, by_ y = q) (stable_sort by_leb l) = filter (λ y, by_ y = q) l.
Proof.
  induction l as [|x l IH]; simpl; [done|].
  by rewrite insert_by_filter, !filter_cons, IH.
Qed.

Lemma sort_values_desc_filter q l :
  filter (λ y, by_ y = q) (sort_values_desc by_ l)
  = filter (λ y, by_ y = q) l.
Proof.
  unfold sort_values_desc.
  by rewrite filter_reverse, stable_sort_filter, filter_reverse,
    reverse_involutive.
Qed.

End Stable.

(** [sort_values(ascending=False)] returns the rows in descending order. *)
Lemma sort_values_desc_Permutation {A} (by_ : A → Qc) l :
  sort_values_desc by_ l ≡ₚ l.
Proof.
  unfold sort_values_desc.
  by rewrite reverse_Permutation, stable_sort_Permutation, reverse_Permutation.
Qed.

Lemma sort_values_desc_Sorted {A} (by_ : A → Qc) l :
  Sorted (λ a b, by_ b ≤ by_ a) (sort_values_desc by_ l).
Proof.
  unfold sort_values_desc.
  assert (Hs := Sorted_stable_sort (λ a b, Qc_leb (by_ a) (by_ b))
                  (reverse l) (λ a b, Qc_leb_total (by_ a) (by_ b))).
  apply Sorted_reverse in Hs.
  apply (Sorted_fmap id _ (λ a b, by_ b ≤ by_ a)) in Hs.
  - by rewrite list_fmap_id in Hs.
  - intros x y. unfold flip. apply Qc_leb_le.
Qed.

End SortFacts.

(** ** Boolean indexing and the filters *)

Module FilterFacts.
Import Pandas App Loaded Design PandasFacts.

Lemma bool_index_nil_r {A} (m : list bool) : bool_index m ([] : list A) = [].
Proof. by destruct m. Qed.

Lemma bool_index_fmap {A B} (f : A → B) m (s : list A) :
  bool_index m (f <$> s) = f <$> bool_index m s.
Proof.
  revert s. induction m as [|b m IH]; intros [|x s]; simpl; try done.
  destruct b; simpl; by rewrite IH.
Qed.

Lemma bool_index_compose {A} m1 (m2 : list bool) (s : list A) :
  bool_index (bool_index m1 m2) (bool_index m1 s)
  = bool_index (zip_with andb m1 m2) s.
Proof.
  revert m2 s. induction m1 as [|b m1 IH]; intros [|c m2] [|x s]; simpl;
    try done.
  - by rewrite bool_index_nil_r.
  - destruct b; simpl; by rewrite IH.
Qed.

Lemma bool_index_length {A B} m (s1 : list A) (s2 : list B) :
  length s1 = length s2 → length (bool_index m s1) = length (bool_index m s2).
Proof.
  revert s1 s2. induction m as [|b m IH]; intros [|x s1] [|y s2] Hlen;
    simpl in *; try done.
  destruct b; simpl; rewrite (IH s1 s2); auto.
Qed.

Lemma bool_index_all_true {A} n (s : list A) :
  (length s ≤ n)%nat → bool_index (replicate n true) s = s.
Proof.
  revert s. induction n as [|n IH]; intros [|x s] Hlen; simpl in *; try done.
  - lia.
  - rewrite IH; [done|lia].
Qed.

Lemma units_replicate (l : list ()) : l = replicate (length l) ().
Proof. induction l as [|[] l IH]; simpl; [done|]. by rewrite <-IH. Qed.

Lemma Forall_bool_index {A} (P : A → Prop) m s :
  Forall P s → Forall P (bool_index m s).
Proof.
  intros Hs. revert m. induction Hs as [|x s Hx Hs IH]; intros [|b m]; simpl;
    try done.
  destruct b; [constructor|]; auto.
Qed.

Lemma zip_andb_comm (m1 m2 : list bool) :
  zip_with andb m1 m2 = zip_with andb m2 m1.
Proof.
  revert m2. induction m1 as [|b m1 IH]; intros [|c m2]; simpl; try done.
  by rewrite IH, andb_comm.
Qed.

Lemma zip_andb_assoc (m1 m2 m3 : list bool) :
  zip_with andb (zip_with andb m1 m2) m3
  = zip_with andb m1 (zip_with andb m2 m3).
Proof.
  revert m2 m3. induction m1 as [|b m1 IH]; intros [|c m2] [|d m3]; simpl;
    try done.
  by rewrite IH, andb_assoc.
Qed.

Lemma zip_andb_true_r n (m : list bool) :
  length m = n → zip_with andb m (replicate n true) = m.
Proof.
  intros <-. induction m as [|b m IH]; simpl; [done|].
  by rewrite IH, andb_true_r.
Qed.

Lemma conjunction_Permutation (b : list bool) l1 l2 :
  l1 ≡ₚ l2 → foldr (zip_with andb) b l1 = foldr (zip_with andb) b l2.
Proof.
  induction 1 as [|x l1 l2 _ IH|x y l|l1 l2 l3 _ IH1 _ IH2]; simpl.
  - done.
  - by rewrite IH.
  - rewrite <-!zip_andb_assoc. by rewrite (zip_andb_comm y x).
  - by rewrite IH1.
Qed.

Lemma mask_rows_lookup d m c :
  columns (mask_rows d m) !! c = bool_index m <$> columns d !! c.
Proof. unfold mask_rows. cbn [columns]. apply lookup_fmap. Qed.

Lemma mask_rows_has_column d m c :
  has_column (mask_rows d m) c = has_column d c.
Proof.
  unfold has_column. rewrite mask_rows_lookup.
  by destruct (columns d !! c).
Qed.

Lemma mask_rows_compose d m1 m2 :
  mask_rows (mask_rows d m1) (bool_index m1 m2)
  = mask_rows d (zip_with andb m1 m2).
Proof.
  unfold mask_rows. cbn [columns nrows]. f_equal.
  - rewrite <-(units_replicate (bool_index m1 (replicate (nrows d) ()))).
    by rewrite bool_index_compose.
  - rewrite <-map_fmap_compose. apply map_fmap_ext.
    intros c s _. apply bool_index_compose.
Qed.

Lemma mask_rows_all_rows d : wf d → mask_rows d (all_rows d) = d.
Proof.
  intros Hwf. destruct d as [n cols]. unfold mask_rows, all_rows.
  cbn [columns nrows] in *. f_equal.
  - rewrite bool_index_all_true; by rewrite length_replicate.
  - rewrite <-(map_fmap_id cols) at 2. apply map_fmap_ext.
    intros c s Hs. unfold id. apply bool_index_all_true.
    pose proof (Hwf c s Hs) as Hl. simpl in Hl. lia.
Qed.

Lemma mask_rows_wf d m : wf d → wf (mask_rows d m).
Proof.
  intros Hwf c s. rewrite mask_rows_lookup.
  destruct (columns d !! c) as [s0|] eqn:Hs0; [|done].
  intros [= <-]. unfold mask_rows. cbn [nrows].
  apply bool_index_length. rewrite length_replicate. by apply (Hwf c).
Qed.

(** A filter statement leaves the table as it is or keeps some of its
    rows. *)
Lemma apply_predicate_preserves (I : DataFrame → Prop) sel p d d' :
  (∀ d m, I d → I (mask_rows d m)) →
  I d → apply_predicate sel p d = Ok d' → I d'.
Proof.
  intros Hmask Hd. destruct p; simpl;
    repeat match goal with
    | |- context [if ?b then _ else _] => destruct b
    end;
    try (by intros [= <-]);
    intros (s & _ & [= <-])%bind_Ok; by apply Hmask.
Qed.

Lemma dff_preserves (I : DataFrame → Prop) sel d d' :
  (∀ d m, I d → I (mask_rows d m)) →
  I d → dff d sel = Ok d' → I d'.
Proof.
  intros Hmask Hd. unfold dff.
  intros (d1 & H1 & (d2 & H2 & (d3 & H3 & (d4 & H4 & (d5 & H5 & H6)%bind_Ok
    )%bind_Ok)%bind_Ok)%bind_Ok)%bind_Ok.
  pose proof (λ p d d', apply_predicate_preserves I sel p d d' Hmask) as Hstep.
  eauto 10.
Qed.

(** *** The filter statements on a restriction of the base table *)

Section Steps.
Variable sel : selection.
Variable d : DataFrame.
Hypothesis d_wf : wf d.

Lemma column_mask_length c f : length (column_mask d c f) = nrows d.
Proof.
  unfold column_mask, all_rows. destruct (columns d !! c) as [s|] eqn:Hs.
  - rewrite length_fmap. by apply (d_wf c).
  - apply length_replicate.
Qed.

Lemma predicate_mask_length p : length (predicate_mask sel d p) = nrows d.
Proof.
  destruct p; simpl;
    repeat match goal with |- context [if ?b then _ else _] => destruct b end;
    apply column_mask_length || apply length_replicate.
Qed.

Lemma conjunction_length ps :
  length (foldr (zip_with andb) (all_rows d) (predicate_mask sel d <$> ps))
  = nrows d.
Proof.
  induction ps as [|p ps IH].
  - apply length_replicate.
  - rewrite fmap_cons. cbn [foldr].
    rewrite length_zip_with, IH, predicate_mask_length. lia.
Qed.

(** A statement [dff = dff[f(dff[c])]] on the rows kept by [m]. *)
Lemma where_masked m c f s :
  columns d !! c = Some s →
  (s' ←! getitem (mask_rows d m) c;
   Ok (mask_rows (mask_rows d m) (f <$> s')))
  = Ok (mask_rows d (zip_with andb m (column_mask d c f))).
Proof.
  intros Hs. unfold getitem, column_mask. rewrite mask_rows_lookup, Hs.
  cbn [fmap option_fmap option_map bind].
  by rewrite <-bool_index_fmap, mask_rows_compose.
Qed.

Lemma keep_masked m :
  length m = nrows d →
  mask_rows d m = mask_rows d (zip_with andb m (all_rows d)).
Proof. intros Hm. unfold all_rows. by rewrite zip_andb_true_r. Qed.

Hypothesis has_Season : is_Some (columns d !! "Season").
Hypothesis has_RaceNumber : is_Some (columns d !! "RaceNumber").
Hypothesis has_IsDNF : is_Some (columns d !! "IsDNF").
Hypothesis has_Points : is_Some (columns d !! "Points").

Lemma apply_predicate_masked p m :
  length m = nrows d →
  apply_predicate sel p (mask_rows d m)
  = Ok (mask_rows d (zip_with andb m (predicate_mask sel d p))).
Proof.
  intros Hm. destruct p; simpl; unfold isin.
  - destruct (nonempty (sel_seasons sel)); [|by rewrite <-keep_masked].
    destruct has_Season as [s Hs]. by eapply where_masked.
  - destruct (nonempty (sel_races sel)); [|by rewrite <-keep_masked].
    destruct has_RaceNumber as [s Hs]. by eapply where_masked.
  - rewrite mask_rows_has_column.
    destruct (nonempty (sel_teams sel)); [|by rewrite <-keep_masked].
    destruct (columns d !! "Constructor") as [s|] eqn:Hs.
    + rewrite (has_column_true _ _ _ Hs). by eapply where_masked.
    + rewrite (has_column_false _ _ Hs). unfold column_mask. rewrite Hs.
      by rewrite <-keep_masked.
  - rewrite mask_rows_has_column.
    destruct (nonempty (sel_drivers sel)); [|by rewrite <-keep_masked].
    destruct (columns d !! "Driver") as [s|] eqn:Hs.
    + rewrite (has_column_true _ _ _ Hs). by eapply where_masked.
    + rewrite (has_column_false _ _ Hs). unfold column_mask. rewrite Hs.
      by rewrite <-keep_masked.
  - destruct (include_dnfs sel); [by rewrite <-keep_masked|].
    destruct has_IsDNF as [s Hs]. by eapply where_masked.
  - destruct (only_points sel); [|by rewrite <-keep_masked].
    destruct has_Points as [s Hs]. by eapply where_masked.
Qed.

Lemma apply_in_order_masked order m :
  length m = nrows d →
  apply_in_order sel order (mask_rows d m)
  = Ok (mask_rows d
         (zip_with andb m
            (foldr (zip_with andb) (all_rows d) (predicate_mask sel d <$> order)))).
Proof.
  revert m. induction order as [|p order IH]; intros m Hm.
  - simpl. by rewrite <-keep_masked.
  - rewrite fmap_cons. cbn [foldr apply_in_order].
    rewrite apply_predicate_masked by done. cbn [bind].
    rewrite IH, zip_andb_assoc; [done|].
    rewrite length_zip_with, Hm, predicate_mask_length. lia.
Qed.

(** Any sequence of filter statements restricts the table to the
    conjunction of their predicates. *)
Lemma apply_in_order_conjunction order :
  apply_in_order sel order d
  = Ok (mask_rows d
         (foldr (zip_with andb) (all_rows d) (predicate_mask sel d <$> order))).
Proof.
  rewrite <-(mask_rows_all_rows d d_wf) at 1.
  rewrite apply_in_order_masked by apply length_replicate.
  do 2 f_equal. rewrite zip_andb_comm. apply zip_andb_true_r.
  apply conjunction_length.
Qed.

Lemma dff_apply_in_order :
  dff d sel = apply_in_order sel all_predicates d.
Proof.
  unfold dff, all_predicates. simpl.
  repeat match goal with
  | |- bind ?r _ = bind ?r _ => destruct r; simpl; [|done]
  end.
  match goal with |- ?r = _ => by destruct r end.
Qed.

Lemma filters_commute_intro : filters_commute sel d.
Proof.
  split; [|split].
  - intros order1 order2 Hperm. rewrite !apply_in_order_conjunction.
    do 2 f_equal. apply conjunction_Permutation. by rewrite Hperm.
  - intros order Hperm. rewrite dff_apply_in_order.
    rewrite !apply_in_order_conjunction.
    do 2 f_equal. apply conjunction_Permutation. by rewrite Hperm.
  - rewrite dff_apply_in_order. apply apply_in_order_conjunction.
Qed.

End Steps.

End FilterFacts.

(** ** Group-by *)

Module GroupFacts.
Import Pandas SortFacts.

Lemma sumQc_cons x l : sumQc (x :: l) = x + sumQc l.
Proof. reflexivity. Qed.

Lemma sumQc_zero {A} (l : list A) : sumQc ((λ _, 0) <$> l) = 0.
Proof.
  induction l as [|x l IH]; [done|]. rewrite fmap_cons, sumQc_cons, IH. ring.
Qed.

Lemma sumQc_plus {A} (f g : A → Qc) l :
  sumQc ((λ x, f x + g x) <$> l) = sumQc (f <$> l) + sumQc (g <$> l).
Proof.
  induction l as [|x l IH]; [by apply Qc_is_canon|].
  rewrite !fmap_cons, !sumQc_cons, IH. ring.
Qed.


Lemma sumQc_Permutation l1 l2 : l1 ≡ₚ l2 → sumQc l1 = sumQc l2.
Proof.
  induction 1 as [|x l1 l2 _ IH|x y l|l1 l2 l3 _ IH1 _ IH2].
  - done.
  - by rewrite !sumQc_cons, IH.
  - rewrite !sumQc_cons. ring.
  - by rewrite IH1.
Qed.

(** The sum over distinct keys of a value carried by one key. *)
Lemma sumQc_indicator `{EqDecision K} (x : K) (v : Qc) (l : list K) :
  NoDup l →
  sumQc ((λ k, if decide (x = k) then v else 0) <$> l)
  = if decide (x ∈ l) then v else 0.
Proof.
  induction 1 as [|k l Hk _ IH]; [done|]. rewrite fmap_cons, sumQc_cons, IH.
  destruct (decide (x = k)) as [<-|Hne].
  - rewrite decide_False by done. rewrite decide_True by left. ring.
  - destruct (decide (x ∈ l)) as [Hin|Hnin].
    + rewrite decide_True by by right. ring.
    + rewrite decide_False; [ring|]. by intros [?|?]%elem_of_cons.
Qed.

Lemma filter_ext_in {A} (P Q : A → Prop)
    `{!∀ x, Decision (P x), !∀ x, Decision (Q x)} (l : list A) :
  (∀ x, x ∈ l → P x ↔ Q x) → filter P l = filter Q l.
Proof.
  induction l as [|x l IH]; intros Hext; [done|].
  rewrite !filter_cons.
  rewrite IH by (intros y Hy; apply Hext; by right).
  destruct (decide (P x)) as [HP|HP], (decide (Q x)) as [HQ|HQ]; try done.
  - destruct HQ. by apply (Hext x); [left|].
  - destruct HP. by apply (Hext x); [left|].
Qed.

Lemma filter_all {A} (P : A → Prop) `{!∀ x, Decision (P x)} (l : list A) :
  Forall P l → filter P l = l.
Proof.
  induction 1 as [|x l Hx _ IH]; [done|].
  by rewrite filter_cons_True, IH.
Qed.

Section Groups.
Context {V : Type}.
Implicit Types rows : list (key * V).

Lemma elem_of_dropna_keys rows r :
  r ∈ dropna_keys rows ↔ key_has_na r.1 = false ∧ r ∈ rows.
Proof.
  unfold dropna_keys.
  apply (list_elem_of_filter (λ r : key * V, key_has_na r.1 = false)).
Qed.

Lemma group_keys_Permutation rows :
  group_keys rows ≡ₚ remove_dups (dropna_keys rows).*1.
Proof. apply stable_sort_Permutation. Qed.

Lemma NoDup_group_keys rows : NoDup (group_keys rows).
Proof. rewrite group_keys_Permutation. apply NoDup_remove_dups. Qed.

Lemma elem_of_group_keys rows k :
  k ∈ group_keys rows ↔ k ∈ rows.*1 ∧ key_has_na k = false.
Proof.
  rewrite group_keys_Permutation, elem_of_remove_dups, !list_elem_of_fmap.
  split.
  - intros (r & -> & [Hna Hr]%elem_of_dropna_keys). split; [|done].
    by exists r.
  - intros [(r & -> & Hr) Hna]. exists r. split; [done|].
    by apply elem_of_dropna_keys.
Qed.

Lemma Sorted_group_keys rows :
  Sorted (λ k1 k2, key_leb k1 k2 = true) (group_keys rows).
Proof. apply Sorted_stable_sort. apply key_leb_total. Qed.

(** Groups come in strictly ascending key order. *)
Lemma StronglySorted_group_keys rows :
  StronglySorted (λ k1 k2, key_leb k1 k2 = true ∧ k1 ≠ k2) (group_keys rows).
Proof.
  assert (Hs : StronglySorted (λ k1 k2, key_leb k1 k2 = true) (group_keys rows)).
  { apply Sorted_StronglySorted; [|apply Sorted_group_keys].
    intros k1 k2 k3. apply key_leb_trans. }
  assert (Hn := NoDup_group_keys rows).
  induction Hs as [|k l Hl IH Hk]; [constructor|].
  apply NoDup_cons in Hn as [Hnk Hnl].
  constructor; [by apply IH|].
  apply Forall_forall. intros k' Hk'. split.
  - by apply (proj1 (Forall_forall _ _) Hk).
  - intros ->. done.
Qed.

Lemma dropna_keys_all rows :
  Forall (λ r, key_has_na r.1 = false) rows → dropna_keys rows = rows.
Proof. apply filter_all. Qed.

End Groups.

Lemma group_rows_nil {V} (k : key) : group_rows ([] : list (key * V)) k = [].
Proof. reflexivity. Qed.

Lemma group_rows_cons {V} (r : key * V) rows k :
  group_rows (r :: rows) k
  = if decide (r.1 = k) then r.2 :: group_rows rows k else group_rows rows k.
Proof.
  unfold group_rows. rewrite filter_cons. by destruct (decide (r.1 = k)).
Qed.

Lemma series_sum_cons c s : series_sum (c :: s) = cell_val c + series_sum s.
Proof. reflexivity. Qed.

(** Summing the group sums over distinct keys counts every row whose key is
    among them once. *)
Lemma sum_over_groups (rows : list (key * cell)) (l : list key) :
  NoDup l →
  sumQc ((λ k, series_sum (group_rows rows k)) <$> l)
  = series_sum (filter (λ r, r.1 ∈ l) rows).*2.
Proof.
  intros Hl. induction rows as [|r rows IH].
  - rewrite filter_nil. apply sumQc_zero.
  - rewrite filter_cons.
    transitivity
      (sumQc ((λ k, (if decide (r.1 = k) then cell_val r.2 else 0)
                    + series_sum (group_rows rows k)) <$> l)).
    { f_equal. apply list_fmap_ext. intros _ k _. rewrite group_rows_cons.
      destruct (decide (r.1 = k)); [apply series_sum_cons|ring]. }
    rewrite sumQc_plus, IH, sumQc_indicator by done.
    destruct (decide (r.1 ∈ l)); [done|ring].
Qed.

Lemma groupby_sum_keys rows : (groupby_sum rows).*1 = group_keys rows.
Proof.
  unfold groupby_sum. rewrite <-list_fmap_compose. apply list_fmap_id.
Qed.

Lemma groupby_sum_values rows :
  (groupby_sum rows).*2
  = (λ k, series_sum (group_rows rows k)) <$> group_keys rows.
Proof. unfold groupby_sum. by rewrite <-list_fmap_compose. Qed.

Lemma elem_of_groupby_sum rows k t :
  (k, t) ∈ groupby_sum rows
  ↔ k ∈ group_keys rows ∧ t = series_sum (group_rows rows k).
Proof.
  unfold groupby_sum. rewrite list_elem_of_fmap. split.
  - by intros (k' & [= -> ->] & Hk).
  - intros [Hk ->]. by exists k.
Qed.

(** The group sums add up to the sum of the rows that [groupby] keeps. *)
Lemma groupby_sum_total rows :
  sumQc (groupby_sum rows).*2 = series_sum (dropna_keys rows).*2.
Proof.
  rewrite groupby_sum_values, sum_over_groups by apply NoDup_group_keys.
  do 2 f_equal. apply filter_ext_in. intros r Hr.
  rewrite elem_of_group_keys. split; [by intros [_ ?]|].
  intros Hna. split; [|done]. by apply list_elem_of_fmap_2.
Qed.

(** *** Running sums *)

Lemma StronglySorted_lookup {A} (R : relation A) l i j x y :
  StronglySorted R l → (i < j)%nat →
  l !! i = Some x → l !! j = Some y → R x y.
Proof.
  intros Hl. revert i j.
  induction Hl as [|z l Hl IH Hz]; intros i j Hij Hi Hj; [done|].
  destruct j as [|j]; [lia|]. destruct i as [|i]; simpl in *.
  - injection Hi as ->.
    apply (proj1 (Forall_forall _ _) Hz). by eapply list_elem_of_lookup_2.
  - apply (IH i j); [lia|done..].
Qed.

Lemma group_sum_cons (r : key * Qc) seen k :
  sumQc (group_rows (r :: seen) k)
  = (if decide (r.1 = k) then r.2 else 0) + sumQc (group_rows seen k).
Proof.
  rewrite group_rows_cons. destruct (decide (r.1 = k)); [done|ring].
Qed.



Section Cumsum.
Implicit Types rows seen : list (key * Qc).

Lemma groupby_cumsum_go_cons seen k v rows :
  groupby_cumsum_go seen ((k, v) :: rows)
  = if key_has_na k then NA :: groupby_cumsum_go seen rows
    else Num (sumQc (group_rows seen k) + v)
           :: groupby_cumsum_go ((k, v) :: seen) rows.
Proof. reflexivity. Qed.

Lemma length_groupby_cumsum_go seen rows :
  length (groupby_cumsum_go seen rows) = length rows.
Proof.
  revert seen. induction rows as [|[k v] rows IH]; intros seen; [done|].
  rewrite groupby_cumsum_go_cons.
  destruct (key_has_na k); simpl; by rewrite IH.
Qed.




End Cumsum.


End GroupFacts.

(** ** The base table *)

Module LoadTheorems.
Import Pandas App Loaded Design Samples PandasFacts LoadFacts.

Section Theorems.
Variable parse_numeric : string → option Qc.
Variable repr_num : Qc → string.

Lemma load_csv_Ok raw df :
  load_csv parse_numeric repr_num raw = Ok df →
  ∃ pts, columns raw !! "Points" = Some pts
         ∧ df = base_table parse_numeric repr_num raw pts.
Proof.
  rewrite load_csv_eq. destruct (columns raw !! "Points") as [pts|]; [|done].
  intros [= <-]. eauto.
Qed.

Lemma base_DriverNumber_clean raw pts :
  columns (base_table parse_numeric repr_num raw pts) !! "DriverNumber_clean"
  = Some (DriverNumber_clean raw).
Proof. unfold base_table, base_columns. cbn [columns]. by lookup_other. Qed.

Lemma base_Pos_num raw pts :
  columns (base_table parse_numeric repr_num raw pts) !! "Pos_num"
  = Some (Pos_num parse_numeric raw).
Proof. unfold base_table, base_columns. cbn [columns]. by lookup_other. Qed.

Lemma base_Grid_num raw pts :
  columns (base_table parse_numeric repr_num raw pts) !! "Grid_num"
  = Some (Grid_num parse_numeric raw).
Proof. unfold base_table, base_columns. cbn [columns]. by lookup_other. Qed.

Lemma base_Points raw pts :
  columns (base_table parse_numeric repr_num raw pts) !! "Points"
  = Some (Points parse_numeric pts).
Proof. unfold base_table, base_columns. cbn [columns]. by lookup_other. Qed.

Lemma base_IsDNF raw pts :
  columns (base_table parse_numeric repr_num raw pts) !! "IsDNF"
  = Some (IsDNF parse_numeric repr_num raw).
Proof. unfold base_table, base_columns. cbn [columns]. by lookup_other. Qed.

Lemma base_PosGain raw pts :
  columns (base_table parse_numeric repr_num raw pts) !! "PosGain"
  = Some (PosGain parse_numeric raw).
Proof. unfold base_table, base_columns. cbn [columns]. by lookup_other. Qed.

Lemma base_stripped raw pts c :
  c = "Driver" ∨ c = "Constructor" →
  columns (base_table parse_numeric repr_num raw pts) !! c
  = fmap (stripped repr_num) <$> columns raw !! c.
Proof.
  unfold base_table, base_columns. cbn [columns].
  intros [-> | ->]; by lookup_other.
Qed.

(** The cells of a column made by [to_numeric] are numbers or NaN. *)
Lemma to_numeric_cell_cases c :
  to_numeric_cell parse_numeric c = NA
  ∨ ∃ q, to_numeric_cell parse_numeric c = Num q.
Proof.
  destruct c as [|q|s|b]; simpl; eauto.
  destruct (parse_numeric s); eauto.
Qed.

Lemma numeric_or_nan_cases raw src i c :
  numeric_or_nan parse_numeric raw src !! i = Some c → c = NA ∨ ∃ q, c = Num q.
Proof.
  unfold numeric_or_nan. destruct src as [s|].
  - rewrite list_lookup_fmap. destruct (s !! i) as [x|]; [|done].
    intros [= <-]. apply to_numeric_cell_cases.
  - intros [-> _]%lookup_replicate. by left.
Qed.

Lemma isna_true c : isna c = true ↔ c = NA.
Proof. by destruct c. Qed.

(** The status text of the program is the lowercased text of the cell. *)
Lemma status_text_lowercased c :
  status_text repr_num c = lowercased (cell_text repr_num c).
Proof.
  unfold status_text. rewrite str_lower_lowercased.
  by destruct c as [| | |[]].
Qed.

(** C1. In every row of the base table [IsDNF] holds exactly when the
    position is missing or, if the file has a status column, the lowercased
    status text contains one of the retirement words; a missing position
    always gives [IsDNF]. *)
Theorem C1_isdnf_rule raw df :
  wf raw →
  load_csv parse_numeric repr_num raw = Ok df →
  IsDNF_rule repr_num raw df.
Proof.
  intros Hwf (pts & Hpts & ->)%load_csv_Ok.
  exists (Pos_num parse_numeric raw), (IsDNF parse_numeric repr_num raw).
  rewrite base_Pos_num, base_IsDNF.
  assert (Hp := Pos_num_length parse_numeric raw Hwf). unfold IsDNF.
  destruct (columns raw !! "Time/Retired") as [st|] eqn:Hst.
  - assert (length st = nrows raw) as Hlen by by apply (Hwf "Time/Retired").
    assert (Hrow : ∀ i p t,
      Pos_num parse_numeric raw !! i = Some p → st !! i = Some t →
      (Bool <$> series_or (isna <$> Pos_num parse_numeric raw)
         ((λ c, str_contains DNF_PATTERN (status_text repr_num c)) <$> st))
        !! i
      = Some (Bool (isna p || str_contains DNF_PATTERN (status_text repr_num t)))).
    { intros i p t Hpi Hti. unfold series_or.
      rewrite list_lookup_fmap, lookup_zip_with, !list_lookup_fmap, Hpi, Hti.
      done. }
    repeat split; try done.
    + unfold series_or. rewrite length_fmap, length_zip_with, !length_fmap.
      simpl. lia.
    + intros status [= <-] i p t Hpi Hti. eexists. split; [by apply Hrow|].
      rewrite orb_true_iff, isna_true, str_contains_dnf.
      by rewrite status_text_lowercased.
    + intros i Hpi.
      destruct (lookup_lt_is_Some_2 st i) as [t Hti].
      { rewrite Hlen, <-Hp. by eapply lookup_lt_Some. }
      by rewrite (Hrow _ _ _ Hpi Hti).
  - repeat split; try done.
    + by rewrite !length_fmap.
    + intros _ i p Hpi. exists (isna p).
      rewrite !list_lookup_fmap, Hpi. split; [done|]. apply isna_true.
    + intros i Hpi. by rewrite !list_lookup_fmap, Hpi.
Qed.



(** C4, as amended. A row of [DriverNumber_clean] has a value exactly when
    one of the driver-number columns of the file has a value in that row;
    with neither column in the file, no row has a value. *)
Theorem C4_driver_number_populated raw df :
  load_csv parse_numeric repr_num raw = Ok df →
  DriverNumber_populated_where_known raw df.
Proof.
  intros (pts & Hpts & ->)%load_csv_Ok.
  exists (DriverNumber_clean raw). rewrite base_DriverNumber_clean.
  split; [done|]. unfold DriverNumber_clean.
  destruct (columns raw !! "DriverNumber") as [a|] eqn:Ha;
    destruct (columns raw !! "DriverNumber.1") as [b|] eqn:Hb; split;
    try done.
  - intros i c. unfold np_where.
    rewrite lookup_zip_with, list_lookup_fmap.
    destruct (a !! i) as [x|] eqn:Hx; [|done]. simpl.
    rewrite lookup_zip_with, Hx. simpl.
    destruct (b !! i) as [y|] eqn:Hy; [|done]. simpl. intros [= <-].
    destruct (notna x) eqn:Hnx; split.
    + intros _. left. by exists a, x.
    + done.
    + intros Hny. right. by exists b, y.
    + intros [(a' & x' & [= <-] & Hx' & Hn)|(b' & y' & [= <-] & Hy' & Hn)];
        congruence.
  - intros i c Hc. split.
    + intros Hn. left. by exists a, c.
    + intros [(a' & x' & [= <-] & Hx' & Hn)|(b' & y' & ? & _)]; congruence.
  - intros i c Hc. split.
    + intros Hn. right. by exists b, c.
    + intros [(a' & x' & ? & _)|(b' & y' & [= <-] & Hy' & Hn)]; congruence.
  - intros i c [-> _]%lookup_replicate. split; [done|].
    intros [(a' & x' & ? & _)|(b' & y' & ? & _)]; done.
  - intros _ _ i c [-> _]%lookup_replicate. done.
Qed.

(** C9. In the table that [load_csv] returns, every [Points] cell is a
    number: the number of the file where there is one, zero where the cell
    is empty or is not a number. *)
Theorem C9_points_never_missing raw df :
  load_csv parse_numeric repr_num raw = Ok df →
  Points_never_missing parse_numeric raw df.
Proof.
  intros (src & Hsrc & ->)%load_csv_Ok.
  exists src, (Points parse_numeric src). rewrite base_Points.
  repeat split; try done.
  { unfold Points. by rewrite length_fmap. }
  intros i c Hc. unfold Points. rewrite list_lookup_fmap, Hc. simpl.
  destruct c as [|q|s|b]; simpl.
  - exists 0. repeat split; done.
  - exists q. repeat split; try done. by intros x [= ->].
  - destruct (parse_numeric s) as [x|] eqn:Hs; simpl.
    + exists x. repeat split; try done; intros; simplify_eq; done.
    + exists 0. repeat split; try done; intros; simplify_eq; done.
  - eexists. repeat split; try done.
Qed.

End Theorems.

(** The sample file is well formed and loads. *)
Lemma race_csv_wf : wf race_csv.
Proof. apply (bool_decide_unpack _). vm_compute. exact I. Qed.

Lemma C1_isdnf_rule_witness :
  ∃ df, wf race_csv
        ∧ load_csv parse_digits show_int race_csv = Ok df
        ∧ IsDNF_rule show_int race_csv df.
Proof.
  eexists. split; [exact race_csv_wf|].
  assert (load_csv parse_digits show_int race_csv = Ok _) as Hload
    by (vm_compute; reflexivity).
  split; [exact Hload|].
  exact (C1_isdnf_rule parse_digits show_int _ _ race_csv_wf Hload).
Defined.




Lemma C4_driver_number_populated_witness :
  ∃ df, load_csv parse_digits show_int one_number_csv = Ok df
        ∧ DriverNumber_populated_where_known one_number_csv df.
Proof.
  eexists.
  assert (load_csv parse_digits show_int one_number_csv = Ok _) as Hload
    by (vm_compute; reflexivity).
  split; [exact Hload|].
  exact (C4_driver_number_populated parse_digits show_int _ _ Hload).
Defined.

(** C4 as the design document states it fails on a file that has the first
    driver-number column with an empty cell: the column exists and the row
    of [DriverNumber_clean] is missing. *)
Lemma C4_always_populated_counterexample :
  ∃ df, load_csv parse_digits show_int one_number_csv = Ok df
        ∧ ¬ DriverNumber_always_populated one_number_csv df.
Proof.
  eexists. split; [vm_compute; reflexivity|].
  intros (clean & Hclean & Hpop & _).
  vm_compute in Hclean. injection Hclean as <-.
  assert (notna NA = true) as Hna; [|done].
  apply (Hpop (or_introl (ex_intro _ [NA] eq_refl)) 0%nat). reflexivity.
Qed.

Lemma C9_points_never_missing_witness :
  ∃ df, load_csv parse_digits show_int race_csv = Ok df
        ∧ Points_never_missing parse_digits race_csv df.
Proof.
  eexists.
  assert (load_csv parse_digits show_int race_csv = Ok _) as Hload
    by (vm_compute; reflexivity).
  split; [exact Hload|].
  exact (C9_points_never_missing parse_digits show_int _ _ Hload).
Defined.

End LoadTheorems.

(** ** The filtered view and the rankings *)

Module FilterTheorems.
Import Pandas App Loaded Design Samples.
Import PandasFacts LoadFacts SortFacts FilterFacts GroupFacts LoadTheorems.

Section Theorems.
Variable parse_numeric : string → option Qc.
Variable repr_num : Qc → string.

Lemma base_other raw pts c :
  c ∈ ["Season"; "RaceNumber"] →
  columns (base_table parse_numeric repr_num raw pts) !! c = columns raw !! c.
Proof.
  unfold base_table, base_columns. cbn [columns].
  intros [->|[->|[]%elem_of_nil]%elem_of_cons]%elem_of_cons; by lookup_other.
Qed.

(** C7. On the base table the six filters give the same table whatever the
    order in which they are applied, and that table is the base table
    restricted to the conjunction of the six predicates. *)
Theorem C7_filters_commute raw df sel :
  wf raw →
  load_csv parse_numeric repr_num raw = Ok df →
  is_Some (columns raw !! "Season") →
  is_Some (columns raw !! "RaceNumber") →
  filters_commute sel df.
Proof.
  intros Hwf (pts & Hpts & ->)%load_csv_Ok HS HR.
  apply filters_commute_intro.
  - by apply base_table_wf.
  - rewrite base_other by set_solver. done.
  - rewrite base_other by set_solver. done.
  - rewrite base_IsDNF. eauto.
  - rewrite base_Points. eauto.
Qed.

Lemma name_cells_present_mask c d m :
  name_cells_present c d → name_cells_present c (mask_rows d m).
Proof.
  intros Hd col. rewrite mask_rows_lookup.
  destruct (columns d !! c) as [col0|] eqn:Hcol0; [|done].
  intros [= <-]. apply Forall_bool_index. by apply Hd.
Qed.


Lemma has_Points_mask d m :
  is_Some (columns d !! "Points") →
  is_Some (columns (mask_rows d m) !! "Points").
Proof. rewrite mask_rows_lookup. intros [s ->]. eauto. Qed.

Lemma filtered_Ok raw sel d :
  filtered parse_numeric repr_num raw sel = Ok d →
  ∃ pts, columns raw !! "Points" = Some pts
         ∧ dff (base_table parse_numeric repr_num raw pts) sel = Ok d.
Proof.
  unfold filtered.
  intros (df & (pts & Hpts & ->)%load_csv_Ok
          & (? & _ & (? & _ & Hd)%bind_Ok)%bind_Ok)%bind_Ok.
  eauto.
Qed.

Lemma singleton_keys_present (k : Series) (v : Series) :
  Forall (λ x, isna x = false) k →
  Forall (λ r : key * cell, key_has_na r.1 = false) (zip ((λ x, [x]) <$> k) v).
Proof.
  intros Hk. revert v. induction Hk as [|x k Hx _ IH]; intros [|y v]; simpl;
    constructor; auto.
  simpl. by rewrite Hx.
Qed.

Lemma load_csv_on_Ok ver raw df :
  load_csv_on parse_numeric repr_num ver raw = Ok df →
  ∃ pts, columns raw !! "Points" = Some pts
         ∧ df = base_table_on parse_numeric repr_num ver raw pts.
Proof.
  rewrite load_csv_on_eq. destruct (columns raw !! "Points") as [pts|]; [|done].
  intros [= <-]. eauto.
Qed.

Lemma base_on_stripped ver raw pts c :
  c = "Driver" ∨ c = "Constructor" →
  columns (base_table_on parse_numeric repr_num ver raw pts) !! c
  = fmap (strip_cell_on repr_num ver) <$> columns raw !! c.
Proof.
  unfold base_table_on. cbn [columns].
  intros [-> | ->]; by lookup_other.
Qed.

Lemma base_on_Points ver raw pts :
  columns (base_table_on parse_numeric repr_num ver raw pts) !! "Points"
  = Some (Points parse_numeric pts).
Proof. unfold base_table_on. cbn [columns]. by lookup_other. Qed.

(** What the view keeps of the base table, on either version of pandas:
    it is well formed, it has its [Points], and a name column that has no
    missing value in the file has none in the view. *)
Lemma filtered_on_view ver raw sel d :
  wf raw →
  filtered_on parse_numeric repr_num ver raw sel = Ok d →
  wf d
  ∧ is_Some (columns d !! "Points")
  ∧ ∀ c, c = "Driver" ∨ c = "Constructor" →
      name_cells_present c raw → name_cells_present c d.
Proof.
  intros Hwf. unfold filtered_on.
  intros (df & (pts & Hpts & ->)%load_csv_on_Ok
          & (? & _ & (? & _ & Hd)%bind_Ok)%bind_Ok)%bind_Ok.
  split; [|split].
  - eapply (dff_preserves wf); [apply mask_rows_wf| |done].
    by apply base_table_on_wf.
  - eapply (dff_preserves (λ d, is_Some (columns d !! "Points")));
      [apply has_Points_mask| |done].
    rewrite base_on_Points. eauto.
  - intros c Hc Hraw.
    eapply (dff_preserves (name_cells_present c));
      [apply name_cells_present_mask| |done].
    intros col. rewrite base_on_stripped by done.
    destruct (columns raw !! c) as [src|] eqn:Hsrc; [|done].
    intros [= <-]. apply Forall_fmap.
    eapply Forall_impl; [apply (Hraw src Hsrc)|].
    intros y Hy. simpl. by destruct ver, y.
Qed.


(** The group-by on a name column without a missing value drops no row of
    a filtered table. *)
Lemma present_names_kept c df :
  name_cells_present c df →
  ∀ sel d, dff df sel = Ok d → groupby_keeps_rows c d.
Proof.
  intros Hdf sel d Hd k v Hk Hv. apply dropna_keys_all.
  apply singleton_keys_present.
  assert (name_cells_present c d) as Hna; [|by apply Hna].
  by eapply (dff_preserves (name_cells_present c));
    [apply name_cells_present_mask| |done].
Qed.

(** C10, as amended. In the base table every cell of a [Driver] or
    [Constructor] column that has a value in the file is the trimmed text
    of that value. On pandas 2 a missing cell of the file is the text
    [nan]: the column has no missing value, and the group-by on it drops no
    row of a filtered table. On pandas 3 a missing cell stays missing, and
    the same holds of a name column that has no missing value in the
    file. *)
Theorem C10_names_never_missing ver raw df c :
  c = "Driver" ∨ c = "Constructor" →
  load_csv_on parse_numeric repr_num ver raw = Ok df →
  name_converted repr_num ver c raw df
  ∧ (ver = Pandas2 → name_never_missing repr_num c raw df)
  ∧ (ver = Pandas2 ∨ name_cells_present c raw →
     name_cells_present c df
     ∧ ∀ sel d, dff df sel = Ok d → groupby_keeps_rows c d).
Proof.
  intros Hc (pts & Hpts & ->)%load_csv_on_Ok.
  assert (Htext : ∀ x, x ≠ NA →
    ∃ s, strip_cell_on repr_num ver x = Str s
         ∧ trimmed_text_of (cell_text repr_num x) s).
  { intros x Hx. exists (str_strip (astype_str_cell repr_num x)). split.
    - by destruct ver, x.
    - apply (str_strip_trimmed (cell_text repr_num x)). }
  split; [|split].
  - intros col. rewrite base_on_stripped by done.
    destruct (columns raw !! c) as [src|]; [|done]. intros [= <-].
    exists src. split; [done|]. split; [by rewrite length_fmap|]. split.
    + intros i x Hx Hna. rewrite list_lookup_fmap, Hx. simpl.
      destruct (Htext x Hna) as (s & -> & Hs). eauto.
    + intros i Hx. rewrite list_lookup_fmap, Hx. by destruct ver.
  - intros ->. intros col. rewrite base_on_stripped by done.
    destruct (columns raw !! c) as [src|]; [|done]. intros [= <-].
    exists src. split; [done|]. split; [by rewrite length_fmap|].
    split; [|split].
    + intros i x Hx. rewrite list_lookup_fmap, Hx. simpl.
      eexists. split; [done|].
      apply (str_strip_trimmed (cell_text repr_num x)).
    + intros i Hx. by rewrite list_lookup_fmap, Hx.
    + apply Forall_fmap, Forall_true. done.
  - intros Hver.
    assert (name_cells_present c
              (base_table_on parse_numeric repr_num ver raw pts)) as Hna.
    { intros col. rewrite base_on_stripped by done.
      destruct (columns raw !! c) as [src|] eqn:Hsrc; [|done].
      intros [= <-]. apply Forall_fmap.
      destruct Hver as [->|Hnames]; [by apply Forall_true|].
      eapply Forall_impl; [apply (Hnames src Hsrc)|].
      intros x Hx. simpl. by destruct ver, x. }
    split; [done|]. by apply present_names_kept.
Qed.

(** C6, as amended. [by_driver] is the top 20 of the drivers ranked by
    their summed points: one entry per driver, with the sum of the points
    of the driver's rows, in descending order of the sums. *)
Theorem C6_by_driver_ranks d drivers points :
  columns d !! "Driver" = Some drivers →
  columns d !! "Points" = Some points →
  by_driver_ranks d.
Proof.
  intros Hk Hv. exists drivers, points. unfold by_driver, ranking, points_by.
  rewrite (getitem_Some _ _ _ Hk), (getitem_Some _ _ _ Hv). cbn [bind].
  eexists. repeat (split; [done|]).
  set (rows := zip ((λ x, [x]) <$> drivers) points).
  exists (sort_values_desc snd (groupby_sum rows)).
  split; [done|]. split; [apply sort_values_desc_Sorted|].
  assert (Hperm := sort_values_desc_Permutation snd (groupby_sum rows)).
  split; [|split].
  - rewrite Hperm, groupby_sum_keys. apply NoDup_group_keys.
  - intros k. rewrite Hperm, groupby_sum_keys. apply elem_of_group_keys.
  - intros k t. rewrite Hperm. by intros [_ ->]%elem_of_groupby_sum.
Qed.

(** With the stable sort of the model, the drivers of a ranking that have the
    same sum stand in ascending order of their names, the order in which
    [groupby] returns the groups. *)
Lemma ranking_ties_in_key_order d c full t :
  ranking c d = Ok full →
  Sorted (λ k1 k2, key_leb k1 k2 = true) (filter (λ r, r.2 = t) full).*1.
Proof.
  unfold ranking, points_by.
  intros (g & (k & Hk & (v & Hv & [= <-])%bind_Ok)%bind_Ok & [= <-])%bind_Ok.
  rewrite sort_values_desc_filter.
  set (rows := zip ((λ x, [x]) <$> k) v).
  assert (Hs : StronglySorted (λ k1 k2, key_leb k1 k2 = true)
                 (groupby_sum rows).*1).
  { rewrite groupby_sum_keys.
    apply Sorted_StronglySorted; [|apply Sorted_group_keys].
    intros k1 k2 k3. apply key_leb_trans. }
  apply StronglySorted_Sorted.
  induction (groupby_sum rows) as [|r l IH]; [constructor|].
  rewrite fmap_cons in Hs. apply StronglySorted_inv in Hs as [Hl Hr].
  rewrite filter_cons. destruct (decide (r.2 = t)); [|by apply IH].
  rewrite fmap_cons. constructor; [by apply IH|].
  apply Forall_forall. intros k' (r' & -> & [_ Hr']%list_elem_of_filter)%list_elem_of_fmap.
  apply (proj1 (Forall_forall _ _) Hr). by apply list_elem_of_fmap_2.
Qed.

End Theorems.

Lemma C7_filters_commute_witness :
  ∃ df, wf race_csv
        ∧ load_csv parse_digits show_int race_csv = Ok df
        ∧ is_Some (columns race_csv !! "Season")
        ∧ is_Some (columns race_csv !! "RaceNumber")
        ∧ filters_commute mercedes_2021 df.
Proof.
  eexists. split; [exact race_csv_wf|].
  assert (load_csv parse_digits show_int race_csv = Ok _) as Hload
    by (vm_compute; reflexivity).
  assert (is_Some (columns race_csv !! "Season")) as HS
    by (vm_compute; by eexists).
  assert (is_Some (columns race_csv !! "RaceNumber")) as HR
    by (vm_compute; by eexists).
  split; [exact Hload|]. split; [exact HS|]. split; [exact HR|].
  exact (C7_filters_commute parse_digits show_int _ _ mercedes_2021
           race_csv_wf Hload HS HR).
Defined.




Lemma C10_names_never_missing_witness :
  ∃ df, load_csv_on parse_digits show_int Pandas3 unnamed_csv = Ok df
        ∧ name_converted show_int Pandas3 "Driver" unnamed_csv df
        ∧ (Pandas3 = Pandas2 → name_never_missing show_int "Driver"
                                 unnamed_csv df)
        ∧ (Pandas3 = Pandas2 ∨ name_cells_present "Driver" unnamed_csv →
           name_cells_present "Driver" df
           ∧ ∀ sel d, dff df sel = Ok d → groupby_keeps_rows "Driver" d).
Proof.
  eexists.
  assert (load_csv_on parse_digits show_int Pandas3 unnamed_csv = Ok _)
    as Hload by (vm_compute; reflexivity).
  split; [exact Hload|].
  exact (C10_names_never_missing parse_digits show_int Pandas3 _ _ "Driver"
           (or_introl eq_refl) Hload).
Defined.

(** C10 as stated fails on pandas 3: the driver that is missing in the
    file is missing in the base table, and the group-by on [Driver] drops
    its row. *)
Lemma C10_missing_name_counterexample :
  ∃ df, load_csv_on parse_digits show_int Pandas3 unnamed_csv = Ok df
        ∧ columns df !! "Driver" = Some [Str "Hamilton"; NA]
        ∧ ¬ name_never_missing show_int "Driver" unnamed_csv df
        ∧ dff df no_filter = Ok df
        ∧ ¬ groupby_keeps_rows "Driver" df.
Proof.
  eexists. split; [vm_compute; reflexivity|].
  split; [vm_compute; reflexivity|]. split; [|split].
  - intros H. destruct (H _ eq_refl) as (src & _ & _ & _ & _ & Hna).
    by apply Forall_cons in Hna as [_ [? _]%Forall_cons].
  - vm_compute. reflexivity.
  - intros H. specialize (H _ _ eq_refl eq_refl). by vm_compute in H.
Qed.

Lemma C6_by_driver_ranks_witness :
  ∃ d, filtered parse_digits show_int tie_csv no_filter = Ok d
       ∧ by_driver_ranks d.
Proof.
  eexists. split; [vm_compute; reflexivity|].
  eapply C6_by_driver_ranks; vm_compute; reflexivity.
Defined.

(** C6 as the design document states it fails on two drivers with equal
    points: the ranking lists them by name, and the first in the file comes
    second. *)
Lemma C6_ties_counterexample :
  ∃ d, filtered parse_digits show_int tie_csv no_filter = Ok d
       ∧ ¬ by_driver_ranks_stably d.
Proof.
  eexists. split; [vm_compute; reflexivity|].
  intros (drivers & points & out & Hk & Hv & Hout & _ & Hties).
  vm_compute in Hk. injection Hk as <-.
  vm_compute in Hout. injection Hout as <-.
  assert (1 < 0)%nat; [|lia].
  eapply (Hties 0%nat 1%nat (Str "Hamilton") (Str "Verstappen"));
    [lia|reflexivity..].
Qed.

End FilterTheorems.

(** ** The cumulative standings *)

Module StandingsTheorems.
Import Pandas App Loaded Design Samples Dashboard.
Import PandasFacts SortFacts GroupFacts.

Section Theorems.
Variable parse_numeric : string → option Qc.

Lemma grouped_sorted rows :
  stable_sort (λ a b : key * Qc, key_leb (take 2 a.1) (take 2 b.1))
    (groupby_sum rows)
  = groupby_sum rows.
Proof.
  apply stable_sort_sorted. unfold groupby_sum.
  eapply Sorted_fmap; [|apply Sorted_group_keys].
  intros k1 k2. simpl. apply key_leb_take.
Qed.

Lemma driver_points_eq d season race driver points :
  columns d !! "Season" = Some season →
  columns d !! "RaceNumber" = Some race →
  columns d !! "Driver" = Some driver →
  columns d !! "Points" = Some points →
  driver_points parse_numeric d
  = Ok (standings_of parse_numeric season race driver points).
Proof.
  intros HS HR HD HP. unfold driver_points.
  rewrite (getitem_Some _ _ _ HR). cbn [bind to_numeric setitem_value].
  unfold getitem, setitem. cbn [columns]. lookup_other.
  rewrite HS, HD, HP. cbn [bind]. by rewrite grouped_sorted.
Qed.

Lemma elem_of_zip3 a b c k :
  k ∈ zip3 a b c → ∃ x y z, k = [x; y; z] ∧ y ∈ b.
Proof.
  unfold zip3. intros (x & [y z] & -> & _ & Hyz)%elem_of_zip_with.
  exists x, y, z. split; [done|]. by eapply elem_of_zip_l.
Qed.

Lemma key_has_na_season_driver s r d :
  key_has_na [s; r; d] = false → key_has_na [s; d] = false.
Proof.
  unfold key_has_na. simpl. destruct (isna s), (isna r), (isna d); done.
Qed.



End Theorems.



End StandingsTheorems.

(** ** More about the base table *)

Module LoadMore.
Import Pandas App Loaded Design Samples Dashboard DashboardSamples.
Import PandasFacts LoadFacts SortFacts FilterFacts GroupFacts LoadTheorems.

Section Theorems.
Variable parse_numeric : string → option Qc.
Variable repr_num : Qc → string.

(** X1. On a file without boolean cells [load_csv] raises exactly when the
    file has no [Points] column, and then it is the [AttributeError] of
    [fillna]; no other missing column makes it raise. *)
Theorem X1_load_csv_raises_iff raw :
  no_booleans raw →
  (columns raw !! "Points" = None
   ↔ load_csv parse_numeric repr_num raw = Raise (AttributeError "fillna"))
  ∧ (is_Some (columns raw !! "Points")
     ↔ ∃ df, load_csv parse_numeric repr_num raw = Ok df).
Proof.
  intros _.
  rewrite load_csv_eq. destruct (columns raw !! "Points") as [pts|]; split;
    split; try done; eauto; by intros [? ?].
Qed.

(** X2. [load_csv] keeps the number of rows and every column of the file,
    and adds the six computed columns, whatever the file holds; well-formed
    files give well-formed tables. *)
Theorem X2_load_csv_schema raw df :
  load_csv parse_numeric repr_num raw = Ok df →
  nrows df = nrows raw
  ∧ dom (columns df) = dom (columns raw) ∪ DERIVED
  ∧ (wf raw → wf df).
Proof.
  intros (pts & Hpts & ->)%load_csv_Ok. split; [done|]. split.
  - unfold base_table, base_columns, DERIVED. cbn [columns].
    repeat first [rewrite dom_alter_L | rewrite dom_insert_L].
    apply set_eq. intros x.
    rewrite !elem_of_union, !elem_of_singleton. tauto.
  - intros Hwf. by apply base_table_wf.
Qed.

(** X3. [load_csv] changes no column of the file but [Points], the two name
    columns and the two pit-stop columns: every other column of the file
    that is not overwritten by a computed one is in the table as it is in
    the file. *)
Theorem X3_load_csv_leaves_columns raw df c :
  load_csv parse_numeric repr_num raw = Ok df →
  c ∉ DERIVED →
  c ∉ ["Driver"; "Constructor"; "NPitstops"; "MedianPitStopDuration"] →
  columns df !! c = columns raw !! c.
Proof.
  intros (pts & Hpts & ->)%load_csv_Ok Hd Hc.
  unfold base_table, base_columns. cbn [columns].
  assert (∀ n : string,
    n ∈ ["Driver"; "Constructor"; "NPitstops"; "MedianPitStopDuration"]
    ∨ n ∈ DERIVED → n ≠ c) as Hne.
  { intros n [Hn|Hn] ->; [by apply Hc|by apply Hd]. }
  repeat first
    [ rewrite lookup_alter_ne
        by (apply Hne; left; repeat first [by left | right])
    | rewrite lookup_insert_ne
        by (apply Hne; right; unfold DERIVED;
            rewrite !elem_of_union, !elem_of_singleton; tauto) ].
  done.
Qed.

Lemma to_numeric_cell_float c : float_cell (to_numeric_cell parse_numeric c).
Proof. apply to_numeric_cell_cases. Qed.

Lemma numeric_or_nan_float raw src :
  Forall float_cell (numeric_or_nan parse_numeric raw src).
Proof.
  apply Forall_lookup. intros i c. apply numeric_or_nan_cases.
Qed.

Lemma series_sub_float a b : Forall float_cell (series_sub a b).
Proof.
  apply Forall_lookup. intros i c. unfold series_sub.
  intros (x & y & -> & _ & _)%lookup_zip_with_Some.
  destruct x, y; simpl; unfold float_cell; eauto.
Qed.

(** X4. The types of the computed columns of a file without boolean
    cells: every cell of [Pos_num], [Grid_num], [PosGain] and of the
    pit-stop columns is a number or NaN, and every cell of [IsDNF] is a
    boolean. *)
Theorem X4_load_csv_dtypes raw df :
  no_booleans raw →
  load_csv parse_numeric repr_num raw = Ok df →
  (∀ c col,
     c ∈ ["Pos_num"; "Grid_num"; "PosGain"; "NPitstops";
          "MedianPitStopDuration"] →
     columns df !! c = Some col → Forall float_cell col)
  ∧ (∃ dnf, columns df !! "IsDNF" = Some dnf
            ∧ Forall (λ c, ∃ b, c = Bool b) dnf).
Proof.
  intros _ (pts & Hpts & ->)%load_csv_Ok. split.
  - intros c col Hc. unfold base_table, base_columns. cbn [columns].
    repeat (apply elem_of_cons in Hc as [->|Hc]); [..|by apply elem_of_nil in Hc];
      lookup_other.
    + intros [= <-]. apply numeric_or_nan_float.
    + intros [= <-]. apply numeric_or_nan_float.
    + intros [= <-]. apply series_sub_float.
    + destruct (columns raw !! "NPitstops") as [s|]; [|done].
      intros [= <-]. apply Forall_fmap, Forall_true.
      intros x. apply to_numeric_cell_float.
    + destruct (columns raw !! "MedianPitStopDuration") as [s|]; [|done].
      intros [= <-]. apply Forall_fmap, Forall_true.
      intros x. apply to_numeric_cell_float.
  - rewrite base_IsDNF. eexists. split; [done|]. unfold IsDNF.
    destruct (columns raw !! "Time/Retired");
      apply Forall_fmap, Forall_true; intros b; by exists b.
Qed.

End Theorems.

Lemma two_races_csv_wf : wf two_races_csv.
Proof. apply (bool_decide_unpack _). vm_compute. exact I. Qed.

Lemma tie_csv_wf : wf tie_csv.
Proof. apply (bool_decide_unpack _). vm_compute. exact I. Qed.

Lemma pit_csv_wf : wf pit_csv.
Proof. apply (bool_decide_unpack _). vm_compute. exact I. Qed.

Lemma race_csv_no_booleans : no_booleans race_csv.
Proof. apply (bool_decide_unpack _). vm_compute. exact I. Qed.

Lemma pit_csv_no_booleans : no_booleans pit_csv.
Proof. apply (bool_decide_unpack _). vm_compute. exact I. Qed.

Lemma X1_load_csv_raises_iff_witness :
  no_booleans pit_csv
  ∧ (columns pit_csv !! "Points" = None
     ↔ load_csv parse_digits show_int pit_csv
       = Raise (AttributeError "fillna"))
  ∧ (is_Some (columns pit_csv !! "Points")
     ↔ ∃ df, load_csv parse_digits show_int pit_csv = Ok df).
Proof.
  split; [exact pit_csv_no_booleans|].
  exact (X1_load_csv_raises_iff parse_digits show_int pit_csv
           pit_csv_no_booleans).
Defined.

Lemma X2_load_csv_schema_witness :
  ∃ df, load_csv parse_digits show_int race_csv = Ok df
        ∧ nrows df = nrows race_csv
        ∧ dom (columns df) = dom (columns race_csv) ∪ DERIVED
        ∧ (wf race_csv → wf df).
Proof.
  eexists.
  assert (load_csv parse_digits show_int race_csv = Ok _) as Hload
    by (vm_compute; reflexivity).
  split; [exact Hload|].
  exact (X2_load_csv_schema parse_digits show_int _ _ Hload).
Defined.

Lemma X3_load_csv_leaves_columns_witness :
  ∃ df, load_csv parse_digits show_int race_csv = Ok df
        ∧ ("Time/Retired" ∉ DERIVED)
        ∧ ("Time/Retired" ∉ ["Driver"; "Constructor"; "NPitstops";
                             "MedianPitStopDuration"])
        ∧ columns df !! "Time/Retired" = columns race_csv !! "Time/Retired".
Proof.
  eexists.
  assert (load_csv parse_digits show_int race_csv = Ok _) as Hload
    by (vm_compute; reflexivity).
  assert ("Time/Retired" ∉ DERIVED) as Hd
    by (apply (bool_decide_unpack _); vm_compute; exact I).
  assert ("Time/Retired" ∉ ["Driver"; "Constructor"; "NPitstops";
                            "MedianPitStopDuration"]) as Hc
    by (apply (bool_decide_unpack _); vm_compute; exact I).
  split; [exact Hload|]. split; [exact Hd|]. split; [exact Hc|].
  exact (X3_load_csv_leaves_columns parse_digits show_int _ _ _ Hload Hd Hc).
Defined.

Lemma X4_load_csv_dtypes_witness :
  ∃ df, no_booleans pit_csv
        ∧ load_csv parse_digits show_int pit_csv = Ok df
        ∧ (∀ c col,
             c ∈ ["Pos_num"; "Grid_num"; "PosGain"; "NPitstops";
                  "MedianPitStopDuration"] →
             columns df !! c = Some col → Forall float_cell col)
        ∧ (∃ dnf, columns df !! "IsDNF" = Some dnf
                  ∧ Forall (λ c, ∃ b, c = Bool b) dnf).
Proof.
  eexists. split; [exact pit_csv_no_booleans|].
  assert (load_csv parse_digits show_int pit_csv = Ok _) as Hload
    by (vm_compute; reflexivity).
  split; [exact Hload|].
  exact (X4_load_csv_dtypes parse_digits show_int _ _ pit_csv_no_booleans
           Hload).
Defined.

End LoadMore.

(** ** More about the filtered view *)

Module FilterMore.
Import Pandas App Loaded Design Samples Dashboard DashboardSamples.
Import PandasFacts LoadFacts SortFacts FilterFacts GroupFacts.
Import LoadTheorems FilterTheorems.

Lemma getitem_Ok df c s : getitem df c = Ok s → columns df !! c = Some s.
Proof. unfold getitem. destruct (columns df !! c); by intros [= <-]. Qed.

Lemma getitem_Raise df c e :
  getitem df c = Raise e → columns df !! c = None ∧ e = KeyError c.
Proof. unfold getitem. destruct (columns df !! c); by intros [= <-]. Qed.

Lemma elem_of_bool_index {A} m (s : list A) x :
  x ∈ bool_index m s ↔ ∃ i, m !! i = Some true ∧ s !! i = Some x.
Proof.
  revert s. induction m as [|b m IH]; intros [|y s]; simpl.
  - split; [by intros ?%elem_of_nil|by intros (i & ? & ?)].
  - split; [by intros ?%elem_of_nil|by intros (i & ? & ?)].
  - split; [by intros ?%elem_of_nil|by intros (i & ? & ?)].
  - destruct b.
    + rewrite elem_of_cons, IH. split.
      * intros [->|(i & Hm & Hs)]; [by exists 0%nat|by exists (S i)].
      * intros ([|i] & Hm & Hs); simpl in *; [left; congruence|right; eauto].
    + rewrite IH. split.
      * intros (i & Hm & Hs). by exists (S i).
      * intros ([|i] & Hm & Hs); simpl in *; [done|eauto].
Qed.

Lemma bool_index_none {A} m (s : list A) :
  (∀ i, m !! i ≠ Some true) → bool_index m s = [].
Proof.
  intros Hm. destruct (bool_index m s) as [|x l] eqn:Hl; [done|].
  assert (x ∈ bool_index m s) as (i & Hi & _)%elem_of_bool_index
    by (rewrite Hl; left).
  by destruct (Hm i).
Qed.

Lemma length_bool_index_le {A} m (s : list A) :
  (length (bool_index m s) ≤ length s)%nat.
Proof.
  revert s. induction m as [|b m IH]; intros [|x s]; simpl; try lia.
  specialize (IH s). destruct b; simpl; lia.
Qed.

Lemma conjunction_lookup (b : list bool) Ms i :
  foldr (zip_with andb) b Ms !! i = Some true →
  b !! i = Some true ∧ ∀ M, M ∈ Ms → M !! i = Some true.
Proof.
  induction Ms as [|M Ms IH]; simpl.
  - intros Hb. split; [done|]. by intros M ?%elem_of_nil.
  - intros (x & y & Hxy & Hx & Hy)%lookup_zip_with_Some.
    symmetry in Hxy. apply andb_true_iff in Hxy as [-> ->].
    destruct (IH Hy) as [Hb HMs]. split; [done|].
    intros M' [->|HM']%elem_of_cons; auto.
Qed.

Lemma series_or_true_l n (l : list bool) :
  length l = n → series_or (replicate n true) l = replicate n true.
Proof.
  intros <-. unfold series_or. induction l as [|b l IH]; [done|].
  cbn [length replicate zip_with]. by rewrite IH.
Qed.

Lemma zip_andb_diag (m : list bool) : zip_with andb m m = m.
Proof. induction m as [|[] m IH]; simpl; by rewrite ?IH. Qed.

Lemma sublist_bool_index {A} m (s : list A) : sublist (bool_index m s) s.
Proof.
  revert s. induction m as [|b m IH]; intros [|x s]; simpl;
    try apply sublist_nil_l.
  destruct b; [by apply sublist_skip|by apply sublist_cons].
Qed.

Lemma apply_predicate_absent sel p d d' c :
  apply_predicate sel p d = Ok d' →
  columns d' !! c = None → columns d !! c = None.
Proof.
  intros Hp. revert c.
  apply (apply_predicate_preserves
           (λ d', ∀ c, columns d' !! c = None → columns d !! c = None)
           sel p d d'); [|done..].
  intros d0 m Hd0 c. rewrite mask_rows_lookup.
  destruct (columns d0 !! c) eqn:Hc; [done|]. intros _. by apply Hd0.
Qed.

Lemma getitem_has_column {A} d c (k : Series → result A) e :
  has_column d c = true → (s ←! getitem d c; k s) = Raise e →
  ∃ s, k s = Raise e.
Proof.
  unfold has_column, getitem. intros [s Hs]%bool_decide_eq_true_1.
  rewrite Hs. simpl. eauto.
Qed.

(** A filter statement raises only the [KeyError] of a column it reads
    without a test. *)
Lemma apply_predicate_Raise sel p d e :
  apply_predicate sel p d = Raise e →
  ∃ c, c ∈ ["Season"; "RaceNumber"; "IsDNF"; "Points"]
       ∧ columns d !! c = None ∧ e = KeyError c.
Proof.
  destruct p; simpl.
  - destruct (nonempty _); [|done]. unfold getitem.
    destruct (columns d !! "Season") eqn:Hc; [done|]. intros [= <-].
    exists "Season". split; [repeat constructor|done].
  - destruct (nonempty _); [|done]. unfold getitem.
    destruct (columns d !! "RaceNumber") eqn:Hc; [done|]. intros [= <-].
    exists "RaceNumber". split; [repeat constructor|done].
  - destruct (nonempty _); simpl; [|done].
    destruct (has_column d "Constructor") eqn:Hh; [|done].
    by intros [s ?]%getitem_has_column.
  - destruct (nonempty _); simpl; [|done].
    destruct (has_column d "Driver") eqn:Hh; [|done].
    by intros [s ?]%getitem_has_column.
  - destruct (include_dnfs sel); simpl; [done|]. unfold getitem.
    destruct (columns d !! "IsDNF") eqn:Hc; [done|]. intros [= <-].
    exists "IsDNF". split; [repeat constructor|done].
  - destruct (only_points sel); simpl; [|done]. unfold getitem.
    destruct (columns d !! "Points") eqn:Hc; [done|]. intros [= <-].
    exists "Points". split; [repeat constructor|done].
Qed.

Lemma apply_in_order_Raise sel order d e :
  apply_in_order sel order d = Raise e →
  ∃ c, c ∈ ["Season"; "RaceNumber"; "IsDNF"; "Points"]
       ∧ columns d !! c = None ∧ e = KeyError c.
Proof.
  revert d. induction order as [|p order IH]; intros d; simpl; [done|].
  destruct (apply_predicate sel p d) as [d'|e'] eqn:Hp; simpl.
  - intros (c & Hc & Hnone & ->)%IH. exists c. split; [done|].
    split; [|done]. by eapply apply_predicate_absent.
  - intros [= ->]. by eapply apply_predicate_Raise.
Qed.

Section Theorems.
Variable parse_numeric : string → option Qc.
Variable repr_num : Qc → string.

Local Abbreviation base := (base_table parse_numeric repr_num).

Lemma base_has_four raw pts :
  is_Some (columns raw !! "Season") →
  is_Some (columns raw !! "RaceNumber") →
  is_Some (columns (base raw pts) !! "Season")
  ∧ is_Some (columns (base raw pts) !! "RaceNumber")
  ∧ is_Some (columns (base raw pts) !! "IsDNF")
  ∧ is_Some (columns (base raw pts) !! "Points").
Proof.
  intros HS HR.
  rewrite !base_other by (repeat constructor).
  rewrite base_IsDNF, base_Points. eauto.
Qed.

(** The filtered view is the base table restricted to the conjunction of
    the six predicates. *)
Lemma filtered_mask raw sel d :
  wf raw →
  filtered parse_numeric repr_num raw sel = Ok d →
  ∃ pts, columns raw !! "Points" = Some pts
         ∧ is_Some (columns raw !! "Season")
         ∧ is_Some (columns raw !! "RaceNumber")
         ∧ d = mask_rows (base raw pts) (conjunction_mask sel (base raw pts)).
Proof.
  intros Hwf. unfold filtered.
  intros (df & (pts & Hpts & ->)%load_csv_Ok
             & (s & Hs%getitem_Ok & (r & Hr%getitem_Ok & Hd)%bind_Ok)%bind_Ok
         )%bind_Ok.
  rewrite base_other in Hs, Hr by (repeat constructor).
  exists pts. split; [done|]. split; [by eexists|]. split; [by eexists|].
  destruct (base_has_four raw pts) as (HS & HR & HD & HP); [by eexists..|].
  destruct (filters_commute_intro sel (base raw pts)) as (_ & _ & Heq);
    [by apply base_table_wf|done..|].
  rewrite Heq in Hd. by injection Hd as <-.
Qed.

(** The cells of column [c] in the rows of the view, when the mask of
    predicate [p] tests column [c] with [f]. *)
Lemma filtered_cells raw sel d p c f col :
  wf raw →
  filtered parse_numeric repr_num raw sel = Ok d →
  (∀ df, predicate_mask sel df p = column_mask df c f) →
  columns d !! c = Some col →
  Forall (λ x, f x = true) col.
Proof.
  intros Hwf (pts & Hpts & HS & HR & ->)%filtered_mask Hp; [|done].
  rewrite mask_rows_lookup.
  destruct (columns (base raw pts) !! c) as [s|] eqn:Hs; [|done].
  intros [= <-]. apply Forall_forall. intros x (i & Hi & Hx)%elem_of_bool_index.
  apply conjunction_lookup in Hi as [_ Hi].
  assert (predicate_mask sel (base raw pts) p
          ∈ predicate_mask sel (base raw pts) <$> all_predicates) as Hin.
  { apply list_elem_of_fmap_2. destruct p; unfold all_predicates;
      repeat first [by left | right]. }
  apply Hi in Hin. rewrite Hp in Hin. unfold column_mask in Hin.
  rewrite Hs, list_lookup_fmap, Hx in Hin. by injection Hin.
Qed.

(** X5. Every row the filtered view shows satisfies every filter that is
    switched on: its season, race, team and driver are among the selected
    ones, it is no DNF when DNFs are excluded, and it has scored when only
    scoring rows are asked for. *)
Theorem X5_filtered_rows_satisfy raw sel d :
  wf raw →
  filtered parse_numeric repr_num raw sel = Ok d →
  (∀ col, nonempty (sel_seasons sel) = true →
     columns d !! "Season" = Some col →
     Forall (λ x, x ∈ sel_seasons sel) col)
  ∧ (∀ col, nonempty (sel_races sel) = true →
       columns d !! "RaceNumber" = Some col →
       Forall (λ x, x ∈ sel_races sel) col)
  ∧ (∀ col, nonempty (sel_teams sel) = true →
       columns d !! "Constructor" = Some col →
       Forall (λ x, x ∈ sel_teams sel) col)
  ∧ (∀ col, nonempty (sel_drivers sel) = true →
       columns d !! "Driver" = Some col →
       Forall (λ x, x ∈ sel_drivers sel) col)
  ∧ (∀ col, include_dnfs sel = false →
       columns d !! "IsDNF" = Some col →
       Forall (λ x, x = Bool false) col)
  ∧ (∀ col, only_points sel = true →
       columns d !! "Points" = Some col →
       Forall (λ x, ∃ q, x = Num q ∧ 0 < q) col).
Proof.
  intros Hwf Hd.
  pose proof (λ p c f col, filtered_cells raw sel d p c f col Hwf Hd) as Hc.
  repeat split; intros col Hsel Hcol.
  - eapply Forall_impl; [apply (Hc BySeason "Season"
      (λ c, bool_decide (c ∈ sel_seasons sel)) col)|]; try done.
    + intros df. simpl. by rewrite Hsel.
    + intros x. apply bool_decide_eq_true_1.
  - eapply Forall_impl; [apply (Hc ByRace "RaceNumber"
      (λ c, bool_decide (c ∈ sel_races sel)) col)|]; try done.
    + intros df. simpl. by rewrite Hsel.
    + intros x. apply bool_decide_eq_true_1.
  - eapply Forall_impl; [apply (Hc ByTeam "Constructor"
      (λ c, bool_decide (c ∈ sel_teams sel)) col)|]; try done.
    + intros df. simpl. by rewrite Hsel.
    + intros x. apply bool_decide_eq_true_1.
  - eapply Forall_impl; [apply (Hc ByDriver "Driver"
      (λ c, bool_decide (c ∈ sel_drivers sel)) col)|]; try done.
    + intros df. simpl. by rewrite Hsel.
    + intros x. apply bool_decide_eq_true_1.
  - eapply Forall_impl; [apply (Hc ByDnf "IsDNF" cell_not col)|]; try done.
    + intros df. simpl. by rewrite Hsel.
    + by intros [| |?|[]].
  - destruct (filtered_mask raw sel d Hwf Hd) as (pts & Hpts & HS & HR & Hdeq).
    assert (Forall (λ x, ∃ q, x = Num q) col) as Hnum.
    { rewrite Hdeq, mask_rows_lookup, base_Points in Hcol.
      injection Hcol as <-. apply Forall_bool_index.
      apply Forall_fmap, Forall_true. intros x. simpl.
      destruct (to_numeric_cell_cases parse_numeric x) as [->|[q ->]];
        by eexists. }
    assert (Forall (λ x, cell_gt0 x = true) col) as Hpos.
    { apply (Hc ByPoints "Points" cell_gt0 col); [|done].
      intros df. simpl. by rewrite Hsel. }
    apply Forall_forall. intros x Hx.
    pose proof (proj1 (Forall_forall _ _) Hnum x Hx) as [q ->].
    pose proof (proj1 (Forall_forall _ _) Hpos _ Hx) as Hq.
    exists q. split; [done|]. by apply Qc_ltb_lt.
Qed.

(** X6. Filtering is idempotent: the filter statements applied to the
    filtered view give the filtered view again. *)
Theorem X6_filter_idempotent raw sel d :
  wf raw →
  filtered parse_numeric repr_num raw sel = Ok d →
  dff d sel = Ok d.
Proof.
  intros Hwf (pts & Hpts & HS & HR & ->)%filtered_mask; [|done].
  destruct (base_has_four raw pts) as (? & ? & ? & ?); [done..|].
  pose proof (base_table_wf parse_numeric repr_num raw pts Hwf Hpts) as Hb.
  rewrite dff_apply_in_order, apply_in_order_masked; try done.
  - unfold conjunction_mask. by rewrite zip_andb_diag.
  - by apply conjunction_length.
Qed.

(** On the base table of a file that has its [Season] and [RaceNumber]
    columns no filter raises, whatever the widgets select. *)
Lemma dff_base_returns raw pts sel :
  is_Some (columns raw !! "Season") →
  is_Some (columns raw !! "RaceNumber") →
  ∃ d, dff (base raw pts) sel = Ok d.
Proof.
  intros Hs Hr.
  destruct (dff (base raw pts) sel) as [d|e] eqn:Hd; [eauto|].
  rewrite dff_apply_in_order in Hd.
  apply apply_in_order_Raise in Hd as (c & Hc & Hnone & _).
  destruct (base_has_four raw pts) as (HS & HR & HD & HP); [done..|].
  repeat (apply elem_of_cons in Hc as [->|Hc]);
    [rewrite Hnone in HS|rewrite Hnone in HR|rewrite Hnone in HD
    |rewrite Hnone in HP|by apply elem_of_nil in Hc];
    by match goal with H : is_Some None |- _ => destruct H end.
Qed.

(** X8. The filters keep the columns of the table and never add, change or
    reorder a row: every column of the view is a sub-sequence of the column
    of the table, and a well-formed table gives a well-formed view. *)
Theorem X8_filters_select_rows df sel d :
  dff df sel = Ok d →
  dom (columns d) = dom (columns df)
  ∧ (nrows d ≤ nrows df)%nat
  ∧ (∀ c col, columns d !! c = Some col →
       ∃ col0, columns df !! c = Some col0 ∧ sublist col col0)
  ∧ (wf df → wf d).
Proof.
  intros Hd.
  assert (dom (columns d) = dom (columns df)
          ∧ (nrows d ≤ nrows df)%nat
          ∧ (∀ c col, columns d !! c = Some col →
               ∃ col0, columns df !! c = Some col0 ∧ sublist col col0))
    as (H1 & H2 & H3).
  { apply (dff_preserves
      (λ d, dom (columns d) = dom (columns df)
            ∧ (nrows d ≤ nrows df)%nat
            ∧ (∀ c col, columns d !! c = Some col →
                 ∃ col0, columns df !! c = Some col0 ∧ sublist col col0))
      sel df d); [| |done].
    - intros d0 m (Hdom & Hn & Hsub). split; [|split].
      + unfold mask_rows. cbn [columns]. by rewrite dom_fmap_L.
      + unfold mask_rows. cbn [nrows].
        pose proof (length_bool_index_le m (replicate (nrows d0) ())) as Hle.
        rewrite length_replicate in Hle. lia.
      + intros c col. rewrite mask_rows_lookup.
        destruct (columns d0 !! c) as [s|] eqn:Hs; [|done]. intros [= <-].
        destruct (Hsub c s Hs) as (col0 & Hcol0 & Hss). exists col0.
        split; [done|]. etrans; [apply sublist_bool_index|done].
    - split; [done|]. split; [done|]. intros c col Hc. exists col.
      by split. }
  repeat split; try done.
  intros Hwf. by apply (dff_preserves wf sel df d); [apply mask_rows_wf|..].
Qed.

(** X9. A file with neither a [Position] nor a [Pos.] column gives a table
    in which every row is a DNF, so that the view is empty as soon as DNFs
    are excluded. *)
Theorem X9_no_position_all_dnf raw df :
  wf raw →
  columns raw !! "Position" = None →
  columns raw !! "Pos." = None →
  load_csv parse_numeric repr_num raw = Ok df →
  columns df !! "IsDNF" = Some (replicate (nrows df) (Bool true))
  ∧ ∀ sel d, include_dnfs sel = false →
      filtered parse_numeric repr_num raw sel = Ok d → nrows d = 0%nat.
Proof.
  intros Hwf Hp1 Hp2 Hload.
  destruct (load_csv_Ok _ _ _ _ Hload) as (pts & Hpts & ->).
  assert (IsDNF parse_numeric repr_num raw
          = replicate (nrows raw) (Bool true)) as Hdnf.
  { unfold IsDNF, Pos_num, position_source. rewrite Hp1, Hp2.
    unfold numeric_or_nan. rewrite fmap_replicate. simpl.
    destruct (columns raw !! "Time/Retired") as [s|] eqn:Hs.
    - rewrite series_or_true_l, fmap_replicate; [done|].
      rewrite length_fmap. apply (Hwf _ _ Hs).
    - by rewrite fmap_replicate. }
  split.
  - rewrite base_IsDNF. cbn [nrows base_table]. by rewrite Hdnf.
  - intros sel d Hsel (pts' & Hpts' & HS & HR & ->)%filtered_mask; [|done].
    unfold mask_rows. cbn [nrows]. rewrite bool_index_none; [done|].
    intros i Hi. apply conjunction_lookup in Hi as [_ Hi].
    assert (predicate_mask sel (base raw pts') ByDnf !! i = Some true) as Hf.
    { apply Hi, list_elem_of_fmap_2. unfold all_predicates.
      repeat first [by left | right]. }
    simpl in Hf. rewrite Hsel in Hf. unfold column_mask in Hf.
    rewrite base_IsDNF, Hdnf, fmap_replicate in Hf. simpl in Hf.
    by apply lookup_replicate in Hf as [? _].
Qed.

End Theorems.

Lemma X5_filtered_rows_satisfy_witness :
  ∃ d, wf race_csv
       ∧ filtered parse_digits show_int race_csv mercedes_2021 = Ok d
       ∧ (∀ col, nonempty (sel_seasons mercedes_2021) = true →
            columns d !! "Season" = Some col →
            Forall (λ x, x ∈ sel_seasons mercedes_2021) col)
       ∧ (∀ col, nonempty (sel_races mercedes_2021) = true →
            columns d !! "RaceNumber" = Some col →
            Forall (λ x, x ∈ sel_races mercedes_2021) col)
       ∧ (∀ col, nonempty (sel_teams mercedes_2021) = true →
            columns d !! "Constructor" = Some col →
            Forall (λ x, x ∈ sel_teams mercedes_2021) col)
       ∧ (∀ col, nonempty (sel_drivers mercedes_2021) = true →
            columns d !! "Driver" = Some col →
            Forall (λ x, x ∈ sel_drivers mercedes_2021) col)
       ∧ (∀ col, include_dnfs mercedes_2021 = false →
            columns d !! "IsDNF" = Some col →
            Forall (λ x, x = Bool false) col)
       ∧ (∀ col, only_points mercedes_2021 = true →
            columns d !! "Points" = Some col →
            Forall (λ x, ∃ q, x = Num q ∧ 0 < q) col).
Proof.
  destruct (filtered parse_digits show_int race_csv mercedes_2021)
    as [d|e] eqn:Hd; [|by vm_compute in Hd].
  exists d. split; [exact race_csv_wf|]. split; [reflexivity|].
  exact (X5_filtered_rows_satisfy parse_digits show_int _ _ _
           race_csv_wf Hd).
Defined.

Lemma X6_filter_idempotent_witness :
  ∃ d, wf race_csv
       ∧ filtered parse_digits show_int race_csv mercedes_2021 = Ok d
       ∧ dff d mercedes_2021 = Ok d.
Proof.
  destruct (filtered parse_digits show_int race_csv mercedes_2021)
    as [d|e] eqn:Hd; [|by vm_compute in Hd].
  exists d. split; [exact race_csv_wf|]. split; [reflexivity|].
  exact (X6_filter_idempotent parse_digits show_int _ _ _ race_csv_wf Hd).
Defined.

Lemma X8_filters_select_rows_witness :
  ∃ d, dff tie_csv season_2021 = Ok d
       ∧ dom (columns d) = dom (columns tie_csv)
       ∧ (nrows d ≤ nrows tie_csv)%nat
       ∧ (∀ c col, columns d !! c = Some col →
            ∃ col0, columns tie_csv !! c = Some col0 ∧ sublist col col0)
       ∧ (wf tie_csv → wf d).
Proof.
  destruct (dff tie_csv season_2021) as [d|e] eqn:Hd; [|by vm_compute in Hd].
  exists d. split; [reflexivity|].
  exact (X8_filters_select_rows _ _ _ Hd).
Defined.

Lemma X9_no_position_all_dnf_witness :
  ∃ df, wf two_races_csv
        ∧ columns two_races_csv !! "Position" = None
        ∧ columns two_races_csv !! "Pos." = None
        ∧ load_csv parse_digits show_int two_races_csv = Ok df
        ∧ columns df !! "IsDNF" = Some (replicate (nrows df) (Bool true))
        ∧ ∀ sel d, include_dnfs sel = false →
            filtered parse_digits show_int two_races_csv sel = Ok d →
            nrows d = 0%nat.
Proof.
  eexists.
  assert (load_csv parse_digits show_int two_races_csv = Ok _) as Hload
    by (vm_compute; reflexivity).
  split; [exact LoadMore.two_races_csv_wf|].
  split; [reflexivity|]. split; [reflexivity|]. split; [exact Hload|].
  exact (X9_no_position_all_dnf parse_digits show_int _ _
           LoadMore.two_races_csv_wf eq_refl eq_refl Hload).
Defined.

End FilterMore.

(** ** The widgets *)

Module WidgetTheorems.
Import Pandas App Loaded Design Samples Dashboard DashboardSamples.
Import PandasFacts LoadFacts SortFacts FilterFacts GroupFacts.
Import LoadTheorems FilterTheorems FilterMore.

Lemma elem_of_unique `{EqDecision A} (l : list A) x : x ∈ unique l ↔ x ∈ l.
Proof.
  induction l as [|y l IH]; simpl; [done|].
  rewrite !elem_of_cons, (list_elem_of_filter (λ z, z ≠ y)), IH. split.
  - intros [->|[_ ?]]; auto.
  - intros [->|Hx]; [by left|]. destruct (decide (x = y)); auto.
Qed.

Lemma NoDup_unique `{EqDecision A} (l : list A) : NoDup (unique l).
Proof.
  induction l as [|y l IH]; simpl; constructor.
  - rewrite (list_elem_of_filter (λ z, z ≠ y)). by intros [? _].
  - by apply NoDup_filter.
Qed.


Lemma elem_of_dropna s x : x ∈ dropna s ↔ x ∈ s ∧ x ≠ NA.
Proof.
  unfold dropna. rewrite (list_elem_of_filter (λ c, isna c = false)).
  split; intros [? ?]; split; try done; by destruct x.
Qed.

Lemma one_kind_numbers l : Forall (λ c, ∃ q, c = Num q) l → one_kind l = true.
Proof.
  destruct 1 as [|x l [q ->] Hl]; simpl; [done|].
  apply forallb_forall. intros y Hy%list_elem_of_In.
  by destruct (proj1 (Forall_forall _ _) Hl y Hy) as [q' ->].
Qed.

Lemma one_kind_strings l : Forall (λ c, ∃ t, c = Str t) l → one_kind l = true.
Proof.
  destruct 1 as [|x l [t ->] Hl]; simpl; [done|].
  apply forallb_forall. intros y Hy%list_elem_of_In.
  by destruct (proj1 (Forall_forall _ _) Hl y Hy) as [t' ->].
Qed.

Lemma one_kind_mixed l q t : Num q ∈ l → Str t ∈ l → one_kind l = false.
Proof.
  destruct l as [|x l]; [by intros ?%elem_of_nil|]. simpl.
  intros Hq Ht. apply not_true_iff_false. intros Hall.
  assert (∀ y, y ∈ l → same_kind x y = true) as Hk.
  { intros y Hy%list_elem_of_In. by apply (proj1 (forallb_forall _ _) Hall). }
  apply elem_of_cons in Hq as [<-|Hq], Ht as [Ht|Ht]; try done.
  - by specialize (Hk _ Ht).
  - subst x. by specialize (Hk _ Hq).
  - specialize (Hk _ Hq) as H1. specialize (Hk _ Ht) as H2. by destruct x.
Qed.

Lemma column_options_Done s opts :
  column_options s = Done opts →
  opts = stable_sort cell_leb (unique (dropna s)).
Proof.
  unfold column_options, py_sorted. destruct (one_kind _); by intros [= <-].
Qed.

Local Abbreviation cell_le := (λ a b : cell, cell_leb a b = true).

Lemma elem_of_column_options s opts x :
  column_options s = Done opts → x ∈ opts ↔ x ∈ s ∧ x ≠ NA.
Proof.
  intros ->%column_options_Done.
  by rewrite stable_sort_Permutation, elem_of_unique, elem_of_dropna.
Qed.

(** [max] returns one of the largest elements. *)
Lemma py_max_fold m l :
  let r := foldl (λ m y, if cell_ltb m y then y else m) m l in
  r ∈ m :: l ∧ cell_le m r ∧ Forall (λ x, cell_le x r) l.
Proof.
  revert m. induction l as [|y l IH]; intros m; simpl.
  - split; [by left|]. split; [apply cell_leb_refl|constructor].
  - destruct (cell_ltb m y) eqn:Hlt.
    + destruct (IH y) as (Hin & Hle & Hall). split; [by right|].
      assert (cell_le m y) as Hmy.
      { unfold cell_ltb in Hlt. apply negb_true_iff in Hlt.
        destruct (cell_leb_total m y) as [?|Hym]; [done|congruence]. }
      split; [exact (cell_leb_trans _ _ _ Hmy Hle)|]. by constructor.
    + destruct (IH m) as (Hin & Hle & Hall). split.
      { apply elem_of_cons in Hin as [->|?]; [by left|by do 2 right]. }
      split; [done|]. constructor; [|done].
      unfold cell_ltb in Hlt. apply negb_false_iff in Hlt.
      exact (cell_leb_trans _ _ _ Hlt Hle).
Qed.

Lemma py_max_spec l m :
  py_max l = Some m → m ∈ l ∧ Forall (λ x, cell_le x m) l.
Proof.
  destruct l as [|x l]; [done|]. simpl. intros [= <-].
  destruct (py_max_fold x l) as (Hin & Hle & Hall). split; [done|].
  by constructor.
Qed.

Lemma sidebar_options_Done df o :
  sidebar_options df = Done o →
  (∃ s, columns df !! "Season" = Some s
        ∧ column_options s = Done (opt_seasons o))
  ∧ (∃ r, columns df !! "RaceNumber" = Some r
          ∧ column_options r = Done (opt_races o))
  ∧ match columns df !! "Constructor" with
    | Some c => column_options c = Done (opt_teams o)
    | None => opt_teams o = []
    end
  ∧ match columns df !! "Driver" with
    | Some c => column_options c = Done (opt_drivers o)
    | None => opt_drivers o = []
    end.
Proof.
  unfold sidebar_options, getitem.
  destruct (columns df !! "Season") as [s|]; simpl; [|done].
  destruct (column_options s) as [seasons|] eqn:Hs; simpl; [|done].
  destruct (columns df !! "RaceNumber") as [r|]; simpl; [|done].
  destruct (column_options r) as [races|] eqn:Hr; simpl; [|done].
  destruct (columns df !! "Constructor") as [c|] eqn:Hcon;
    [rewrite (has_column_true _ _ _ Hcon)|rewrite (has_column_false _ _ Hcon)];
    simpl;
    [destruct (column_options c) as [teams|] eqn:Hc; simpl; [|done]|];
    (destruct (columns df !! "Driver") as [c'|] eqn:Hdri;
     [rewrite (has_column_true _ _ _ Hdri)
     |rewrite (has_column_false _ _ Hdri)];
     simpl;
     [destruct (column_options c') as [drivers|] eqn:Hc'; simpl; [|done]|]);
    intros [= <-]; simpl; eauto 10.
Qed.

Lemma column_options_one_kind s :
  Forall (λ c, c = NA ∨ ∃ q, c = Num q) s
  ∨ Forall (λ c, c = NA ∨ ∃ t, c = Str t) s →
  column_options s = Done (stable_sort cell_leb (unique (dropna s))).
Proof.
  intros Hs. unfold column_options, py_sorted.
  assert (one_kind (unique (dropna s)) = true) as ->; [|done].
  destruct Hs as [Hs|Hs]; [apply one_kind_numbers|apply one_kind_strings];
    apply Forall_forall; intros x [Hx Hna]%elem_of_unique%elem_of_dropna;
    by destruct (proj1 (Forall_forall _ _) Hs x Hx).
Qed.

(** X10. The options of a widget, for a column of numbers or a column of
    texts: the values of the column without NaN, each once, in ascending
    order. A column that holds a number and a text makes [sorted] raise
    [TypeError]. *)
Theorem X10_column_options s :
  (Forall (λ c, c = NA ∨ ∃ q, c = Num q) s
   ∨ Forall (λ c, c = NA ∨ ∃ t, c = Str t) s →
   ∃ opts, column_options s = Done opts
           ∧ Sorted cell_le opts
           ∧ NoDup opts
           ∧ ∀ x, x ∈ opts ↔ x ∈ s ∧ x ≠ NA)
  ∧ (∀ q t, Num q ∈ s → Str t ∈ s → column_options s = Failed TypeError).
Proof.
  split.
  - intros Heq%column_options_one_kind.
    exists (stable_sort cell_leb (unique (dropna s))).
    split; [done|]. split; [|split].
    + apply Sorted_stable_sort, cell_leb_total.
    + rewrite stable_sort_Permutation. apply NoDup_unique.
    + intros x. by apply elem_of_column_options.
  - intros q t Hq Ht. unfold column_options, py_sorted.
    rewrite (one_kind_mixed _ q t); [done|..];
      by apply elem_of_unique, elem_of_dropna.
Qed.

Lemma isin_all_options s opts :
  column_options s = Done opts → isin s opts = notna <$> s.
Proof.
  intros Hopts. unfold isin. apply list_fmap_ext. intros i x Hx.
  apply list_elem_of_lookup_2 in Hx.
  destruct (decide (x = NA)) as [->|Hna].
  - apply bool_decide_eq_false_2.
    rewrite (elem_of_column_options _ _ _ Hopts). by intros [_ ?].
  - rewrite bool_decide_eq_true_2; [by destruct x|].
    by apply (elem_of_column_options _ _ _ Hopts).
Qed.

Lemma zip_andb_true_l n (m : list bool) :
  length m = n → zip_with andb (replicate n true) m = m.
Proof. intros Hm. rewrite zip_andb_comm. by apply zip_andb_true_r. Qed.

Lemma notna_all s :
  Forall (λ x, x ≠ NA) s → notna <$> s = replicate (length s) true.
Proof.
  induction 1 as [|x s Hx _ IH]; [done|].
  rewrite fmap_cons, IH. by destruct x.
Qed.

(** The mask of a filter on column [c] whose selection is all the options,
    or the first options when there are no more, of a column without
    NaN. *)
Lemma mask_all_options df c opts n :
  wf df →
  (length opts ≤ n)%nat →
  match columns df !! c with
  | Some col => column_options col = Done opts ∧ Forall (λ x, x ≠ NA) col
  | None => True
  end →
  (if nonempty (take n opts)
   then column_mask df c (λ x, bool_decide (x ∈ take n opts))
   else all_rows df) = all_rows df.
Proof.
  intros Hwf Hn Hc. rewrite take_ge by done.
  destruct (nonempty opts); [|done]. unfold column_mask, all_rows.
  destruct (columns df !! c) as [col|] eqn:Hcol; [|done].
  destruct Hc as [Hopts Hna].
  change ((λ x, bool_decide (x ∈ opts)) <$> col) with (isin col opts).
  rewrite (isin_all_options _ _ Hopts), notna_all by done.
  f_equal. apply (Hwf _ _ Hcol).
Qed.

(** X11. A filter whose selection is all the options of its widget keeps
    the rows that have a value in its column, and no other; on a table with
    a value in every row of the column it keeps every row. *)
Theorem X11_all_options_keep_present df c s opts :
  column_options s = Done opts →
  isin s opts = notna <$> s
  ∧ (wf df → columns df !! c = Some s → Forall (λ x, x ≠ NA) s →
     mask_rows df (isin s opts) = df).
Proof.
  intros Hopts. split; [by apply isin_all_options|].
  intros Hwf Hs Hna. rewrite (isin_all_options _ _ Hopts), notna_all by done.
  rewrite (Hwf _ _ Hs). by apply mask_rows_all_rows.
Qed.

Section Theorems.
Variable parse_numeric : string → option Qc.
Variable repr_num : Qc → string.

Local Abbreviation base := (base_table parse_numeric repr_num).

Lemma stripped_strings (s : Series) :
  Forall (λ c, c = NA ∨ ∃ t, c = Str t) (stripped repr_num <$> s).
Proof.
  apply Forall_fmap, Forall_true. intros x. right. by eexists.
Qed.

Lemma name_options raw pts c :
  c = "Driver" ∨ c = "Constructor" →
  ∃ opts,
    (if has_column (base raw pts) c then
       x ←? lift (getitem (base raw pts) c);
       column_options x
     else Done []) = Done opts.
Proof.
  intros Hc. unfold has_column, getitem. rewrite base_stripped by done.
  destruct (columns raw !! c) as [s|]; simpl.
  - rewrite column_options_one_kind by (right; apply stripped_strings).
    eauto.
  - eauto.
Qed.

(** X12. On the base table the widgets are filled as soon as the file has
    its [Season] and [RaceNumber] columns and each of the two holds numbers
    only or texts only: the team and driver columns never make [sorted]
    raise. *)
Theorem X12_sidebar_options_defined raw df s r :
  load_csv parse_numeric repr_num raw = Ok df →
  columns raw !! "Season" = Some s →
  columns raw !! "RaceNumber" = Some r →
  Forall (λ c, c = NA ∨ ∃ q, c = Num q) s
  ∨ Forall (λ c, c = NA ∨ ∃ t, c = Str t) s →
  Forall (λ c, c = NA ∨ ∃ q, c = Num q) r
  ∨ Forall (λ c, c = NA ∨ ∃ t, c = Str t) r →
  ∃ o, sidebar_options df = Done o.
Proof.
  intros (pts & Hpts & ->)%load_csv_Ok Hs Hr Hks Hkr.
  apply column_options_one_kind in Hks as Hseasons, Hkr as Hraces.
  unfold sidebar_options.
  rewrite (getitem_Some _ "Season" s), (getitem_Some _ "RaceNumber" r)
    by (by rewrite base_other by (repeat constructor)).
  simpl. rewrite Hseasons. simpl. rewrite Hraces. simpl.
  destruct (name_options raw pts "Constructor") as [teams ->]; [auto|].
  simpl.
  destruct (name_options raw pts "Driver") as [drivers ->]; [auto|].
  simpl. eauto.
Qed.

Lemma stripped_present (s : Series) :
  Forall (λ x, x ≠ NA) (stripped repr_num <$> s).
Proof. apply Forall_fmap, Forall_true. by intros x. Qed.

(** X13. The widgets start with the largest season of the table, all its
    races and teams, and the first ten drivers: the test on the number of
    drivers changes nothing. When the [Season] column has no value the
    season widget starts empty, and the season filter is then off. *)
Theorem X13_default_selection df o s :
  sidebar_options df = Done o →
  columns df !! "Season" = Some s →
  sel_drivers (default_selection o) = take 10 (opt_drivers o)
  ∧ sel_races (default_selection o) = opt_races o
  ∧ sel_teams (default_selection o) = opt_teams o
  ∧ ((sel_seasons (default_selection o) = [] ∧ Forall (λ c, c = NA) s)
     ∨ ∃ m, sel_seasons (default_selection o) = [m]
            ∧ m ∈ s ∧ m ≠ NA
            ∧ ∀ x, x ∈ s → x ≠ NA → cell_leb x m = true).
Proof.
  intros ((s' & Hs' & Hopts) & _)%sidebar_options_Done Hs.
  rewrite Hs in Hs'. injection Hs' as <-.
  split; [|split; [done|split; [done|]]].
  - unfold default_selection. cbn [sel_drivers].
    destruct (10 <? length (opt_drivers o))%nat eqn:Hlen; [done|].
    apply Nat.ltb_ge in Hlen. by rewrite take_ge.
  - unfold default_selection. cbn [sel_seasons].
    destruct (opt_seasons o) as [|x l] eqn:Ho.
    + left. split; [done|]. apply Forall_forall. intros c Hc.
      destruct (decide (c = NA)) as [|Hna]; [done|].
      assert (c ∈ ([] : list cell)) as Hin
        by by apply (elem_of_column_options _ _ _ Hopts).
      by apply elem_of_nil in Hin.
    + right. cbn [nonempty].
      destruct (py_max (x :: l)) as [m|] eqn:Hm; [|done].
      apply py_max_spec in Hm as [Hin Hall].
      apply (elem_of_column_options _ _ _ Hopts) in Hin as [Hin Hna].
      exists m. repeat split; try done.
      intros y Hy Hyna. apply (proj1 (Forall_forall _ _) Hall).
      by apply (elem_of_column_options _ _ _ Hopts).
Qed.

(** X14. What the dashboard shows before the user touches a widget, for a
    file that has a race number, a driver and a team in every row, on
    either version of pandas: the rows of the largest season whose driver
    is among the first ten in alphabetical order. With at most ten drivers
    these are all the rows of that season. *)
Theorem X14_default_view ver raw df o season race m :
  wf raw →
  names_present raw →
  load_csv_on parse_numeric repr_num ver raw = Ok df →
  sidebar_options df = Done o →
  columns df !! "Season" = Some season →
  columns df !! "RaceNumber" = Some race →
  Forall (λ x, x ≠ NA) race →
  py_max (opt_seasons o) = Some m →
  dff df (default_selection o)
  = Ok (mask_rows df
          (zip_with andb (isin season [m])
             (if nonempty (take 10 (opt_drivers o))
              then column_mask df "Driver"
                     (λ x, bool_decide (x ∈ take 10 (opt_drivers o)))
              else all_rows df)))
  ∧ ((length (opt_drivers o) ≤ 10)%nat →
     dff df (default_selection o) = Ok (mask_rows df (isin season [m]))).
Proof.
  intros Hwf Hnames. rewrite load_csv_on_present by done.
  intros (pts & Hpts & ->)%load_csv_Ok Ho Hseason Hrace Hna Hm.
  pose proof (base_table_wf parse_numeric repr_num raw pts Hwf Hpts) as Hb.
  destruct (sidebar_options_Done _ _ Ho)
    as ((s' & Hs' & Hseasons) & (r' & Hr' & Hraces) & Hteams & Hdrivers).
  rewrite Hseason in Hs'. injection Hs' as <-.
  rewrite Hrace in Hr'. injection Hr' as <-.
  assert (sel_drivers (default_selection o) = take 10 (opt_drivers o)) as Hd.
  { unfold default_selection. cbn [sel_drivers].
    destruct (10 <? length (opt_drivers o))%nat eqn:Hlen; [done|].
    apply Nat.ltb_ge in Hlen. by rewrite take_ge. }
  assert (sel_seasons (default_selection o) = [m]) as Hsel.
  { unfold default_selection. cbn [sel_seasons].
    destruct (opt_seasons o); [done|]. cbn [nonempty]. by rewrite Hm. }
  assert (length season = nrows (base raw pts)) as Hlen
    by apply (Hb _ _ Hseason).
  assert (dff (base raw pts) (default_selection o)
          = Ok (mask_rows (base raw pts)
                  (zip_with andb (isin season [m])
                     (if nonempty (take 10 (opt_drivers o))
                      then column_mask (base raw pts) "Driver"
                             (λ x, bool_decide (x ∈ take 10 (opt_drivers o)))
                      else all_rows (base raw pts))))) as Heq.
  { destruct (filters_commute_intro (default_selection o) (base raw pts))
      as (_ & _ & ->); try done; try (by eexists).
    - rewrite base_IsDNF. by eexists.
    - rewrite base_Points. by eexists.
    - do 2 f_equal. unfold conjunction_mask, all_predicates.
      rewrite !fmap_cons, fmap_nil. cbn [foldr predicate_mask].
      rewrite Hsel, Hd. cbn [nonempty default_selection sel_races sel_teams
        include_dnfs only_points].
      unfold column_mask at 1. rewrite Hseason.
      rewrite <-(take_ge (opt_races o) (length (opt_races o))) by done.
      rewrite (mask_all_options _ "RaceNumber") by (by rewrite ?Hrace).
      rewrite <-(take_ge (opt_teams o) (length (opt_teams o))) by done.
      rewrite (mask_all_options _ "Constructor"); [|done..|].
      2:{ revert Hteams. rewrite base_stripped by auto.
          destruct (columns raw !! "Constructor"); [|done]. simpl.
          intros ?. split; [done|]. apply stripped_present. }
      assert (length (if nonempty (take 10 (opt_drivers o))
                      then column_mask (base raw pts) "Driver"
                             (λ x, bool_decide (x ∈ take 10 (opt_drivers o)))
                      else all_rows (base raw pts))
              = nrows (base raw pts)) as Hmd.
      { destruct (nonempty (take 10 (opt_drivers o)));
          [by apply column_mask_length|apply length_replicate]. }
      unfold all_rows in *.
      rewrite !(zip_andb_true_r _ (replicate _ true))
        by apply length_replicate.
      set (Md := if nonempty (take 10 (opt_drivers o)) then _ else _) in *.
      rewrite (zip_andb_true_r _ Md) by exact Hmd.
      by rewrite !(zip_andb_true_l _ Md) by exact Hmd. }
  split; [done|]. intros Hten. rewrite Heq. do 2 f_equal.
  rewrite (mask_all_options _ "Driver"); [|done..|].
  - unfold all_rows. apply zip_andb_true_r. unfold isin.
    by rewrite length_fmap.
  - revert Hdrivers. rewrite base_stripped by auto.
    destruct (columns raw !! "Driver"); [|done]. simpl.
    intros ?. split; [done|]. apply stripped_present.
Qed.

End Theorems.

Lemma X10_column_options_witness :
  (Forall (λ c, c = NA ∨ ∃ q, c = Num q) season_column
   ∨ Forall (λ c, c = NA ∨ ∃ t, c = Str t) season_column)
  ∧ ∃ opts, column_options season_column = Done opts
            ∧ Sorted cell_le opts
            ∧ NoDup opts
            ∧ ∀ x, x ∈ opts ↔ x ∈ season_column ∧ x ≠ NA.
Proof.
  assert (Forall (λ c, c = NA ∨ ∃ q, c = Num q) season_column
          ∨ Forall (λ c, c = NA ∨ ∃ t, c = Str t) season_column) as Hs.
  { left. unfold season_column.
    repeat (constructor; [(by left) || (right; by eexists)|]). constructor. }
  split; [exact Hs|].
  exact (proj1 (X10_column_options season_column) Hs).
Defined.

Lemma X11_all_options_keep_present_witness :
  ∃ s opts,
    column_options s = Done opts
    ∧ isin s opts = notna <$> s
    ∧ (wf tie_csv → columns tie_csv !! "Season" = Some s →
       Forall (λ x, x ≠ NA) s →
       mask_rows tie_csv (isin s opts) = tie_csv).
Proof.
  exists [int 2021; int 2021]. eexists.
  assert (column_options [int 2021; int 2021] = Done _) as Hopts
    by (vm_compute; reflexivity).
  split; [exact Hopts|].
  exact (X11_all_options_keep_present tie_csv "Season" _ _ Hopts).
Defined.

Lemma X12_sidebar_options_defined_witness :
  ∃ df s r,
    load_csv parse_digits show_int race_csv = Ok df
    ∧ columns race_csv !! "Season" = Some s
    ∧ columns race_csv !! "RaceNumber" = Some r
    ∧ (Forall (λ c, c = NA ∨ ∃ q, c = Num q) s
       ∨ Forall (λ c, c = NA ∨ ∃ t, c = Str t) s)
    ∧ (Forall (λ c, c = NA ∨ ∃ q, c = Num q) r
       ∨ Forall (λ c, c = NA ∨ ∃ t, c = Str t) r)
    ∧ ∃ o, sidebar_options df = Done o.
Proof.
  eexists. exists [int 2021; int 2021; int 2021; int 2021],
    [int 1; int 1; int 2; int 2].
  assert (load_csv parse_digits show_int race_csv = Ok _) as Hload
    by (vm_compute; reflexivity).
  assert (Forall (λ c, c = NA ∨ ∃ q, c = Num q)
            [int 2021; int 2021; int 2021; int 2021]
          ∨ Forall (λ c, c = NA ∨ ∃ t, c = Str t)
              [int 2021; int 2021; int 2021; int 2021]) as Hs.
  { left. repeat (constructor; [right; by eexists|]). constructor. }
  assert (Forall (λ c, c = NA ∨ ∃ q, c = Num q) [int 1; int 1; int 2; int 2]
          ∨ Forall (λ c, c = NA ∨ ∃ t, c = Str t)
              [int 1; int 1; int 2; int 2]) as Hr.
  { left. repeat (constructor; [right; by eexists|]). constructor. }
  split; [exact Hload|]. split; [reflexivity|]. split; [reflexivity|].
  split; [exact Hs|]. split; [exact Hr|].
  exact (X12_sidebar_options_defined parse_digits show_int _ _ _ _
           Hload eq_refl eq_refl Hs Hr).
Defined.

Lemma X13_default_selection_witness :
  ∃ o s,
    sidebar_options tie_csv = Done o
    ∧ columns tie_csv !! "Season" = Some s
    ∧ sel_drivers (default_selection o) = take 10 (opt_drivers o)
    ∧ sel_races (default_selection o) = opt_races o
    ∧ sel_teams (default_selection o) = opt_teams o
    ∧ ((sel_seasons (default_selection o) = [] ∧ Forall (λ c, c = NA) s)
       ∨ ∃ m, sel_seasons (default_selection o) = [m]
              ∧ m ∈ s ∧ m ≠ NA
              ∧ ∀ x, x ∈ s → x ≠ NA → cell_leb x m = true).
Proof.
  destruct (sidebar_options tie_csv) as [o|f] eqn:Ho;
    [|by vm_compute in Ho].
  exists o, [int 2021; int 2021]. split; [reflexivity|].
  split; [reflexivity|].
  exact (X13_default_selection tie_csv o _ Ho eq_refl).
Defined.

Lemma tie_csv_names_present : names_present tie_csv.
Proof.
  intros c col [-> | ->] Hc; vm_compute in Hc; [|discriminate Hc].
  injection Hc as <-. by repeat constructor.
Qed.

Lemma X14_default_view_witness :
  ∃ df o season race m,
    wf tie_csv
    ∧ names_present tie_csv
    ∧ load_csv_on parse_digits show_int Pandas3 tie_csv = Ok df
    ∧ sidebar_options df = Done o
    ∧ columns df !! "Season" = Some season
    ∧ columns df !! "RaceNumber" = Some race
    ∧ Forall (λ x, x ≠ NA) race
    ∧ py_max (opt_seasons o) = Some m
    ∧ dff df (default_selection o)
      = Ok (mask_rows df
              (zip_with andb (isin season [m])
                 (if nonempty (take 10 (opt_drivers o))
                  then column_mask df "Driver"
                         (λ x, bool_decide (x ∈ take 10 (opt_drivers o)))
                  else all_rows df)))
      ∧ ((length (opt_drivers o) ≤ 10)%nat →
         dff df (default_selection o) = Ok (mask_rows df (isin season [m]))).
Proof.
  destruct (load_csv_on parse_digits show_int Pandas3 tie_csv)
    as [df|e] eqn:Hload; [|by vm_compute in Hload].
  assert (Hv := Hload). vm_compute in Hv. injection Hv as Hv.
  destruct (sidebar_options df) as [o|f] eqn:Ho.
  2:{ exfalso. rewrite <-Hv in Ho. vm_compute in Ho. discriminate Ho. }
  assert (columns df !! "Season" = Some [int 2021; int 2021]) as HS
    by (rewrite <-Hv; vm_compute; reflexivity).
  assert (columns df !! "RaceNumber" = Some [int 1; int 1]) as HR
    by (rewrite <-Hv; vm_compute; reflexivity).
  assert (Forall (λ x, x ≠ NA) [int 1; int 1]) as Hna
    by (repeat (constructor; [discriminate|]); constructor).
  assert (py_max (opt_seasons o) = Some (int 2021)) as Hm.
  { assert (Hw := Ho). rewrite <-Hv in Hw. vm_compute in Hw.
    injection Hw as Hw. rewrite <-Hw. vm_compute. reflexivity. }
  exists df, o, [int 2021; int 2021], [int 1; int 1], (int 2021).
  split; [exact LoadMore.tie_csv_wf|]. split; [exact tie_csv_names_present|].
  split; [reflexivity|].
  split; [exact Ho|]. split; [exact HS|]. split; [exact HR|].
  split; [exact Hna|]. split; [exact Hm|].
  exact (X14_default_view parse_digits show_int Pandas3 _ _ _ _ _ _
           LoadMore.tie_csv_wf tie_csv_names_present Hload Ho HS HR Hna Hm).
Defined.

End WidgetTheorems.

(** ** The indicators and the chart tables *)

Module IndicatorTheorems.
Import Pandas App Loaded Design Samples Dashboard DashboardSamples.
Import PandasFacts LoadFacts SortFacts FilterFacts GroupFacts.
Import LoadTheorems FilterTheorems FilterMore WidgetTheorems.

Lemma py_int_of_Z z : py_int (Qc_of_Z z) = z.
Proof. unfold py_int. simpl. apply Z.quot_1_r. Qed.

(** The sum of a boolean column counts its [True] cells. *)
Lemma series_sum_bools (s : Series) :
  Forall (λ c, ∃ b, c = Bool b) s →
  series_sum s
  = Qc_of_Z (Z.of_nat (length (filter (λ c, c = Bool true) s))).
Proof.
  induction 1 as [|c s [b ->] _ IH]; [by apply Qc_is_canon|].
  rewrite series_sum_cons, IH, filter_cons. destruct b; cbn [cell_val].
  - rewrite decide_True by done. cbn [length].
    by rewrite Nat2Z.inj_succ, <-Z.add_1_l, Z2Qc_inj_add, Z2Qc_inj_1.
  - rewrite decide_False by done. ring.
Qed.

Lemma length_filter_le {A} (P : A → Prop) `{!∀ x, Decision (P x)} l :
  (length (filter P l) ≤ length l)%nat.
Proof.
  induction l as [|x l IH]; [done|]. rewrite filter_cons.
  destruct (decide (P x)); simpl; lia.
Qed.

(** The keys that [groupby] keeps for a single grouping column. *)
Lemma dropna_singleton_keys {V} (k : Series) (v : list V) :
  length k = length v →
  (dropna_keys (zip ((λ x, [x]) <$> k) v)).*1 = (λ x, [x]) <$> dropna k.
Proof.
  revert v. induction k as [|x k IH]; intros [|y v] Hlen; simpl in *;
    try done.
  unfold dropna_keys, dropna in *. rewrite !filter_cons. simpl.
  rewrite orb_false_r.
  destruct (decide (isna x = false)); simpl; rewrite IH; auto.
Qed.

(** [groupby] on one column returns one group for each value that
    [nunique] counts. *)
Lemma length_groupby_sum (k v : Series) :
  length k = length v →
  length (groupby_sum (zip ((λ x, [x]) <$> k) v)) = nunique k.
Proof.
  intros Hlen. unfold groupby_sum, group_keys, nunique.
  rewrite length_fmap, length_stable_sort, dropna_singleton_keys by done.
  rewrite <-(length_fmap (λ x : cell, [x]) (unique (dropna k))).
  apply Permutation_length, NoDup_Permutation.
  - apply NoDup_remove_dups.
  - apply NoDup_fmap_2; [by intros x y [= ->]|apply NoDup_unique].
  - intros x. rewrite elem_of_remove_dups, !list_elem_of_fmap.
    by setoid_rewrite elem_of_unique.
Qed.

Lemma points_by_Some c d k v :
  columns d !! c = Some k → columns d !! "Points" = Some v →
  points_by c d = Ok (groupby_sum (zip ((λ x, [x]) <$> k) v)).
Proof.
  intros Hk Hv. unfold points_by.
  by rewrite (getitem_Some _ _ _ Hk), (getitem_Some _ _ _ Hv).
Qed.

Lemma ranking_Some c d k v :
  columns d !! c = Some k → columns d !! "Points" = Some v →
  ranking c d
  = Ok (sort_values_desc snd (groupby_sum (zip ((λ x, [x]) <$> k) v))).
Proof. intros Hk Hv. unfold ranking. by rewrite (points_by_Some c d k v). Qed.

(** The head of a ranking. *)
Lemma top_ranking_intro n rows :
  top_ranking n rows (take n (sort_values_desc snd (groupby_sum rows))).
Proof.
  exists (sort_values_desc snd (groupby_sum rows)).
  split; [done|]. split; [apply sort_values_desc_Sorted|].
  assert (Hperm := sort_values_desc_Permutation snd (groupby_sum rows)).
  split; [|split].
  - rewrite Hperm, groupby_sum_keys. apply NoDup_group_keys.
  - intros k. rewrite Hperm, groupby_sum_keys. apply elem_of_group_keys.
  - intros k t. rewrite Hperm. by intros [_ ->]%elem_of_groupby_sum.
Qed.

Section Theorems.
Variable parse_numeric : string → option Qc.
Variable repr_num : Qc → string.

Local Abbreviation base := (base_table parse_numeric repr_num).

Lemma IsDNF_bools raw :
  Forall (λ c, ∃ b, c = Bool b) (IsDNF parse_numeric repr_num raw).
Proof.
  unfold IsDNF. destruct (columns raw !! "Time/Retired");
    apply Forall_fmap, Forall_true; intros b; by exists b.
Qed.

(** X15. The DNF indicator is the number of rows of the view whose [IsDNF]
    is true: a whole number between zero and the number of rows, and zero
    as soon as DNFs are excluded. *)
Theorem X15_kpi_dnfs_counts raw sel d :
  wf raw →
  filtered parse_numeric repr_num raw sel = Ok d →
  ∃ dnf n,
    columns d !! "IsDNF" = Some dnf
    ∧ kpi_dnfs d = Ok (Z.of_nat n)
    ∧ n = length (filter (λ c, c = Bool true) dnf)
    ∧ (n ≤ nrows d)%nat
    ∧ (include_dnfs sel = false → n = 0%nat).
Proof.
  intros Hwf Hd.
  destruct (filtered_mask parse_numeric repr_num raw sel d Hwf Hd)
    as (pts & Hpts & HS & HR & Hdeq).
  pose proof (base_table_wf parse_numeric repr_num raw pts Hwf Hpts) as Hb.
  assert (wf d) as Hwfd by (rewrite Hdeq; by apply mask_rows_wf).
  assert (∃ dnf, columns d !! "IsDNF" = Some dnf
                 ∧ Forall (λ c, ∃ b, c = Bool b) dnf) as (dnf & Hdnf & Hbool).
  { rewrite Hdeq, mask_rows_lookup, base_IsDNF. eexists. split; [done|].
    apply Forall_bool_index, IsDNF_bools. }
  exists dnf, (length (filter (λ c, c = Bool true) dnf)).
  split; [done|]. split; [|split; [done|split]].
  - unfold kpi_dnfs. rewrite (getitem_Some _ _ _ Hdnf). cbn [bind].
    by rewrite series_sum_bools, py_int_of_Z.
  - rewrite <-(Hwfd _ _ Hdnf). apply length_filter_le.
  - intros Hsel.
    assert (Forall (λ x, cell_not x = true) dnf) as Hnot.
    { apply (filtered_cells parse_numeric repr_num raw sel d ByDnf "IsDNF" cell_not dnf);
        try done.
      intros df. simpl. by rewrite Hsel. }
    clear Hdnf Hbool. induction Hnot as [|x l Hx _ IH]; [done|].
    rewrite filter_cons, decide_False; [done|]. by intros ->.
Qed.

(** X16. The driver and team indicators count the groups of the rankings:
    the indicator is the number of bars the ranking has before its [head],
    so the chart shows [min 20] (or [min 12]) of that number. *)
Theorem X16_kpi_counts_groups d c k v :
  wf d →
  columns d !! c = Some k →
  columns d !! "Points" = Some v →
  ∃ groups n,
    points_by c d = Ok groups
    ∧ kpi_nunique c d = Some n
    ∧ length groups = n
    ∧ (c = "Driver" → ∃ out, by_driver d = Ok out ∧ length out = (20 `min` n)%nat)
    ∧ (c = "Constructor" →
       ∃ out, by_team d = Ok out ∧ length out = (12 `min` n)%nat).
Proof.
  intros Hwf Hk Hv.
  assert (length k = length v) as Hlen
    by by rewrite (Hwf _ _ Hk), (Hwf _ _ Hv).
  exists (groupby_sum (zip ((λ x, [x]) <$> k) v)), (nunique k).
  split; [by apply points_by_Some|]. split.
  { unfold kpi_nunique. rewrite (has_column_true _ _ _ Hk). by rewrite Hk. }
  split; [by apply length_groupby_sum|].
  split; intros ->; eexists.
  - unfold by_driver. rewrite (ranking_Some _ _ _ _ Hk Hv). cbn [bind].
    split; [done|].
    by rewrite length_take, (Permutation_length
      (sort_values_desc_Permutation _ _)), length_groupby_sum.
  - unfold by_team. rewrite (ranking_Some _ _ _ _ Hk Hv). cbn [bind].
    split; [done|].
    by rewrite length_take, (Permutation_length
      (sort_values_desc_Permutation _ _)), length_groupby_sum.
Qed.

(** X17. [by_team] is the top 12 of the teams ranked by their summed
    points. When no row of the file lacks a team, the view has at most 12
    teams and its points are whole numbers that add up to at most [2^53],
    the bars add up to the points indicator. *)
Theorem X17_by_team_ranks ver raw sel d teams :
  wf raw →
  filtered_on parse_numeric repr_num ver raw sel = Ok d →
  columns d !! "Constructor" = Some teams →
  ∃ points out total,
    columns d !! "Points" = Some points
    ∧ by_team d = Ok out
    ∧ top_ranking 12 (zip ((λ x, [x]) <$> teams) points) out
    ∧ kpi_points d = Ok total
    ∧ (name_cells_present "Constructor" raw → exact_column points →
       (nunique teams ≤ 12)%nat → sumQc out.*2 = total).
Proof.
  intros Hwf Hd Hk.
  destruct (filtered_on_view parse_numeric repr_num ver raw sel d Hwf Hd)
    as (Hwfd & [v Hv] & Hpresent).
  assert (length teams = length v) as Hlen
    by by rewrite (Hwfd _ _ Hk), (Hwfd _ _ Hv).
  set (rows := zip ((λ x, [x]) <$> teams) v).
  exists v, (take 12 (sort_values_desc snd (groupby_sum rows))),
    (series_sum v).
  split; [done|]. split.
  { unfold by_team. by rewrite (ranking_Some _ _ _ _ Hk Hv). }
  split; [apply top_ranking_intro|]. split.
  { unfold kpi_points. by rewrite (getitem_Some _ _ _ Hv). }
  intros Hraw _ Hn.
  pose proof (Hpresent "Constructor" (or_intror eq_refl) Hraw) as Hna.
  rewrite take_ge.
  - rewrite (sumQc_Permutation _ (groupby_sum rows).*2)
      by by rewrite sort_values_desc_Permutation.
    rewrite groupby_sum_total, dropna_keys_all.
    + unfold rows. rewrite snd_zip; [done|]. rewrite length_fmap. lia.
    + apply singleton_keys_present. by apply Hna.
  - rewrite (Permutation_length (sort_values_desc_Permutation _ _)).
    unfold rows. by rewrite length_groupby_sum.
Qed.

End Theorems.

Lemma X15_kpi_dnfs_counts_witness :
  ∃ d, wf race_csv
       ∧ filtered parse_digits show_int race_csv finishers_only = Ok d
       ∧ ∃ dnf n,
           columns d !! "IsDNF" = Some dnf
           ∧ kpi_dnfs d = Ok (Z.of_nat n)
           ∧ n = length (filter (λ c, c = Bool true) dnf)
           ∧ (n ≤ nrows d)%nat
           ∧ (include_dnfs finishers_only = false → n = 0%nat).
Proof.
  destruct (filtered parse_digits show_int race_csv finishers_only)
    as [d|e] eqn:Hd; [|by vm_compute in Hd].
  exists d. split; [exact race_csv_wf|]. split; [reflexivity|].
  exact (X15_kpi_dnfs_counts parse_digits show_int _ _ _ race_csv_wf Hd).
Defined.

Lemma X16_kpi_counts_groups_witness :
  ∃ k v,
    wf tie_csv
    ∧ columns tie_csv !! "Driver" = Some k
    ∧ columns tie_csv !! "Points" = Some v
    ∧ ∃ groups n,
        points_by "Driver" tie_csv = Ok groups
        ∧ kpi_nunique "Driver" tie_csv = Some n
        ∧ length groups = n
        ∧ ("Driver" = "Driver" →
           ∃ out, by_driver tie_csv = Ok out
                  ∧ length out = (20 `min` n)%nat)
        ∧ ("Driver" = "Constructor" →
           ∃ out, by_team tie_csv = Ok out
                  ∧ length out = (12 `min` n)%nat).
Proof.
  exists [Str "Verstappen"; Str "Hamilton"], [int 25; int 25].
  split; [exact LoadMore.tie_csv_wf|]. split; [reflexivity|].
  split; [reflexivity|].
  exact (X16_kpi_counts_groups tie_csv "Driver" _ _
           LoadMore.tie_csv_wf eq_refl eq_refl).
Defined.

Lemma X17_by_team_ranks_witness :
  ∃ d teams,
    wf race_csv
    ∧ filtered_on parse_digits show_int Pandas3 race_csv no_filter = Ok d
    ∧ columns d !! "Constructor" = Some teams
    ∧ ∃ points out total,
        columns d !! "Points" = Some points
        ∧ by_team d = Ok out
        ∧ top_ranking 12 (zip ((λ x, [x]) <$> teams) points) out
        ∧ kpi_points d = Ok total
        ∧ (name_cells_present "Constructor" race_csv →
           exact_column points →
           (nunique teams ≤ 12)%nat → sumQc out.*2 = total).
Proof.
  destruct (filtered_on parse_digits show_int Pandas3 race_csv no_filter)
    as [d|e] eqn:Hd; [|by vm_compute in Hd].
  destruct (columns d !! "Constructor") as [teams|] eqn:Hk.
  2:{ exfalso. assert (Hv := Hd). vm_compute in Hv. injection Hv as Hv.
      rewrite <-Hv in Hk. vm_compute in Hk. discriminate Hk. }
  exists d, teams. split; [exact race_csv_wf|].
  split; [reflexivity|]. split; [exact Hk|].
  exact (X17_by_team_ranks parse_digits show_int Pandas3 _ _ _ _ race_csv_wf
           Hd Hk).
Defined.

End IndicatorTheorems.

(** ** The tables of the scatter plots and of the standings *)

Module TableTheorems.
Import Pandas App Loaded Design Samples Dashboard DashboardSamples.
Import PandasFacts LoadFacts SortFacts FilterFacts GroupFacts.
Import LoadTheorems FilterTheorems FilterMore WidgetTheorems.
Import IndicatorTheorems.

Lemma bool_index_zip_with {A B C} (f : A → B → C) m a b :
  bool_index m (zip_with f a b)
  = zip_with f (bool_index m a) (bool_index m b).
Proof.
  revert a b. induction m as [|x m IH]; intros [|y a] [|z b]; simpl;
    try done.
  - destruct x; simpl; by rewrite ?zip_with_nil_r.
  - destruct x; simpl; by rewrite IH.
Qed.

(** The difference of two float columns has a value where both have
    one. *)
Lemma notna_series_sub a b :
  Forall float_cell a → Forall float_cell b →
  notna <$> series_sub a b = zip_with andb (notna <$> a) (notna <$> b).
Proof.
  intros Ha. revert b. induction Ha as [|x a Hx _ IH]; intros b Hb; [done|].
  destruct Hb as [|y b Hy Hb]; [done|].
  cbn [series_sub zip_with fmap list_fmap]. unfold series_sub in IH.
  rewrite (IH b Hb). f_equal.
  by destruct Hx as [->|[? ->]], Hy as [->|[? ->]].
Qed.

Lemma getitems_Ok d subset cols :
  getitems d subset = Ok cols →
  Forall2 (λ c s, columns d !! c = Some s) subset cols.
Proof.
  revert cols. induction subset as [|c subset IH]; intros cols; simpl.
  - intros [= <-]. constructor.
  - intros (s & Hs%getitem_Ok & (rest & Hrest & [= <-])%bind_Ok)%bind_Ok.
    constructor; auto.
Qed.

Lemma getitems_Some d subset cols :
  Forall2 (λ c s, columns d !! c = Some s) subset cols →
  getitems d subset = Ok cols.
Proof.
  induction 1 as [|c s subset cols Hc _ IH]; simpl; [done|].
  by rewrite (getitem_Some _ _ _ Hc), IH.
Qed.

Lemma length_notna_mask n cols :
  Forall (λ s : Series, length s = n) cols → length (notna_mask n cols) = n.
Proof.
  induction 1 as [|s cols Hs _ IH]; [apply length_replicate|].
  unfold notna_mask in *. cbn [foldr].
  rewrite length_zip_with, length_fmap, IH, Hs. lia.
Qed.

(** [dropna] on a restriction of a table. *)
Lemma notna_mask_masked m n cols :
  length m = n →
  bool_index m (notna_mask n cols)
  = notna_mask (length (bool_index m (replicate n ())))
      (bool_index m <$> cols).
Proof.
  intros Hm. induction cols as [|s cols IH].
  - subst n. unfold notna_mask. cbn [fmap list_fmap foldr]. clear.
    induction m as [|[] m IH]; simpl; by rewrite ?IH.
  - unfold notna_mask in *. rewrite fmap_cons. cbn [foldr].
    by rewrite bool_index_zip_with, IH, bool_index_fmap.
Qed.

Section Theorems.
Variable parse_numeric : string → option Qc.
Variable repr_num : Qc → string.

Local Abbreviation base := (base_table parse_numeric repr_num).

(** The three columns of the racecraft charts in a restriction of the base
    table. *)
Lemma racecraft_columns raw pts m :
  ∃ grid pos,
    columns (mask_rows (base raw pts) m) !! "Grid_num" = Some grid
    ∧ columns (mask_rows (base raw pts) m) !! "Pos_num" = Some pos
    ∧ columns (mask_rows (base raw pts) m) !! "PosGain"
      = Some (series_sub grid pos)
    ∧ Forall float_cell grid ∧ Forall float_cell pos.
Proof.
  exists (bool_index m (Grid_num parse_numeric raw)),
    (bool_index m (Pos_num parse_numeric raw)).
  rewrite !mask_rows_lookup, base_Grid_num, base_Pos_num, base_PosGain.
  repeat split; try done.
  - unfold PosGain, series_sub. simpl. by rewrite bool_index_zip_with.
  - apply Forall_bool_index, LoadMore.numeric_or_nan_float.
  - apply Forall_bool_index, LoadMore.numeric_or_nan_float.
Qed.

(** X18. The histogram of the positions gained is drawn from rows of the
    scatter plot of grid against finish: the table of the histogram is the
    table of the scatter plot without the rows that have no [PosGain], so
    that a row with a [PosGain] has both a [Grid_num] and a [Pos_num]. *)
Theorem X18_scatter_rows_are_gain_rows raw sel d :
  wf raw →
  filtered parse_numeric repr_num raw sel = Ok d →
  ∃ s t,
    scat d = Ok s
    ∧ posgain_rows d = Ok t
    ∧ dropna_subset s ["PosGain"] = Ok t
    ∧ (nrows t ≤ nrows s)%nat.
Proof.
  intros Hwf (pts & Hpts & HS & HR & ->)%filtered_mask; [|done].
  destruct (racecraft_columns raw pts
              (conjunction_mask sel (base raw pts)))
    as (grid & pos & Hg & Hp & Hgain & Hfg & Hfp).
  set (d := mask_rows (base raw pts) (conjunction_mask sel (base raw pts)))
    in *.
  assert (wf d) as Hwfd by (by apply mask_rows_wf, base_table_wf).
  set (M := notna_mask (nrows d) [grid; pos]).
  assert (notna_mask (nrows d) [series_sub grid pos] = M) as HM.
  { unfold M, notna_mask. cbn [foldr].
    by rewrite notna_series_sub, zip_andb_assoc. }
  assert (length M = nrows d) as HlenM.
  { apply length_notna_mask. repeat constructor.
    - apply (Hwfd _ _ Hg).
    - apply (Hwfd _ _ Hp). }
  exists (mask_rows d M), (mask_rows d M).
  split; [|split; [|split; [|done]]].
  - unfold scat, dropna_subset.
    by rewrite (getitems_Some _ ["Grid_num"; "Pos_num"] [grid; pos])
      by (repeat constructor; done).
  - unfold posgain_rows, dropna_subset.
    rewrite (getitems_Some _ ["PosGain"] [series_sub grid pos])
      by (repeat constructor; done).
    cbn [bind]. by rewrite HM.
  - unfold dropna_subset.
    rewrite (getitems_Some _ ["PosGain"] [bool_index M (series_sub grid pos)])
      by (repeat constructor; by rewrite mask_rows_lookup, Hgain).
    cbn [bind]. f_equal.
    change (nrows (mask_rows d M))
      with (length (bool_index M (replicate (nrows d) ()))).
    change [bool_index M (series_sub grid pos)]
      with (bool_index M <$> [series_sub grid pos]).
    rewrite <-notna_mask_masked by done.
    by rewrite HM, mask_rows_compose, zip_andb_diag.
Qed.

(** X19. [dropna] on two columns is [dropna] on the one and then on the
    other: the rows of the pit-stop scatter plot are those rows of the box
    plot that also have a number of pit stops. *)
Theorem X19_pitstop_pairs_refine d t :
  wf d →
  is_Some (columns d !! "NPitstops") →
  pitstop_durations d = Ok t →
  pitstop_pairs d = dropna_subset t ["NPitstops"]
  ∧ ∃ t', pitstop_pairs d = Ok t' ∧ (nrows t' ≤ nrows t)%nat.
Proof.
  intros Hwf [np Hnp]. unfold pitstop_durations, pitstop_pairs, dropna_subset.
  intros (cols & Hcols%getitems_Ok & [= <-])%bind_Ok.
  apply Forall2_cons_inv_l in Hcols as (md & ? & Hmd & ->%Forall2_nil_inv_l & ->).
  rewrite (getitems_Some _ ["NPitstops"; "MedianPitStopDuration"] [np; md])
    by (repeat constructor; done).
  rewrite (getitems_Some _ ["NPitstops"] [bool_index _ np])
    by (repeat constructor; by rewrite mask_rows_lookup, Hnp).
  cbn [bind].
  assert (length (notna_mask (nrows d) [md]) = nrows d) as Hlen.
  { apply length_notna_mask. repeat constructor. apply (Hwf _ _ Hmd). }
  assert (notna_mask (nrows d) [np; md]
          = zip_with andb (notna_mask (nrows d) [md])
              (notna_mask (nrows d) [np])) as Hmask.
  { unfold notna_mask. cbn [foldr].
    set (R := replicate (nrows d) true).
    by rewrite (zip_andb_comm (zip_with andb (notna <$> md) R)),
      (zip_andb_assoc (notna <$> np) R),
      (zip_andb_comm R (zip_with andb (notna <$> md) R)),
      (zip_andb_assoc (notna <$> md) R R), zip_andb_diag. }
  assert (mask_rows d (notna_mask (nrows d) [np; md])
          = mask_rows (mask_rows d (notna_mask (nrows d) [md]))
              (notna_mask (nrows (mask_rows d (notna_mask (nrows d) [md])))
                 [bool_index (notna_mask (nrows d) [md]) np])) as Heq.
  { rewrite Hmask, <-mask_rows_compose. f_equal.
    by rewrite notna_mask_masked. }
  split; [by rewrite Heq|]. eexists. split; [done|]. rewrite Heq.
  unfold mask_rows at 1. cbn [nrows].
  etrans; [apply length_bool_index_le|]. by rewrite length_replicate.
Qed.

(** X20. The pit-stop charts are drawn exactly when the file has the two
    pit-stop columns, whatever the filters select. *)
Theorem X20_pitstops_shown_iff raw sel d :
  filtered parse_numeric repr_num raw sel = Ok d →
  pitstops_shown d
  = has_column raw "NPitstops" && has_column raw "MedianPitStopDuration".
Proof.
  intros (pts & Hpts & Hd)%filtered_Ok.
  assert (∀ c, c = "NPitstops" ∨ c = "MedianPitStopDuration" →
               has_column d c = has_column raw c) as Hc.
  { intros c Hc.
    apply (dff_preserves
             (λ d, has_column d c = has_column raw c) sel (base raw pts) d);
      [|clear Hd|done].
    - intros d0 m <-. apply mask_rows_has_column.
    - unfold has_column, base_table, base_columns. cbn [columns].
      destruct Hc as [->| ->]; lookup_other;
        apply bool_decide_ext; by rewrite fmap_is_Some. }
  unfold pitstops_shown. by rewrite !Hc by auto.
Qed.

End Theorems.

Lemma X18_scatter_rows_are_gain_rows_witness :
  ∃ d, wf race_csv
       ∧ filtered parse_digits show_int race_csv no_filter = Ok d
       ∧ ∃ s t,
           scat d = Ok s
           ∧ posgain_rows d = Ok t
           ∧ dropna_subset s ["PosGain"] = Ok t
           ∧ (nrows t ≤ nrows s)%nat.
Proof.
  destruct (filtered parse_digits show_int race_csv no_filter)
    as [d|e] eqn:Hd; [|by vm_compute in Hd].
  exists d. split; [exact race_csv_wf|]. split; [reflexivity|].
  exact (X18_scatter_rows_are_gain_rows parse_digits show_int _ _ _
           race_csv_wf Hd).
Defined.

Lemma X19_pitstop_pairs_refine_witness :
  ∃ t, wf pit_csv
       ∧ is_Some (columns pit_csv !! "NPitstops")
       ∧ pitstop_durations pit_csv = Ok t
       ∧ pitstop_pairs pit_csv = dropna_subset t ["NPitstops"]
       ∧ ∃ t', pitstop_pairs pit_csv = Ok t' ∧ (nrows t' ≤ nrows t)%nat.
Proof.
  destruct (pitstop_durations pit_csv) as [t|e] eqn:Ht;
    [|by vm_compute in Ht].
  assert (is_Some (columns pit_csv !! "NPitstops")) as Hnp
    by (vm_compute; by eexists).
  exists t. split; [exact LoadMore.pit_csv_wf|]. split; [exact Hnp|].
  split; [reflexivity|].
  exact (X19_pitstop_pairs_refine _ _ LoadMore.pit_csv_wf Hnp Ht).
Defined.

Lemma X20_pitstops_shown_iff_witness :
  ∃ d, filtered parse_digits show_int pit_csv no_filter = Ok d
       ∧ pitstops_shown d
         = has_column pit_csv "NPitstops"
           && has_column pit_csv "MedianPitStopDuration".
Proof.
  destruct (filtered parse_digits show_int pit_csv no_filter)
    as [d|e] eqn:Hd; [|by vm_compute in Hd].
  exists d. split; [reflexivity|].
  exact (X20_pitstops_shown_iff parse_digits show_int _ _ _ Hd).
Defined.

End TableTheorems.

(** ** The standings table *)

Module StandingsMore.
Import Pandas App Loaded Design Samples Dashboard DashboardSamples.
Import PandasFacts LoadFacts SortFacts FilterFacts GroupFacts.
Import LoadTheorems FilterTheorems StandingsTheorems FilterMore.
Import WidgetTheorems IndicatorTheorems.

(** The running sum of a row is the sum of the rows of its group up to and
    including it, on top of what the group had before. *)
Lemma groupby_cumsum_go_running (seen rows : list (key * Qc)) j k v :
  rows !! j = Some (k, v) → key_has_na k = false →
  groupby_cumsum_go seen rows !! j
  = Some (Num (sumQc (group_rows seen k)
               + sumQc (group_rows (take (S j) rows) k))).
Proof.
  revert seen j. induction rows as [|[k0 v0] rows IH]; intros seen j; [done|].
  rewrite groupby_cumsum_go_cons. destruct j as [|j].
  - intros [= -> ->] ->. cbn [lookup list_lookup].
    rewrite firstn_cons, take_0.
    rewrite group_sum_cons, group_rows_nil. cbn [fst snd].
    rewrite decide_True by done. do 2 f_equal.
    change (sumQc []) with 0. ring.
  - cbn [lookup list_lookup]. intros Hj Hk.
    rewrite firstn_cons.
    rewrite (group_sum_cons (k0, v0) (take (S j) rows)). cbn [fst snd].
    destruct (key_has_na k0) eqn:Hk0; cbn [lookup list_lookup].
    + etrans; [apply (IH seen j Hj Hk)|].
      rewrite decide_False by congruence. do 2 f_equal. ring.
    + etrans; [apply (IH ((k0, v0) :: seen) j Hj Hk)|].
      rewrite group_sum_cons. cbn [fst snd]. do 2 f_equal. ring.
Qed.

Lemma season_driver_rows grouped cum :
  length cum = length grouped →
  Forall (λ r : key * Qc, ∃ s k d, r.1 = [s; k; d]) grouped →
  season_driver_row <$> zip_with to_standing grouped cum
  = (λ r : key * Qc, (season_driver r.1, r.2)) <$> grouped.
Proof.
  intros Hlen Hg. revert cum Hlen.
  induction Hg as [|[k t] grouped (s & rk & dr & Hk) _ IH];
    intros [|c cum] Hlen; simpl in *; try done.
  subst k. rewrite IH by lia. done.
Qed.

Lemma group_rows_season_driver (l : list standing) s dr :
  group_rows (season_driver_row <$> l) [s; dr]
  = st_Points <$> filter (λ r, st_Season r = s ∧ st_Driver r = dr) l.
Proof.
  induction l as [|r l IH]; [done|].
  rewrite fmap_cons, group_rows_cons, filter_cons, IH.
  unfold season_driver_row at 1 2. cbn [fst snd].
  destruct (decide (st_Season r = s ∧ st_Driver r = dr)) as [[<- <-]|Hne].
  - by rewrite decide_True.
  - rewrite decide_False; [done|]. intros [= ? ?]. by apply Hne.
Qed.

Lemma elem_of_take_1 {A} n (l : list A) x : x ∈ take n l → x ∈ l.
Proof.
  intros (i & Hi & _)%elem_of_take. by eapply list_elem_of_lookup_2.
Qed.

(** The groups of [groupby("Driver")] on the standings. *)
Lemma elem_of_driver_totals dp k t :
  (k, t) ∈ driver_totals dp →
  ∃ r, r ∈ dp ∧ k = [st_Driver r] ∧ st_Driver r ≠ NA.
Proof.
  unfold driver_totals. intros [Hk _]%elem_of_groupby_sum.
  apply elem_of_group_keys in Hk as [Hk Hna].
  apply list_elem_of_fmap in Hk as ([k' c] & -> & Hin).
  apply list_elem_of_fmap in Hin as (r & [= -> ->] & Hr).
  exists r. split; [done|]. split; [done|].
  intros Heq. unfold key_has_na in Hna. simpl in Hna. by rewrite Heq in Hna.
Qed.

Lemma driver_totals_key dp r :
  r ∈ dp → st_Driver r ≠ NA → [st_Driver r] ∈ (driver_totals dp).*1.
Proof.
  intros Hr Hna. unfold driver_totals.
  rewrite groupby_sum_keys, elem_of_group_keys. split.
  - apply list_elem_of_fmap. exists ([st_Driver r], Num (st_Points r)).
    split; [done|]. apply list_elem_of_fmap. by exists r.
  - unfold key_has_na. simpl. by destruct (st_Driver r).
Qed.

Lemma driver_totals_functional dp k t1 t2 :
  (k, t1) ∈ driver_totals dp → (k, t2) ∈ driver_totals dp → t1 = t2.
Proof.
  unfold driver_totals.
  by intros [_ ->]%elem_of_groupby_sum [_ ->]%elem_of_groupby_sum.
Qed.

Lemma elem_of_top_drivers dp x :
  x ∈ top_drivers dp
  ↔ ∃ t, ([x], t) ∈ take 8 (sort_values_desc snd (driver_totals dp)).
Proof.
  unfold top_drivers. rewrite list_elem_of_fmap. split.
  - intros (k & -> & ([k' t] & -> & Hin)%list_elem_of_fmap). simpl.
    assert ((k', t) ∈ driver_totals dp) as Hk.
    { rewrite <-(sort_values_desc_Permutation snd).
      by eapply elem_of_take_1. }
    apply elem_of_driver_totals in Hk as (r & _ & -> & _). by exists t.
  - intros [t Hin]. exists [x]. split; [done|].
    apply list_elem_of_fmap. by exists ([x], t).
Qed.

Section Theorems.
Variable parse_numeric : string → option Qc.

Lemma driver_points_Ok d out :
  driver_points parse_numeric d = Ok out →
  ∃ season race driver points,
    columns d !! "Season" = Some season
    ∧ columns d !! "RaceNumber" = Some race
    ∧ columns d !! "Driver" = Some driver
    ∧ columns d !! "Points" = Some points
    ∧ out = standings_of parse_numeric season race driver points.
Proof.
  intros Hout. pose proof Hout as Hrest. unfold driver_points in Hrest.
  apply bind_Ok in Hrest as (race & Hrace%getitem_Ok & Hrest).
  cbn [to_numeric setitem_value] in Hrest.
  apply bind_Ok in Hrest as (season & Hseason%getitem_Ok & Hrest).
  apply bind_Ok in Hrest as (rk & _ & Hrest).
  apply bind_Ok in Hrest as (driver & Hdriver%getitem_Ok & Hrest).
  apply bind_Ok in Hrest as (points & Hpoints%getitem_Ok & _).
  unfold setitem in *. cbn [columns] in *.
  rewrite lookup_insert_ne in Hseason, Hdriver, Hpoints by done.
  exists season, race, driver, points.
  repeat (split; [done|]).
  rewrite (driver_points_eq parse_numeric d season race driver points)
    in Hout by done.
  by injection Hout.
Qed.

Local Abbreviation race_rows season race driver points :=
  (zip (zip3 season (to_numeric_cell parse_numeric <$> race) driver) points).

Lemma grouped_triples (season race driver points : Series) :
  Forall (λ r : key * Qc, ∃ s k d, r.1 = [s; k; d])
    (groupby_sum (race_rows season race driver points)).
Proof.
  apply Forall_forall. intros [k t] [Hk _]%elem_of_groupby_sum.
  apply elem_of_group_keys in Hk as [Hk _].
  apply list_elem_of_fmap in Hk as ([k' c] & -> & Hin).
  apply elem_of_zip_l, elem_of_zip3 in Hin as (s & r & dr & -> & _).
  by exists s, r, dr.
Qed.

(** X21. [CumPoints] is a running sum: in every row of the standings it is
    the sum of the points of the rows of the same season and driver from
    the top of the table down to that row. *)
Theorem X21_cum_points_running_sum d out i r :
  driver_points parse_numeric d = Ok out →
  out !! i = Some r →
  st_CumPoints r
  = Num (sumQc (st_Points <$>
                  filter (λ r', st_Season r' = st_Season r
                                ∧ st_Driver r' = st_Driver r)
                         (take (S i) out))).
Proof.
  intros (season & race & driver & points & _ & _ & _ & _ & ->)%driver_points_Ok.
  unfold standings_of.
  set (rows := race_rows season race driver points).
  set (crows := (λ r : key * Qc, (season_driver r.1, r.2)) <$> groupby_sum rows).
  intros Hr.
  assert (season_driver_row
            <$> zip_with to_standing (groupby_sum rows) (groupby_cumsum crows)
          = crows) as Hrows.
  { apply season_driver_rows; [|apply grouped_triples].
    unfold groupby_cumsum, crows.
    by rewrite length_groupby_cumsum_go, length_fmap. }
  rewrite <-group_rows_season_driver, fmap_take, Hrows.
  apply lookup_zip_with_Some in Hr as ([k t] & c & -> & Hg & Hc).
  assert ((k, t) ∈ groupby_sum rows) as Hin
    by by eapply list_elem_of_lookup_2.
  pose proof (proj1 (Forall_forall _ _)
                (grouped_triples season race driver points) _ Hin)
    as (s & rk & dr & Hk).
  simpl in Hk. subst k.
  apply elem_of_groupby_sum in Hin as [Hkey _].
  apply elem_of_group_keys in Hkey as [_ Hna].
  assert (crows !! i = Some ([s; dr], t)) as Hci.
  { unfold crows. by rewrite list_lookup_fmap, Hg. }
  unfold groupby_cumsum in Hc.
  rewrite (groupby_cumsum_go_running [] crows i [s; dr] t Hci) in Hc
    by by eapply key_has_na_season_driver.
  injection Hc as <-. unfold to_standing. cbn [fst snd st_CumPoints
    st_Season st_Driver]. f_equal. rewrite group_rows_nil.
  change (sumQc []) with 0. ring.
Qed.

(** X22. The standings have one row for each combination of season, race
    and driver that occurs in the view without a missing value, in
    ascending order of the combinations. When the points of the view are
    whole numbers that add up to at most [2^53], no points are lost: the
    points of the rows add up to the points of the rows of the view that
    [groupby] keeps, which is the points indicator when no row has a
    missing value in its season, race or driver. *)
Theorem X22_standings_rows d out :
  driver_points parse_numeric d = Ok out →
  ∃ season race driver points,
    columns d !! "Season" = Some season
    ∧ columns d !! "RaceNumber" = Some race
    ∧ columns d !! "Driver" = Some driver
    ∧ columns d !! "Points" = Some points
    ∧ let rows := race_rows season race driver points in
      let keys := (λ r, [st_Season r; st_RaceKey r; st_Driver r]) <$> out in
      NoDup keys
      ∧ StronglySorted (λ k1 k2, key_leb k1 k2 = true ∧ k1 ≠ k2) keys
      ∧ (∀ k, k ∈ keys ↔ k ∈ rows.*1 ∧ key_has_na k = false)
      ∧ (∀ r, r ∈ out →
           st_Points r
           = series_sum
               (group_rows rows [st_Season r; st_RaceKey r; st_Driver r]))
      ∧ (exact_column points →
         sumQc (st_Points <$> out) = series_sum (dropna_keys rows).*2
         ∧ (Forall (λ r : key * cell, key_has_na r.1 = false) rows →
            length season = length points →
            length race = length points →
            length driver = length points →
            kpi_points d = Ok (sumQc (st_Points <$> out)))).
Proof.
  intros (season & race & driver & points & HS & HR & HD & HP & ->)%driver_points_Ok.
  exists season, race, driver, points. repeat (split; [done|]).
  cbn zeta. unfold standings_of.
  set (rows := race_rows season race driver points).
  set (crows := (λ r : key * Qc, (season_driver r.1, r.2)) <$> groupby_sum rows).
  set (out := zip_with to_standing (groupby_sum rows) (groupby_cumsum crows)).
  assert (length (groupby_cumsum crows) = length (groupby_sum rows)) as Hlen.
  { unfold groupby_cumsum, crows.
    by rewrite length_groupby_cumsum_go, length_fmap. }
  pose proof (grouped_triples season race driver points) as Htri.
  fold rows in Htri.
  assert ((λ r, [st_Season r; st_RaceKey r; st_Driver r]) <$> out
          = group_keys rows) as Hkeys.
  { rewrite <-groupby_sum_keys. unfold out. revert Hlen Htri.
    generalize (groupby_cumsum crows). generalize (groupby_sum rows).
    clear. intros g. induction g as [|[k t] g IH]; intros [|c cum] Hlen Hg;
      simpl in *; try done.
    apply Forall_cons in Hg as [(s & rk & dr & Hk) Hg]. simpl in Hk. subst k.
    rewrite IH by (done || lia). done. }
  assert (st_Points <$> out = (groupby_sum rows).*2) as Hpts.
  { unfold out. revert Hlen Htri.
    generalize (groupby_cumsum crows). generalize (groupby_sum rows).
    clear. intros g. induction g as [|[k t] g IH]; intros [|c cum] Hlen Hg;
      simpl in *; try done.
    apply Forall_cons in Hg as [(s & rk & dr & Hk) Hg]. simpl in Hk. subst k.
    rewrite IH by (done || lia). done. }
  rewrite Hkeys, Hpts.
  split; [apply NoDup_group_keys|].
  split; [apply StronglySorted_group_keys|].
  split; [apply elem_of_group_keys|].
  split; [|intros _; split].
  - intros r (i & Hr)%list_elem_of_lookup.
    apply lookup_zip_with_Some in Hr as ([k t] & c & -> & Hg & Hc).
    assert ((k, t) ∈ groupby_sum rows) as Hin
      by by eapply list_elem_of_lookup_2.
    pose proof (proj1 (Forall_forall _ _) Htri _ Hin) as (s & rk & dr & Hk).
    simpl in Hk. subst k.
    by apply elem_of_groupby_sum in Hin as [_ ->].
  - apply groupby_sum_total.
  - intros Hna Hl1 Hl2 Hl3. unfold kpi_points.
    rewrite (getitem_Some _ _ _ HP). cbn [bind]. f_equal.
    rewrite groupby_sum_total, dropna_keys_all by done.
    unfold rows. rewrite snd_zip; [done|]. unfold zip3.
    rewrite length_zip_with, length_zip, length_fmap. lia.
Qed.

End Theorems.

Lemma X21_cum_points_running_sum_witness :
  ∃ out r,
    driver_points parse_digits two_races_csv = Ok out
    ∧ out !! 1%nat = Some r
    ∧ st_CumPoints r
      = Num (sumQc (st_Points <$>
                      filter (λ r', st_Season r' = st_Season r
                                    ∧ st_Driver r' = st_Driver r)
                             (take 2 out))).
Proof.
  destruct (driver_points parse_digits two_races_csv) as [out|e] eqn:Hout;
    [|by vm_compute in Hout].
  destruct (out !! 1%nat) as [r|] eqn:Hr.
  2:{ exfalso. assert (Hv := Hout). vm_compute in Hv. injection Hv as Hv.
      rewrite <-Hv in Hr. vm_compute in Hr. discriminate Hr. }
  exists out, r. split; [reflexivity|]. split; [exact Hr|].
  exact (X21_cum_points_running_sum parse_digits _ _ _ _ Hout Hr).
Defined.

Lemma X22_standings_rows_witness :
  ∃ out,
    driver_points parse_digits two_races_csv = Ok out
    ∧ ∃ season race driver points,
        columns two_races_csv !! "Season" = Some season
        ∧ columns two_races_csv !! "RaceNumber" = Some race
        ∧ columns two_races_csv !! "Driver" = Some driver
        ∧ columns two_races_csv !! "Points" = Some points
        ∧ let rows :=
            zip (zip3 season (to_numeric_cell parse_digits <$> race) driver)
                points in
          let keys :=
            (λ r, [st_Season r; st_RaceKey r; st_Driver r]) <$> out in
          NoDup keys
          ∧ StronglySorted (λ k1 k2, key_leb k1 k2 = true ∧ k1 ≠ k2) keys
          ∧ (∀ k, k ∈ keys ↔ k ∈ rows.*1 ∧ key_has_na k = false)
          ∧ (∀ r, r ∈ out →
               st_Points r
               = series_sum
                   (group_rows rows
                      [st_Season r; st_RaceKey r; st_Driver r]))
          ∧ (exact_column points →
             sumQc (st_Points <$> out) = series_sum (dropna_keys rows).*2
             ∧ (Forall (λ r : key * cell, key_has_na r.1 = false) rows →
                length season = length points →
                length race = length points →
                length driver = length points →
                kpi_points two_races_csv
                = Ok (sumQc (st_Points <$> out)))).
Proof.
  destruct (driver_points parse_digits two_races_csv) as [out|e] eqn:Hout;
    [|by vm_compute in Hout].
  exists out. split; [reflexivity|].
  exact (X22_standings_rows parse_digits _ _ Hout).
Defined.

(** X23. The standings chart keeps the rows of at most eight drivers, in
    the order of the standings; the drivers kept are drivers of the
    standings, each of them has at least as many points in total as any
    driver left out, and with at most eight drivers nothing is left out. *)
Theorem X23_top_standings dp :
  sublist (top_standings dp) dp
  ∧ NoDup (top_drivers dp)
  ∧ (length (top_drivers dp) ≤ 8)%nat
  ∧ (∀ x, x ∈ top_drivers dp → x ≠ NA ∧ ∃ r, r ∈ dp ∧ st_Driver r = x)
  ∧ (∀ a b ta tb,
       ([a], ta) ∈ driver_totals dp → ([b], tb) ∈ driver_totals dp →
       a ∈ top_drivers dp → b ∉ top_drivers dp → tb ≤ ta)
  ∧ (Forall (λ r, st_Driver r ≠ NA) dp →
     (length (driver_totals dp) ≤ 8)%nat →
     top_standings dp = dp).
Proof.
  set (full := sort_values_desc snd (driver_totals dp)).
  assert (full ≡ₚ driver_totals dp) as Hperm
    by apply sort_values_desc_Permutation.
  assert (NoDup full.*1) as Hnd.
  { rewrite Hperm. unfold driver_totals. rewrite groupby_sum_keys.
    apply NoDup_group_keys. }
  split; [apply sublist_filter|]. split; [|split; [|split; [|split]]].
  - unfold top_drivers. fold full. apply NoDup_fmap_2_strong.
    + intros k1 k2 ([k1' t1] & -> & H1)%list_elem_of_fmap
        ([k2' t2] & -> & H2)%list_elem_of_fmap. simpl.
      apply elem_of_take_1 in H1, H2.
      rewrite Hperm in H1, H2.
      apply elem_of_driver_totals in H1 as (r1 & _ & -> & _).
      apply elem_of_driver_totals in H2 as (r2 & _ & -> & _).
      simpl. by intros ->.
    + rewrite fmap_take. by eapply sublist_NoDup; [|apply sublist_take].
  - unfold top_drivers. rewrite !length_fmap, length_take. lia.
  - intros x [t Hin]%elem_of_top_drivers.
    apply elem_of_take_1 in Hin. fold full in Hin. rewrite Hperm in Hin.
    apply elem_of_driver_totals in Hin as (r & Hr & [= ->] & Hna). eauto.
  - intros a b ta tb Ha Hb [ta' Hin]%elem_of_top_drivers Hnb.
    fold full in Hin.
    apply elem_of_take in Hin as (i & Hi & Hlt).
    assert (ta' = ta) as ->.
    { eapply driver_totals_functional; [|exact Ha].
      rewrite <-Hperm. by eapply list_elem_of_lookup_2. }
    assert (([b], tb) ∈ full) as (j & Hj)%list_elem_of_lookup
      by by rewrite Hperm.
    assert (8 ≤ j)%nat as Hge.
    { destruct (decide (8 ≤ j)%nat); [done|]. destruct Hnb.
      apply elem_of_top_drivers. exists tb. fold full.
      apply elem_of_take. exists j. split; [done|lia]. }
    assert (StronglySorted (λ x y : key * Qc, y.2 ≤ x.2) full) as Hs.
    { apply Sorted_StronglySorted; [|apply sort_values_desc_Sorted].
      intros x y z Hxy Hyz. by eapply Qcle_trans. }
    apply (StronglySorted_lookup _ _ i j _ _ Hs ltac:(lia) Hi Hj).
  - intros Hna Hlen. unfold top_standings. apply filter_all.
    apply Forall_forall. intros r Hr.
    pose proof (proj1 (Forall_forall _ _) Hna r Hr) as Hr'.
    apply (driver_totals_key dp r Hr) in Hr'.
    apply list_elem_of_fmap in Hr' as ([k t] & Hk & Hin). simpl in Hk.
    subst k. apply elem_of_top_drivers. exists t. fold full.
    rewrite take_ge; [by rewrite Hperm|].
    by rewrite (Permutation_length Hperm).
Qed.

End StandingsMore.

(** ** The event indicator and the empty view *)

Module EventTheorems.
Import Pandas App Loaded Design Samples Dashboard DashboardSamples.
Import PandasFacts LoadFacts SortFacts FilterFacts GroupFacts.
Import LoadTheorems FilterTheorems StandingsTheorems FilterMore.
Import WidgetTheorems IndicatorTheorems TableTheorems.






Section Theorems.
Variable parse_numeric : string → option Qc.
Variable repr_num : Qc → string.

(** X25. A selection that leaves no row gives zeros and empty tables: every
    indicator is zero, the table of the scatter plot is empty, and so is
    the ranking on a name column that the file has. With both name columns
    the script comes to the standings, which are empty; without one of them
    the ranking on that column raises [KeyError], as it does on any
    view. *)
Theorem X25_empty_view raw sel d :
  wf raw →
  filtered parse_numeric repr_num raw sel = Ok d →
  nrows d = 0%nat →
  kpi_events d = Ok 0%nat
  ∧ kpi_points d = Ok 0
  ∧ kpi_dnfs d = Ok 0%Z
  ∧ (∃ t, scat d = Ok t ∧ nrows t = 0%nat)
  ∧ (∀ c, c = "Driver" ∨ c = "Constructor" →
       match columns raw !! c with
       | Some _ => kpi_nunique c d = Some 0%nat ∧ ranking c d = Ok []
       | None => kpi_nunique c d = None ∧ ranking c d = Raise (KeyError c)
       end)
  ∧ view_standings parse_numeric d
    = match columns raw !! "Driver", columns raw !! "Constructor" with
      | Some _, Some _ => Ok []
      | None, _ => Raise (KeyError "Driver")
      | Some _, None => Raise (KeyError "Constructor")
      end.
Proof.
  intros Hwf Hd Hn.
  destruct (filtered_mask parse_numeric repr_num raw sel d Hwf Hd)
    as (pts & Hpts & [s0 HS] & [r0 HR] & Hdeq).
  pose proof (base_table_wf parse_numeric repr_num raw pts Hwf Hpts) as Hb.
  assert (wf d) as Hwfd by (rewrite Hdeq; by apply mask_rows_wf).
  assert (∀ c col, columns d !! c = Some col → col = []) as Hnil.
  { intros c col Hc. apply length_zero_iff_nil. rewrite <-Hn.
    apply (Hwfd _ _ Hc). }
  assert (∀ c, is_Some (columns (base_table parse_numeric repr_num raw pts)
                          !! c) → columns d !! c = Some []) as Hcol.
  { intros c [col Hc]. rewrite Hdeq, mask_rows_lookup, Hc. simpl.
    f_equal. apply (Hnil c). by rewrite Hdeq, mask_rows_lookup, Hc. }
  assert (columns d !! "Season" = Some []) as HSe.
  { apply Hcol. rewrite base_other by (repeat constructor). by eexists. }
  assert (columns d !! "RaceNumber" = Some []) as HRa.
  { apply Hcol. rewrite base_other by (repeat constructor). by eexists. }
  assert (columns d !! "Points" = Some []) as HPo.
  { apply Hcol. rewrite base_Points. by eexists. }
  assert (columns d !! "IsDNF" = Some []) as HDn.
  { apply Hcol. rewrite base_IsDNF. by eexists. }
  assert (columns d !! "Grid_num" = Some []) as HGr.
  { apply Hcol. rewrite base_Grid_num. by eexists. }
  assert (columns d !! "Pos_num" = Some []) as HPn.
  { apply Hcol. rewrite base_Pos_num. by eexists. }
  assert (columns d !! "PosGain" = Some []) as HGa.
  { apply Hcol. rewrite base_PosGain. by eexists. }
  assert (Hname : ∀ c, c = "Driver" ∨ c = "Constructor" →
    match columns raw !! c with
    | Some _ => columns d !! c = Some []
    | None => columns d !! c = None
    end).
  { intros c Hc. destruct (columns raw !! c) as [col|] eqn:Hr.
    - apply Hcol. rewrite base_stripped, Hr by done. by eexists.
    - by rewrite Hdeq, mask_rows_lookup, base_stripped, Hr by done. }
  assert (Hrank : ∀ c, c = "Driver" ∨ c = "Constructor" →
    match columns raw !! c with
    | Some _ => kpi_nunique c d = Some 0%nat ∧ ranking c d = Ok []
    | None => kpi_nunique c d = None ∧ ranking c d = Raise (KeyError c)
    end).
  { intros c Hc. specialize (Hname c Hc).
    destruct (columns raw !! c) as [col|]; split.
    - unfold kpi_nunique. rewrite (has_column_true _ _ _ Hname).
      by rewrite Hname.
    - by rewrite (ranking_Some c d [] []).
    - unfold kpi_nunique. by rewrite (has_column_false _ _ Hname).
    - unfold ranking, points_by, getitem. by rewrite Hname. }
  assert (kpi_events d = Ok 0%nat) as Hev.
  { unfold kpi_events.
    by rewrite (getitem_Some _ _ _ HSe), (getitem_Some _ _ _ HRa). }
  assert (kpi_points d = Ok 0) as Hkp.
  { unfold kpi_points. by rewrite (getitem_Some _ _ _ HPo). }
  assert (kpi_dnfs d = Ok 0%Z) as Hkd.
  { unfold kpi_dnfs. by rewrite (getitem_Some _ _ _ HDn). }
  assert (∃ t, scat d = Ok t ∧ nrows t = 0%nat) as Hscat.
  { unfold scat, dropna_subset.
    rewrite (getitems_Some _ ["Grid_num"; "Pos_num"] [[]; []])
      by (repeat constructor; done).
    cbn [bind]. eexists. split; [done|]. unfold mask_rows. cbn [nrows].
    rewrite Hn. by destruct (notna_mask 0 [[]; []]). }
  repeat (split; [done|]).
  unfold view_standings. rewrite Hev, Hkp, Hkd. cbn [bind].
  destruct Hscat as (t & -> & _). unfold by_driver, by_team.
  pose proof (Hrank "Driver" (or_introl eq_refl)) as HrD.
  pose proof (Hname "Driver" (or_introl eq_refl)) as HnD.
  destruct (columns raw !! "Driver") as [dr|]; destruct HrD as [_ ->];
    [|done].
  cbn [bind]. unfold posgain_rows, dropna_subset.
  rewrite (getitems_Some _ ["PosGain"] [[]]) by (repeat constructor; done).
  cbn [bind].
  pose proof (Hrank "Constructor" (or_intror eq_refl)) as HrC.
  destruct (columns raw !! "Constructor") as [co|]; destruct HrC as [_ ->];
    [|done].
  cbn [bind]. by rewrite (driver_points_eq parse_numeric d [] [] [] []).
Qed.

End Theorems.


Lemma X25_empty_view_witness :
  ∃ d, wf race_csv
       ∧ filtered parse_digits show_int race_csv season_1999 = Ok d
       ∧ nrows d = 0%nat
       ∧ kpi_events d = Ok 0%nat
       ∧ kpi_points d = Ok 0
       ∧ kpi_dnfs d = Ok 0%Z
       ∧ (∃ t, scat d = Ok t ∧ nrows t = 0%nat)
       ∧ (∀ c, c = "Driver" ∨ c = "Constructor" →
            match columns race_csv !! c with
            | Some _ => kpi_nunique c d = Some 0%nat ∧ ranking c d = Ok []
            | None =>
                kpi_nunique c d = None ∧ ranking c d = Raise (KeyError c)
            end)
       ∧ view_standings parse_digits d
         = match columns race_csv !! "Driver",
                 columns race_csv !! "Constructor" with
           | Some _, Some _ => Ok []
           | None, _ => Raise (KeyError "Driver")
           | Some _, None => Raise (KeyError "Constructor")
           end.
Proof.
  destruct (filtered parse_digits show_int race_csv season_1999)
    as [d|e] eqn:Hd; [|by vm_compute in Hd].
  assert (nrows d = 0%nat) as Hn.
  { assert (Hv := Hd). vm_compute in Hv. injection Hv as Hv.
    rewrite <-Hv. reflexivity. }
  exists d. split; [exact race_csv_wf|].
  split; [reflexivity|]. split; [exact Hn|].
  exact (X25_empty_view parse_digits show_int _ _ _ race_csv_wf Hd Hn).
Defined.

End EventTheorems.

(** ** The texts of the indicators *)

Module FormatTheorems.
Import Pandas App Loaded Design Samples Dashboard DashboardSamples.
Import PandasFacts SortFacts.

Lemma append_String c s1 s2 : String c s1 +:+ s2 = String c (s1 +:+ s2).
Proof. reflexivity. Qed.

Lemma length_rev s : String.length (String.rev s) = String.length s.
Proof.
  induction s as [|c s IH]; [done|].
  rewrite rev_cons, length_append, IH. simpl. lia.
Qed.

Lemma str_in_append c s1 s2 :
  str_in c (s1 +:+ s2) = str_in c s1 || str_in c s2.
Proof.
  induction s1 as [|a s1 IH]; [done|].
  rewrite append_String. simpl. by rewrite IH, orb_assoc.
Qed.

Lemma str_in_rev c s : str_in c (String.rev s) = str_in c s.
Proof.
  induction s as [|a s IH]; [done|].
  rewrite rev_cons, str_in_append, IH. simpl.
  by rewrite orb_false_r, orb_comm.
Qed.

Lemma str_remove_append c s1 s2 :
  str_remove_char c (s1 +:+ s2)
  = str_remove_char c s1 +:+ str_remove_char c s2.
Proof.
  induction s1 as [|a s1 IH]; [done|].
  rewrite append_String. simpl. destruct (Ascii.eqb a c); [done|].
  by rewrite append_String, IH.
Qed.

Lemma str_remove_rev c s :
  str_remove_char c (String.rev s) = String.rev (str_remove_char c s).
Proof.
  induction s as [|a s IH]; [done|].
  rewrite rev_cons, str_remove_append, IH. simpl.
  destruct (Ascii.eqb a c); [by rewrite append_nil_r|by rewrite rev_cons].
Qed.

Lemma str_remove_absent c s :
  str_in c s = false → str_remove_char c s = s.
Proof.
  induction s as [|a s IH]; [done|]. simpl.
  destruct (Ascii.eqb a c); [done|]. simpl. intros Hs. by rewrite IH.
Qed.

Lemma str_replace_absent a b s :
  str_in a s = false → str_replace_char a b s = s.
Proof.
  induction s as [|c s IH]; [done|]. simpl.
  destruct (Ascii.eqb c a); [done|]. simpl. intros Hs. by rewrite IH.
Qed.

Lemma str_replace_append a b s1 s2 :
  str_replace_char a b (s1 +:+ s2)
  = str_replace_char a b s1 +:+ str_replace_char a b s2.
Proof.
  induction s1 as [|c s1 IH]; [done|].
  rewrite append_String. simpl. by rewrite IH.
Qed.

(** Replacing a character and deleting the replacement deletes both. *)
Lemma str_remove_replace a b s :
  str_in b s = false →
  str_remove_char b (str_replace_char a b s) = str_remove_char a s.
Proof.
  induction s as [|c s IH]; [done|]. simpl.
  destruct (Ascii.eqb c b) eqn:Hcb; [done|]. simpl. intros Hs.
  destruct (Ascii.eqb c a) eqn:Hca.
  - rewrite Ascii.eqb_refl. by apply IH.
  - rewrite Hcb. by rewrite IH.
Qed.

(** No comma is left after the replacement. *)
Lemma str_in_replace a b s :
  a ≠ b → str_in a (str_replace_char a b s) = false.
Proof.
  intros Hab. induction s as [|c s IH]; [done|]. simpl. rewrite IH.
  destruct (Ascii.eqb c a) eqn:Hca; [|by rewrite Hca].
  rewrite orb_false_r. apply Ascii.eqb_neq. by intros ->.
Qed.

(** The three replacements of [nice_float] on a text without [.] and
    [X]. *)
Lemma swap_separators s :
  str_in "." s = false → str_in "X" s = false →
  str_replace_char "X" "." (str_replace_char "." "," (str_replace_char "," "X" s))
  = str_replace_char "," "." s.
Proof.
  induction s as [|c s IH]; [done|]. simpl.
  destruct (Ascii.eqb c ".") eqn:H1; [done|].
  destruct (Ascii.eqb c "X") eqn:H2; [done|]. simpl. intros Hd HX.
  rewrite IH by done. f_equal.
  destruct (Ascii.eqb c ",") eqn:H3; [done|]. by rewrite H1, H2.
Qed.

(** The digits of a number hold no separator. *)
Lemma str_in_digits c d :
  c ∈ [","; "."; "X"]%char →
  str_in c (NilEmpty.string_of_uint d) = false.
Proof.
  intros Hc.
  repeat (apply elem_of_cons in Hc as [->|Hc]); [..|by apply elem_of_nil in Hc];
    induction d; simpl; auto.
Qed.

Lemma str_in_decimal c d :
  c ∈ [","; "."; "X"]%char →
  str_in c (NilZero.string_of_uint d) = false.
Proof.
  intros Hc. destruct d; try apply (str_in_digits c _ Hc).
  repeat (apply elem_of_cons in Hc as [->|Hc]); [..|by apply elem_of_nil in Hc];
    done.
Qed.

(** Induction on a text three characters at a time. *)
Lemma string_ind3 (P : string → Prop) :
  (∀ s, (String.length s ≤ 3)%nat → P s) →
  (∀ a b c s, s ≠ EmptyString → P s →
     P (String a (String b (String c s)))) →
  ∀ s, P s.
Proof.
  intros Hshort Hstep s.
  assert (∀ n s, (String.length s ≤ n)%nat → P s) as Hn; [|by eapply Hn].
  clear s. induction n as [|n IH]; intros s Hlen.
  - apply Hshort. lia.
  - destruct s as [|a [|b [|c [|d s]]]]; try (apply Hshort; simpl; lia).
    apply Hstep; [done|]. apply IH. simpl in *. lia.
Qed.

Lemma group_thousands_short s :
  (String.length s ≤ 3)%nat → group_thousands s = s.
Proof. destruct s as [|a [|b [|c [|d s]]]]; simpl; try done. lia. Qed.

Lemma group_thousands_step a b c s :
  s ≠ EmptyString →
  group_thousands (String a (String b (String c s)))
  = String a (String b (String c (String "," (group_thousands s)))).
Proof. by destruct s. Qed.

Lemma str_remove_group s :
  str_in "," s = false → str_remove_char "," (group_thousands s) = s.
Proof.
  induction s as [s Hs|a b c s Hne IH] using string_ind3.
  - intros Hin. rewrite group_thousands_short by done.
    by apply str_remove_absent.
  - rewrite group_thousands_step by done. simpl.
    destruct (Ascii.eqb a ","); [done|].
    destruct (Ascii.eqb b ","); [done|].
    destruct (Ascii.eqb c ","); [done|]. simpl. intros Hin.
    by rewrite IH.
Qed.

Lemma str_in_group c s :
  c ≠ ","%char → str_in c (group_thousands s) = str_in c s.
Proof.
  intros Hc. induction s as [s Hs|a b d s Hne IH] using string_ind3.
  - by rewrite group_thousands_short.
  - rewrite group_thousands_step by done. cbn [str_in]. rewrite IH.
    replace (Ascii.eqb "," c) with false; [done|].
    symmetry. apply Ascii.eqb_neq. by intros <-.
Qed.

Lemma str_in_grouped c d :
  c ∈ ["."; "X"]%char → str_in c (grouped d) = false.
Proof.
  intros Hc. unfold grouped.
  rewrite str_in_rev, str_in_group, str_in_rev.
  - apply str_in_decimal. by right.
  - intros ->. repeat (apply elem_of_cons in Hc as [Hc|Hc]); try done.
    by apply elem_of_nil in Hc.
Qed.

Lemma str_remove_grouped d :
  str_remove_char "," (grouped d) = NilZero.string_of_uint d.
Proof.
  unfold grouped. rewrite str_remove_rev, str_remove_group.
  - apply rev_involutive.
  - rewrite str_in_rev. apply str_in_decimal. by left.
Qed.

Lemma str_replace_rev a b s :
  str_replace_char a b (String.rev s) = String.rev (str_replace_char a b s).
Proof.
  induction s as [|c s IH]; [done|].
  rewrite rev_cons, str_replace_append, IH. cbn [str_replace_char].
  by rewrite rev_cons.
Qed.

Lemma get_str_in i s c : String.get i s = Some c → str_in c s = true.
Proof.
  revert i. induction s as [|a s IH]; intros [|i]; simpl; try done.
  - intros [= ->]. by rewrite Ascii.eqb_refl.
  - intros H. rewrite (IH i H). apply orb_true_r.
Qed.

Lemma get_replace a b i s :
  String.get i (str_replace_char a b s)
  = (λ c, if Ascii.eqb c a then b else c) <$> String.get i s.
Proof.
  revert i. induction s as [|c s IH]; intros [|i]; simpl; try done.
Qed.

(** The commas of [group_thousands] stand at every fourth place. *)
Lemma get_group s :
  str_in "," s = false →
  ∀ i c, String.get i (group_thousands s) = Some c →
         c = ","%char ↔ (i mod 4 = 3)%nat.
Proof.
  induction s as [s Hs|x y z s Hne IH] using string_ind3.
  - intros Hin i c. rewrite group_thousands_short by done. intros Hc.
    assert (i < 3)%nat as Hi.
    { clear Hin. revert i Hs Hc.
      induction s as [|a s IHs]; intros [|i]; simpl; try done.
      - lia.
      - intros Hs Hc.
        destruct s as [|a1 [|a2 [|a3 s]]]; destruct i as [|[|i]];
          simpl in *; try done; lia. }
    split.
    + intros ->. apply get_str_in in Hc. by rewrite Hc in Hin.
    + intros Hm. rewrite Nat.mod_small in Hm by lia. lia.
  - intros Hin i c. rewrite group_thousands_step by done.
    cbn [str_in] in Hin.
    apply orb_false_iff in Hin as [Hx Hin].
    apply orb_false_iff in Hin as [Hy Hin].
    apply orb_false_iff in Hin as [Hz Hin].
    destruct i as [|[|[|[|i]]]]; cbn [String.get].
    + intros [= <-]. split; [|done]. intros ->. by rewrite Ascii.eqb_refl in Hx.
    + intros [= <-]. split; [|done]. intros ->. by rewrite Ascii.eqb_refl in Hy.
    + intros [= <-]. split; [|done]. intros ->. by rewrite Ascii.eqb_refl in Hz.
    + intros [= <-]. done.
    + intros Hc. rewrite (IH Hin i c Hc).
      replace (S (S (S (S i)))) with (i + 1 * 4)%nat by lia.
      by rewrite Nat.Div0.mod_add.
Qed.

Lemma to_int_nonneg z :
  (0 ≤ z)%Z → Z.to_int z = Decimal.Pos (N.to_uint (Z.to_N z)).
Proof. by destruct z. Qed.


(** X26. [nice_int] writes an integer with a dot between the groups of
    three digits. Counted from the right, every fourth character of the
    text of a number that is not negative is a dot and no other character
    is one; taking the dots out gives [str(n)] back, which reads as [n];
    no comma is left in the text; and a number of at most three digits is
    written as it is. *)
Theorem X26_nice_int_round_trip n :
  str_remove_char "." (nice_int (Some n)) = py_str_int n
  ∧ option_map Z.of_int
      (NilZero.int_of_string (str_remove_char "." (nice_int (Some n))))
    = Some n
  ∧ str_in "," (nice_int (Some n)) = false
  ∧ ((String.length (py_str_int (Z.abs n)) ≤ 3)%nat →
     nice_int (Some n) = py_str_int n)
  ∧ ((0 ≤ n)%Z →
     ∀ i c, String.get i (String.rev (nice_int (Some n))) = Some c →
            c = "."%char ↔ (i mod 4 = 3)%nat).
Proof.
  assert (str_remove_char "." (nice_int (Some n)) = py_str_int n) as Hrt.
  { unfold nice_int, format_thousands, py_str_int.
    destruct (Z.to_int n) as [d|d]; simpl.
    - rewrite str_remove_replace by (apply str_in_grouped; by left).
      apply str_remove_grouped.
    - rewrite str_remove_replace by (apply str_in_grouped; by left).
      by rewrite str_remove_grouped. }
  split; [done|]. split; [|split; [|split]].
  - rewrite Hrt. unfold py_str_int.
    rewrite <-(DecimalZ.of_to n) at 2.
    destruct (Z.to_int n) as [[]|[]]; try done;
      by rewrite NilZero.isi.
  - apply str_in_replace. done.
  - unfold nice_int, format_thousands, py_str_int, grouped.
    destruct n as [|p|p]; simpl.
    + done.
    + intros Hlen. rewrite group_thousands_short by by rewrite length_rev.
      rewrite rev_involutive. apply str_replace_absent, str_in_decimal.
      by left.
    + intros Hlen. rewrite group_thousands_short by by rewrite length_rev.
      rewrite rev_involutive. f_equal.
      apply str_replace_absent, str_in_decimal. by left.
  - intros Hn i c. unfold nice_int, format_thousands.
    rewrite (to_int_nonneg n Hn). unfold grouped.
    set (digits := NilZero.string_of_uint (N.to_uint (Z.to_N n))).
    rewrite <-str_replace_rev, rev_involutive, get_replace.
    assert (str_in "," (String.rev digits) = false) as Hcomma.
    { rewrite str_in_rev. apply str_in_decimal. by left. }
    assert (str_in "." (group_thousands (String.rev digits)) = false)
      as Hdot.
    { rewrite str_in_group by done. rewrite str_in_rev.
      apply str_in_decimal. right. by left. }
    destruct (String.get i (group_thousands (String.rev digits)))
      as [x|] eqn:Hx; [|done].
    simpl. intros [= <-].
    rewrite <-(get_group _ Hcomma i x Hx).
    destruct (Ascii.eqb x ",") eqn:Hxc.
    + apply Ascii.eqb_eq in Hxc. done.
    + apply Ascii.eqb_neq in Hxc. split; [|done].
      intros ->. apply get_str_in in Hx. by rewrite Hx in Hdot.
Qed.

Lemma round_half_even_nonneg num den :
  (0 ≤ num)%Z → (0 ≤ round_half_even num den)%Z.
Proof.
  intros Hn. unfold round_half_even.
  assert (0 ≤ num / Z.pos den)%Z by (apply Z.div_pos; lia).
  destruct (2 * (num mod Z.pos den) ?= Z.pos den)%Z; [|lia..].
  destruct (Z.even _); lia.
Qed.

Lemma round_half_even_whole z : round_half_even z 1 = z.
Proof.
  unfold round_half_even. rewrite Z.div_1_r, Z.mod_1_r. done.
Qed.

(** X27. With no decimals [nice_float] writes a number that is not
    negative as [nice_int] writes it rounded to the nearest integer, a
    half going to the even one: the points indicator reads like the
    other indicators, and a whole number of points is written exactly. *)
Theorem X27_nice_float_no_decimals q :
  0 ≤ q →
  nice_float (Some q) 0
  = nice_int (Some (round_half_even (Qnum q) (Qden q)))
  ∧ ∀ z, q = Qc_of_Z z → nice_float (Some q) 0 = nice_int (Some z).
Proof.
  intros Hq.
  assert (0 ≤ Qnum q)%Z as Hnum.
  { destruct q as [[num den] Hc]. unfold Qcle, Qle in Hq. simpl in *. lia. }
  assert (nice_float (Some q) 0
          = nice_int (Some (round_half_even (Qnum q) (Qden q)))) as Heq.
  { pose proof (round_half_even_nonneg (Qnum q) (Qden q) Hnum) as Hr.
    unfold nice_float, nice_int, format_fixed, format_thousands.
    rewrite to_int_nonneg by done.
    change (10 ^ Z.of_nat 0)%Z with 1%Z.
    rewrite Z.mul_1_r, Z.div_1_r, Z.abs_eq by done.
    replace (Qc_ltb q 0) with false.
    2:{ symmetry. apply not_true_iff_false. rewrite Qc_ltb_lt.
        by apply Qcle_not_lt. }
    rewrite append_nil_l, append_nil_r.
    apply swap_separators; apply str_in_grouped; [by left|by right; left]. }
  split; [done|]. intros z ->. rewrite Heq. simpl.
  by rewrite round_half_even_whole.
Qed.

Lemma X27_nice_float_no_decimals_witness :
  0 ≤ Qc_of_Z 1234
  ∧ nice_float (Some (Qc_of_Z 1234)) 0
    = nice_int (Some (round_half_even (Qnum (Qc_of_Z 1234))
                        (Qden (Qc_of_Z 1234))))
  ∧ ∀ z, Qc_of_Z 1234 = Qc_of_Z z →
      nice_float (Some (Qc_of_Z 1234)) 0 = nice_int (Some z).
Proof.
  assert (0 ≤ Qc_of_Z 1234) as Hq by (by vm_compute).
  split; [exact Hq|].
  exact (X27_nice_float_no_decimals (Qc_of_Z 1234) Hq).
Defined.

End FormatTheorems.

(** ** The ranking of the pit-stop tab *)

Module PitstopTheorems.
Import Pandas App Loaded Design Samples Dashboard DashboardSamples.
Import PandasFacts LoadFacts SortFacts FilterFacts GroupFacts.
Import LoadTheorems FilterTheorems FilterMore WidgetTheorems.
Import IndicatorTheorems TableTheorems EventTheorems.






Section Theorems.
Variable parse_numeric : string → option Qc.
Variable repr_num : Qc → string.


End Theorems.


End PitstopTheorems.

(** ** The script as far as the filtered view *)

Module ScriptTheorems.
Import Pandas App Loaded Design Samples Dashboard DashboardSamples.
Import PandasFacts LoadFacts SortFacts FilterFacts GroupFacts.
Import LoadTheorems FilterTheorems FilterMore WidgetTheorems.

Section Theorems.
Variable parse_numeric : string → option Qc.
Variable repr_num : Qc → string.

(** X7. On a file without boolean cells the script gets as far as the
    filtered view exactly when the file has the columns [Points], [Season]
    and [RaceNumber] and neither [Season] nor [RaceNumber] mixes numbers
    with texts. It stops with the [AttributeError] of [fillna] without
    [Points]; else with the [KeyError] of [Season] or the [TypeError] of
    [sorted] on a mixed [Season]; else with the same for [RaceNumber]. No
    other column and no choice in the widgets makes it stop. *)
Theorem X7_script_view_outcome raw sel :
  no_booleans raw →
  match script_view parse_numeric repr_num raw sel with
  | Done _ =>
      is_Some (columns raw !! "Points")
      ∧ (∃ s, columns raw !! "Season" = Some s
              ∧ one_kind (unique (dropna s)) = true)
      ∧ (∃ r, columns raw !! "RaceNumber" = Some r
              ∧ one_kind (unique (dropna r)) = true)
  | Failed f =>
      (columns raw !! "Points" = None
       ∧ f = Raised (AttributeError "fillna"))
      ∨ (is_Some (columns raw !! "Points")
         ∧ ((columns raw !! "Season" = None
             ∧ f = Raised (KeyError "Season"))
            ∨ ∃ s, columns raw !! "Season" = Some s
                ∧ ((one_kind (unique (dropna s)) = false ∧ f = TypeError)
                   ∨ (one_kind (unique (dropna s)) = true
                      ∧ ((columns raw !! "RaceNumber" = None
                          ∧ f = Raised (KeyError "RaceNumber"))
                         ∨ ∃ r, columns raw !! "RaceNumber" = Some r
                             ∧ one_kind (unique (dropna r)) = false
                             ∧ f = TypeError)))))
  end.
Proof.
  intros _. unfold script_view. rewrite load_csv_eq.
  destruct (columns raw !! "Points") as [pts|] eqn:Hpts; cbn [lift obind];
    [|by left].
  unfold sidebar_options, getitem.
  rewrite !base_other by (repeat constructor).
  destruct (columns raw !! "Season") as [s|] eqn:Hs; cbn [lift obind];
    [|right; split; [done|]; left; done].
  unfold column_options at 1, py_sorted.
  destruct (one_kind (unique (dropna s))) eqn:Hks; cbn [obind];
    [|right; split; [done|]; right; exists s; split; [done|]; left; done].
  destruct (columns raw !! "RaceNumber") as [r|] eqn:Hr; cbn [lift obind].
  2:{ right. split; [done|]. right. exists s. split; [done|]. right.
      split; [done|]. by left. }
  unfold column_options at 1, py_sorted.
  destruct (one_kind (unique (dropna r))) eqn:Hkr; cbn [obind].
  2:{ right. split; [done|]. right. exists s. split; [done|]. right.
      split; [done|]. right. by exists r. }
  destruct (name_options parse_numeric repr_num raw pts "Constructor")
    as [teams Hteams]; [auto|].
  unfold getitem in Hteams. rewrite Hteams. cbn [obind].
  destruct (name_options parse_numeric repr_num raw pts "Driver")
    as [drivers Hdrivers]; [auto|].
  unfold getitem in Hdrivers. rewrite Hdrivers. cbn [obind].
  destruct (dff_base_returns parse_numeric repr_num raw pts sel)
    as [d ->]; [by rewrite Hs|by rewrite Hr|].
  cbn [lift]. eauto 10.
Qed.

End Theorems.


Lemma X7_script_view_outcome_witness :
  no_booleans race_csv
  ∧ match script_view parse_digits show_int race_csv mercedes_2021 with
    | Done _ =>
        is_Some (columns race_csv !! "Points")
        ∧ (∃ s, columns race_csv !! "Season" = Some s
                ∧ one_kind (unique (dropna s)) = true)
        ∧ (∃ r, columns race_csv !! "RaceNumber" = Some r
                ∧ one_kind (unique (dropna r)) = true)
    | Failed f =>
        (columns race_csv !! "Points" = None
         ∧ f = Raised (AttributeError "fillna"))
        ∨ (is_Some (columns race_csv !! "Points")
           ∧ ((columns race_csv !! "Season" = None
               ∧ f = Raised (KeyError "Season"))
              ∨ ∃ s, columns race_csv !! "Season" = Some s
                  ∧ ((one_kind (unique (dropna s)) = false ∧ f = TypeError)
                     ∨ (one_kind (unique (dropna s)) = true
                        ∧ ((columns race_csv !! "RaceNumber" = None
                            ∧ f = Raised (KeyError "RaceNumber"))
                           ∨ ∃ r, columns race_csv !! "RaceNumber" = Some r
                               ∧ one_kind (unique (dropna r)) = false
                               ∧ f = TypeError)))))
    end.
Proof.
  split; [exact LoadMore.race_csv_no_booleans|].
  exact (X7_script_view_outcome parse_digits show_int race_csv mercedes_2021
           LoadMore.race_csv_no_booleans).
Defined.

End ScriptTheorems.

(** ** The program on the sample files *)

Module Examples.
Import Pandas App Loaded Design Samples.
Import PandasFacts LoadFacts.

(** Without a [Points] column [load_csv] raises: [fillna] is called on the
    scalar that [to_numeric] returns for [None]. *)
Lemma load_csv_without_Points parse_numeric repr_num raw :
  columns raw !! "Points" = None →
  load_csv parse_numeric repr_num raw = Raise (AttributeError "fillna").
Proof. intros H. by rewrite load_csv_eq, H. Qed.

Example no_points_csv_raises :
  load_csv parse_digits show_int no_points_csv
  = Raise (AttributeError "fillna").
Proof. reflexivity. Qed.

Example race_csv_IsDNF :
  loaded_column race_csv "IsDNF"
  = Ok [Bool false; Bool false; Bool true; Bool false].
Proof. vm_compute. reflexivity. Qed.

Example race_csv_Driver :
  loaded_column race_csv "Driver"
  = Ok [Str "Hamilton"; Str "Verstappen"; Str "Hamilton"; Str "Verstappen"].
Proof. vm_compute. reflexivity. Qed.

Example race_csv_DriverNumber_clean :
  loaded_column race_csv "DriverNumber_clean"
  = Ok [int 44; int 33; int 44; int 33].
Proof. vm_compute. reflexivity. Qed.

Example race_csv_Pos_num :
  loaded_column race_csv "Pos_num" = Ok [int 1; int 2; NA; int 1].
Proof. vm_compute. reflexivity. Qed.

Example race_csv_Points :
  ∃ pts, loaded_column race_csv "Points" = Ok pts
         ∧ pts = [int 25; int 18; int 0; int 0].
Proof. eexists. split; [vm_compute; reflexivity|]. compute_done. Qed.

Example race_csv_PosGain :
  ∃ gain, loaded_column race_csv "PosGain" = Ok gain
          ∧ gain = [int 1; int (-1); NA; int 2].
Proof. eexists. split; [vm_compute; reflexivity|]. compute_done. Qed.

Example race_csv_finishers :
  filtered_column race_csv finishers_only "Driver"
  = Ok [Str "Hamilton"; Str "Verstappen"; Str "Verstappen"].
Proof. vm_compute. reflexivity. Qed.

Example race_csv_mercedes_2021 :
  filtered_column race_csv mercedes_2021 "Driver" = Ok [Str "Hamilton"].
Proof. vm_compute. reflexivity. Qed.

Example two_races_standings :
  ∃ out, (d ←! filtered parse_digits show_int two_races_csv no_filter;
          driver_points parse_digits d) = Ok out
         ∧ st_CumPoints <$> out = [int 18; int 18].
Proof. eexists. split; [vm_compute; reflexivity|]. compute_done. Qed.

Example tie_csv_by_driver :
  ∃ out, (d ←! filtered parse_digits show_int tie_csv no_filter;
          by_driver d) = Ok out
         ∧ out.*1 = [[Str "Hamilton"]; [Str "Verstappen"]].
Proof. eexists. split; [vm_compute; reflexivity|]. reflexivity. Qed.

End Examples.
